(** * Local Timesheet: a shallow embedding of [app.js]

    The script keeps one JavaScript object, [state], whose [entries] array
    holds the recorded shifts; every handler updates it and writes it to
    [localStorage] as JSON.  The development below follows the script
    function by function.

    - JavaScript numbers are IEEE 754 binary64 values, modelled by the
      kernel's primitive floats, so that sums and quotients are computed
      exactly as the script computes them.
    - JavaScript strings are modelled by [string]; each character stands
      for one code unit in the range 0..255.
    - Built-ins are modelled after the language standard: [Number] on
      strings, [String], [trim], [split], [Math.round], [toFixed],
      [JSON.stringify].  The handlers
      take [JSON.parse] and the conversion of numbers to strings from a
      host; the parser of the standard is defined as well, and is the host
      of the statements about saved texts and of the examples.
    - Values obtained from the user or the clock ([confirm], [uid()],
      [new Date()], form fields, the chosen file) are arguments.
    - The document object model is not modelled: of [render] the totals
      and the exceptions are kept, those of the conversion to a string of
      what is written into the document among them. *)

From Stdlib Require Import ZArith List String Ascii Bool Lia Floats Uint63 Permutation DecimalString.
Import ListNotations.

Set Warnings "-register-all".

Local Open Scope string_scope.
Local Open Scope list_scope.

(** * Outcomes of a call

    A call either returns, throws (every exception the modelled code can
    raise is a [TypeError] or a [SyntaxError], and no handler inspects
    which), or leaves the fragment of the host that is modelled here. *)

Inductive outcome (A : Type) : Type :=
| Returns (a : A)
| Throws
| Unmodelled.

Arguments Returns {A} a.
Arguments Throws {A}.
Arguments Unmodelled {A}.

Definition bind {A B} (c : outcome A) (k : A -> outcome B) : outcome B :=
  match c with
  | Returns a => k a
  | Throws => Throws
  | Unmodelled => Unmodelled
  end.

Declare Scope js_scope.
Delimit Scope js_scope with js.
Notation "x <- c ;; k" := (bind c (fun x => k))
  (at level 61, c at next level, right associativity) : js_scope.

Local Open Scope js_scope.

(** [try { c } catch { h }]. *)
Definition try_catch {A} (c : outcome A) (h : outcome A) : outcome A :=
  match c with
  | Throws => h
  | _ => c
  end.

(** * Numbers and strings of the host *)

(** The number for an integer (exact below [2^53]). *)
Definition Z2float (z : Z) : float :=
  if (z <? 0)%Z
  then PrimFloat.opp (PrimFloat.of_uint63 (Uint63.of_Z (- z)))
  else PrimFloat.of_uint63 (Uint63.of_Z z).

Definition digit_of (c : ascii) : option Z :=
  let n := Z.of_N (N_of_ascii c) in
  if ((48 <=? n) && (n <=? 57))%Z then Some (n - 48)%Z else None.

Fixpoint decimal_value (acc : Z) (s : string) : option Z :=
  match s with
  | EmptyString => Some acc
  | String c s' =>
      match digit_of c with
      | Some d => decimal_value (10 * acc + d)%Z s'
      | None => None
      end
  end.

Definition isWhiteSpace (c : ascii) : bool :=
  let n := nat_of_ascii c in
  ((9 <=? n) && (n <=? 13) || (n =? 32) || (n =? 160))%nat.

Fixpoint trimStart (s : string) : string :=
  match s with
  | EmptyString => ""
  | String c s' => if isWhiteSpace c then trimStart s' else s
  end.

Fixpoint rev_string (acc s : string) : string :=
  match s with
  | EmptyString => acc
  | String c s' => rev_string (String c acc) s'
  end.

Definition trimEnd (s : string) : string :=
  rev_string "" (trimStart (rev_string "" s)).

(** [s.trim()]. *)
Definition trim (s : string) : string := trimEnd (trimStart s).

(** The binary64 value nearest to [(-1)^neg * m * 10^e], ties to even. *)
Definition decimal_to_float (neg : bool) (m : Z) (e : Z) : float :=
  match m with
  | Zpos _ =>
      let n := if (0 <=? e)%Z then (m * 10 ^ e)%Z else m in
      let d := if (0 <=? e)%Z then 1%Z else (10 ^ (- e))%Z in
      let '(q, e', l) := SFdiv_core_binary prec emax n 0 d 0 in
      SF2Prim (binary_round_aux prec emax neg q e' l)
  | _ => if neg then neg_zero else zero
  end.

Definition is_digit (c : ascii) : bool :=
  let n := nat_of_ascii c in ((48 <=? n) && (n <=? 57))%nat.

(** The longest prefix of digits, and what follows it. *)
Fixpoint span_digits (s : string) : string * string :=
  match s with
  | String c s' =>
      if is_digit c
      then let '(ds, rest) := span_digits s' in (String c ds, rest)
      else ("", s)
  | EmptyString => ("", "")
  end.

Definition digits_value (ds : string) : Z :=
  match decimal_value 0 ds with
  | Some z => z
  | None => 0%Z
  end.

Definition hex_value (c : ascii) : option nat :=
  let n := nat_of_ascii c in
  if ((48 <=? n) && (n <=? 57))%nat then Some (n - 48)%nat
  else if ((97 <=? n) && (n <=? 102))%nat then Some (n - 87)%nat
  else if ((65 <=? n) && (n <=? 70))%nat then Some (n - 55)%nat
  else None.

(** The value of a string of digits in the given radix. *)
Fixpoint radix_value (radix : nat) (acc : Z) (s : string) : option Z :=
  match s with
  | EmptyString => Some acc
  | String c s' =>
      match hex_value c with
      | Some d =>
          if (d <? radix)%nat
          then radix_value radix (Z.of_nat radix * acc + Z.of_nat d)%Z s'
          else None
      | None => None
      end
  end.

(** The exponent part that ends a decimal literal: nothing, or [e] or [E],
    an optional sign and digits. *)
Definition exponent_part (s : string) : option Z :=
  match s with
  | EmptyString => Some 0%Z
  | String c s' =>
      if Ascii.eqb c "e" || Ascii.eqb c "E"
      then
        let '(minus, s'') := match s' with
                             | String "-" t => (true, t)
                             | String "+" t => (false, t)
                             | _ => (false, s')
                             end in
        let '(ds, rest) := span_digits s'' in
        if (ds =? "") || negb (rest =? "") then None
        else Some (if minus then - digits_value ds else digits_value ds)%Z
      else None
  end.

(** An unsigned decimal literal of the string-to-number grammar
    ([Infinity], or digits with an optional point and exponent), negated
    when [neg]; [NaN] for any other text. *)
Definition decimal_literal (neg : bool) (s : string) : float :=
  if s =? "Infinity" then (if neg then neg_infinity else infinity)
  else
    let '(int, s1) := span_digits s in
    let '(frac, s2) := match s1 with
                       | String "." t => span_digits t
                       | _ => ("", s1)
                       end in
    if (int =? "") && (frac =? "") then nan
    else
      match exponent_part s2 with
      | Some e =>
          decimal_to_float neg (digits_value (int ++ frac))
                           (e - Z.of_nat (String.length frac))
      | None => nan
      end.

Definition radix_literal (radix : nat) (digits : string) : float :=
  if digits =? "" then nan
  else match radix_value radix 0 digits with
       | Some z => decimal_to_float false z 0
       | None => nan
       end.

(** [Number(s)] for a string: blanks around the text are dropped; the empty
    text is [0]; a text that is not a numeric literal is [NaN]. *)
Definition StringToNumber (s : string) : float :=
  match trim s with
  | EmptyString => 0%float
  | String "0" (String "x" digits) | String "0" (String "X" digits) =>
      radix_literal 16 digits
  | String "0" (String "o" digits) | String "0" (String "O" digits) =>
      radix_literal 8 digits
  | String "0" (String "b" digits) | String "0" (String "B" digits) =>
      radix_literal 2 digits
  | String "+" t => decimal_literal false t
  | String "-" t => decimal_literal true t
  | t => decimal_literal false t
  end.

(** [s.split(sep)] for a separator of one character: never an empty list. *)
Fixpoint split (sep : ascii) (s : string) : list string :=
  match s with
  | EmptyString => [""]
  | String c s' =>
      if Ascii.eqb c sep then "" :: split sep s'
      else match split sep s' with
           | p :: ps => String c p :: ps
           | [] => [String c ""]
           end
  end.

(** [String(n)] for a non-negative integer. *)
Definition nat_toString (n : nat) : string :=
  DecimalString.NilZero.string_of_uint (Nat.to_uint n).

Fixpoint repeat_char (c : ascii) (n : nat) : string :=
  match n with
  | O => ""
  | S n' => String c (repeat_char c n')
  end.

(** [s.padStart(targetLength, c)] for a filler of one character. *)
Definition padStart (targetLength : nat) (c : ascii) (s : string) : string :=
  repeat_char c (targetLength - String.length s) ++ s.

(** * Utilities of the script *)

Definition pad2 (n : nat) : string := padStart 2 "0" (nat_toString n).

(** The template of [nowAsTimeInput], at a given hour and minute of the
    clock: the shape of every value of a time field. *)
Definition timeInput (hours minutes : nat) : string :=
  pad2 hours ++ ":" ++ pad2 minutes.

(** [const [hh, mm] = t.split(":").map(Number); return hh * 60 + mm;]
    A missing second component is [undefined], and a sum with [undefined]
    is [NaN]. *)
Definition timeToMinutes (t : string) : float :=
  match map StringToNumber (split ":" t) with
  | hh :: mm :: _ => (hh * 60 + mm)%float
  | hh :: [] => (hh * 60 + nan)%float
  | [] => nan
  end.

Definition computeHours (timeIn timeOut : string) : float :=
  let inMin := timeToMinutes timeIn in
  let outMin := timeToMinutes timeOut in
  let diff := (outMin - inMin)%float in
  let diff := if (diff <? 0)%float then (diff + 24 * 60)%float else diff in
  (diff / 60)%float.

(** * JavaScript values

    The values the script handles: what [JSON.parse] builds, [undefined],
    and built-in methods met when a property is read ([VFunction]).  An
    object is the list of its own properties, in the order in which they
    are enumerated. *)

Inductive JsVal : Type :=
| VUndefined
| VNull
| VBool (b : bool)
| VNum (f : float)
| VStr (s : string)
| VArr (elems : list JsVal)
| VObj (props : list (string * JsVal))
| VFunction.

Definition ToBoolean (v : JsVal) : bool :=
  match v with
  | VUndefined | VNull => false
  | VBool b => b
  | VNum f => negb (PrimFloat.is_zero f || PrimFloat.is_nan f)
  | VStr s => negb (s =? "")
  | VArr _ | VObj _ | VFunction => true
  end.

Definition isArray (v : JsVal) : bool :=
  match v with
  | VArr _ => true
  | _ => false
  end.

(** The elements of an array. *)
Definition elements (v : JsVal) : list JsVal :=
  match v with
  | VArr l => l
  | _ => []
  end.

(** [v === s] for a string [s]. *)
Definition is_string (s : string) (v : JsVal) : bool :=
  match v with
  | VStr t => t =? s
  | _ => false
  end.

(** [a.includes(v)] for an array [a] of strings. *)
Definition includes (a : list string) (v : JsVal) : bool :=
  existsb (fun s => is_string s v) a.

(** [a || b]. *)
Definition or_else (a b : JsVal) : JsVal := if ToBoolean a then a else b.

Fixpoint own (k : string) (props : list (string * JsVal)) : option JsVal :=
  match props with
  | [] => None
  | (k', v) :: rest => if k' =? k then Some v else own k rest
  end.

Fixpoint set_own (k : string) (x : JsVal) (props : list (string * JsVal))
  : list (string * JsVal) :=
  match props with
  | [] => [(k, x)]
  | (k', v) :: rest =>
      if k' =? k then (k', x) :: rest else (k', v) :: set_own k x rest
  end.

(** The property names the script reads. *)
Inductive Key : Type :=
| Kentries | Kid | Kemployee | Kday | KtimeIn | KtimeOut | Knotes | KcreatedAt.

Definition key_name (k : Key) : string :=
  match k with
  | Kentries => "entries"
  | Kid => "id"
  | Kemployee => "employee"
  | Kday => "day"
  | KtimeIn => "timeIn"
  | KtimeOut => "timeOut"
  | Knotes => "notes"
  | KcreatedAt => "createdAt"
  end.

(** [v.k].  Reading a property of [undefined] or [null] throws.  An object
    answers with its own property; none of the names is inherited from
    [Object.prototype], [String.prototype], [Number.prototype],
    [Boolean.prototype] or [Function.prototype], and an array inherits only
    [entries], a method. *)
Definition Get (v : JsVal) (k : Key) : outcome JsVal :=
  match v with
  | VUndefined | VNull => Throws
  | VObj props =>
      Returns match own (key_name k) props with
              | Some x => x
              | None => VUndefined
              end
  | VArr _ =>
      Returns match k with
              | Kentries => VFunction
              | _ => VUndefined
              end
  | VBool _ | VNum _ | VStr _ | VFunction => Returns VUndefined
  end.

(** [a.filter(f)], [a.find(f)] and [a.map(f)] with callbacks that may
    throw: elements are visited in order, and the first exception ends the
    call.  The callback of [map] also receives the index. *)
Fixpoint filterM {A} (f : A -> outcome bool) (l : list A) : outcome (list A) :=
  match l with
  | [] => Returns []
  | x :: rest =>
      b <- f x ;;
      kept <- filterM f rest ;;
      Returns (if b : bool then x :: kept else kept)
  end.

Fixpoint findM {A} (f : A -> outcome bool) (l : list A) : outcome (option A) :=
  match l with
  | [] => Returns None
  | x :: rest =>
      b <- f x ;;
      if b : bool then Returns (Some x) else findM f rest
  end.

Fixpoint mapM_from {A B} (f : nat -> A -> outcome B) (i : nat) (l : list A)
  : outcome (list B) :=
  match l with
  | [] => Returns []
  | x :: rest =>
      y <- f i x ;;
      ys <- mapM_from f (S i) rest ;;
      Returns (y :: ys)
  end.

Fixpoint join (sep : string) (l : list string) : string :=
  match l with
  | [] => ""
  | [s] => s
  | s :: rest => s ++ sep ++ join sep rest
  end.

(** Whether [String(v)] returns, for the values [JSON.parse] and the
    handlers build.  It throws on an object with an own [toString]
    property, which is never callable there (the conversion then finds no
    primitive value), and on an array that holds such an object, also
    inside an array it holds; elements that are [undefined] or [null] are
    left out of the conversion of an array. *)
Fixpoint stringable (v : JsVal) : bool :=
  match v with
  | VArr elems =>
      (fix all (l : list JsVal) : bool :=
         match l with
         | [] => true
         | x :: rest => stringable x && all rest
         end) elems
  | VObj props =>
      match own "toString" props with
      | None => true
      | Some _ => false
      end
  | _ => true
  end.

(** [node.textContent = v] and [field.value = v]: the value is converted
    to a string before it is written ([null], and for [textContent] also
    [undefined], without a call of [String]), and the assignment throws
    when the conversion does. *)
Definition assignable (v : JsVal) : outcome unit :=
  if stringable v then Returns tt else Throws.

(** * The script: constants, calculator and view *)

Definition DAYS : list string :=
  ["Monday"; "Tuesday"; "Wednesday"; "Thursday"; "Friday"; "Saturday"; "Sunday"].

(** [computeHours(entry.timeIn, entry.timeOut)] as [render] calls it:
    [timeToMinutes] calls [t.split], which is a function only when [t] is
    a string. *)
Definition computeHours_of (timeIn timeOut : JsVal) : outcome float :=
  match timeIn, timeOut with
  | VStr timeIn, VStr timeOut => Returns (computeHours timeIn timeOut)
  | _, _ => Throws
  end.

Definition entryHours (entry : JsVal) : outcome float :=
  timeIn <- Get entry KtimeIn ;;
  timeOut <- Get entry KtimeOut ;;
  computeHours_of timeIn timeOut.

(** [entries.filter(e => e.day === day)]. *)
Definition dayEntries (day : string) (entries : list JsVal)
  : outcome (list JsVal) :=
  filterM (fun e => d <- Get e Kday ;; Returns (is_string day d)) entries.

(** The cells of one row: [textContent] receives the employee, the time
    in, the time out, the hours and [entry.notes ? entry.notes : ""], in
    this order.  The hours are the string [hoursToFixed] returns, which
    needs no conversion. *)
Definition rowCells (entry : JsVal) : outcome unit :=
  employee <- Get entry Kemployee ;;
  _ <- assignable employee ;;
  timeIn <- Get entry KtimeIn ;;
  _ <- assignable timeIn ;;
  timeOut <- Get entry KtimeOut ;;
  _ <- assignable timeOut ;;
  notes <- Get entry Knotes ;;
  assignable (if ToBoolean notes then notes else VStr "").

(** The inner loop of [render]: [dayTotal += h] and the cells of the row,
    over the rows of one day. *)
Fixpoint sumHours (dayTotal : float) (rows : list JsVal) : outcome float :=
  match rows with
  | [] => Returns dayTotal
  | entry :: rest =>
      h <- entryHours entry ;;
      _ <- rowCells entry ;;
      sumHours (dayTotal + h)%float rest
  end.

(** The outer loop of [render]: the per-day totals in the order of [DAYS]
    and the running weekly total. *)
Fixpoint sumDays (days : list string) (entries : list JsVal)
    (perDay : list (string * float)) (weekly : float)
  : outcome (list (string * float) * float) :=
  match days with
  | [] => Returns (perDay, weekly)
  | day :: rest =>
      rows <- dayEntries day entries ;;
      dayTotal <- sumHours 0%float rows ;;
      sumDays rest entries (perDay ++ [(day, dayTotal)]) (weekly + dayTotal)%float
  end.

(** What [render] computes from [state.entries] while it writes the
    rows: the total written under each weekday and the weekly total (before
    [hoursToFixed] formats them). *)
Definition aggregate (entries : list JsVal)
  : outcome (list (string * float) * float) :=
  sumDays DAYS entries [] 0%float.

(** * The host

    What the handlers take from the browser: [JSON.parse] ([None] when it
    throws a [SyntaxError]) and the conversion of a number to a string. *)

Class Host : Type := {
  JSON_parse : string -> option JsVal;
  Number_toString : float -> string
}.

(** [String(v)].  An array joins the strings of its elements, [undefined]
    and [null] counting as empty.  An object without an own [toString]
    property inherits the one that answers ["[object Object]"]; an own
    [toString] or [valueOf] property built by [JSON.parse] is not callable,
    and the conversion then finds no primitive value and throws. *)
Fixpoint ToString `{Host} (v : JsVal) : outcome string :=
  match v with
  | VUndefined => Returns "undefined"
  | VNull => Returns "null"
  | VBool true => Returns "true"
  | VBool false => Returns "false"
  | VNum f => Returns (Number_toString f)
  | VStr s => Returns s
  | VArr elems =>
      let fix each (l : list JsVal) : outcome (list string) :=
        match l with
        | [] => Returns []
        | x :: rest =>
            s <- match x with
                 | VUndefined | VNull => Returns ""
                 | _ => ToString x
                 end ;;
            ss <- each rest ;;
            Returns (s :: ss)
        end in
      ss <- each elems ;;
      Returns (join "," ss)
  | VObj props =>
      match own "toString" props with
      | None => Returns "[object Object]"
      | Some VFunction => Unmodelled
      | Some _ =>
          match own "valueOf" props with
          | Some VFunction => Unmodelled
          | _ => Throws
          end
      end
  | VFunction => Unmodelled
  end.

Definition dquote : ascii := ascii_of_nat 34.

Definition hex_digit (n : nat) : ascii :=
  nth n ["0"; "1"; "2"; "3"; "4"; "5"; "6"; "7"; "8"; "9";
         "a"; "b"; "c"; "d"; "e"; "f"]%char "0"%char.

(** One code unit inside a JSON string. *)
Definition quote_unit (c : ascii) : string :=
  let n := nat_of_ascii c in
  if (n =? 8)%nat then "\b"
  else if (n =? 9)%nat then "\t"
  else if (n =? 10)%nat then "\n"
  else if (n =? 12)%nat then "\f"
  else if (n =? 13)%nat then "\r"
  else if (n =? 34)%nat then String "\" (String dquote "")
  else if (n =? 92)%nat then "\\"
  else if (n <? 32)%nat
       then "\u00" ++ String (hex_digit (n / 16)) (String (hex_digit (n mod 16)) "")
  else String c "".

Fixpoint quote_units (s : string) : string :=
  match s with
  | EmptyString => ""
  | String c s' => quote_unit c ++ quote_units s'
  end.

Definition QuoteJSONString (s : string) : string :=
  String dquote (quote_units s ++ String dquote "").

(** [JSON.stringify(v)] without indentation: [None] is [undefined].  A
    number that is not finite is written [null]; inside an array
    [undefined] and functions are written [null], inside an object their
    properties are left out. *)
Fixpoint JSON_stringify `{Host} (v : JsVal) : option string :=
  match v with
  | VUndefined | VFunction => None
  | VNull => Some "null"
  | VBool true => Some "true"
  | VBool false => Some "false"
  | VNum f => Some (if PrimFloat.is_finite f then Number_toString f else "null")
  | VStr s => Some (QuoteJSONString s)
  | VArr elems =>
      let fix each (l : list JsVal) : list string :=
        match l with
        | [] => []
        | x :: rest =>
            match JSON_stringify x with
            | Some s => s
            | None => "null"
            end :: each rest
        end in
      Some ("[" ++ join "," (each elems) ++ "]")%string
  | VObj props =>
      let fix each (l : list (string * JsVal)) : list string :=
        match l with
        | [] => []
        | (k, x) :: rest =>
            match JSON_stringify x with
            | Some s => (QuoteJSONString k ++ ":" ++ s)%string :: each rest
            | None => each rest
            end
        end in
      Some ("{" ++ join "," (each props) ++ "}")%string
  end.

(** * JSON texts

    [JSON.parse] as the standard defines it, for texts whose strings stay
    within the code units 0..255: a text that escapes a code unit above
    255 denotes no value here and is refused. *)

(** A number of the JSON grammar at the head of [s]: an optional minus
    sign; a zero, or a non-zero digit and more digits; optionally a point
    and one digit or more; optionally [e] or [E], a sign, and one digit or
    more. *)
Definition parse_number (s : string) : option (float * string) :=
  let '(neg, s) := match s with
                   | String "-" s' => (true, s')
                   | _ => (false, s)
                   end in
  let '(int, s) := match s with
                   | String "0" s' => ("0", s')
                   | _ => span_digits s
                   end in
  if int =? "" then None
  else
    let '(frac, s) := match s with
                      | String "." s' =>
                          let '(ds, rest) := span_digits s' in
                          if ds =? "" then ("", s) else (ds, rest)
                      | _ => ("", s)
                      end in
    let '(exp, s) := match s with
                     | String c s' =>
                         if Ascii.eqb c "e" || Ascii.eqb c "E"
                         then
                           let '(minus, s'') := match s' with
                                                | String "-" t => (true, t)
                                                | String "+" t => (false, t)
                                                | _ => (false, s')
                                                end in
                           let '(ds, rest) := span_digits s'' in
                           if ds =? "" then (0%Z, s)
                           else ((if minus then - digits_value ds
                                  else digits_value ds)%Z, rest)
                         else (0%Z, s)
                     | EmptyString => (0%Z, s)
                     end in
    Some (decimal_to_float neg (digits_value (int ++ frac))
                           (exp - Z.of_nat (String.length frac)), s).

Definition is_ws (c : ascii) : bool :=
  let n := nat_of_ascii c in
  ((n =? 32) || (n =? 9) || (n =? 10) || (n =? 13))%nat.

Fixpoint skip_ws (s : string) : string :=
  match s with
  | String c s' => if is_ws c then skip_ws s' else s
  | EmptyString => ""
  end.

(** The characters of a JSON string after its opening quote, up to the
    closing quote: the string they spell and what follows. *)
Fixpoint parse_chars (s : string) : option (string * string) :=
  let cons (c : ascii) (r : option (string * string)) :=
    match r with
    | Some (str, rest) => Some (String c str, rest)
    | None => None
    end in
  match s with
  | EmptyString => None
  | String c s' =>
      if Ascii.eqb c dquote then Some ("", s')
      else if Ascii.eqb c "\" then
        match s' with
        | String e s'' =>
            if Ascii.eqb e dquote then cons dquote (parse_chars s'')
            else if Ascii.eqb e "\" then cons "\"%char (parse_chars s'')
            else if Ascii.eqb e "/" then cons "/"%char (parse_chars s'')
            else if Ascii.eqb e "b" then cons (ascii_of_nat 8) (parse_chars s'')
            else if Ascii.eqb e "f" then cons (ascii_of_nat 12) (parse_chars s'')
            else if Ascii.eqb e "n" then cons (ascii_of_nat 10) (parse_chars s'')
            else if Ascii.eqb e "r" then cons (ascii_of_nat 13) (parse_chars s'')
            else if Ascii.eqb e "t" then cons (ascii_of_nat 9) (parse_chars s'')
            else if Ascii.eqb e "u" then
              match s'' with
              | String h1 (String h2 (String h3 (String h4 s4))) =>
                  match hex_value h1, hex_value h2, hex_value h3, hex_value h4 with
                  | Some 0%nat, Some 0%nat, Some a, Some b =>
                      cons (ascii_of_nat (16 * a + b)) (parse_chars s4)
                  | _, _, _, _ => None
                  end
              | _ => None
              end
            else None
        | EmptyString => None
        end
      else if (nat_of_ascii c <? 32)%nat then None
      else cons c (parse_chars s')
  end.

(** The index a property name stands for, when it is the canonical
    spelling of an integer below [2^32 - 1]. *)
Definition array_index (k : string) : option Z :=
  match k with
  | String "0" EmptyString => Some 0%Z
  | String "0" _ => None
  | EmptyString => None
  | _ =>
      if (String.length k <=? 10)%nat
      then match decimal_value 0 k with
           | Some z => if (z <? 4294967295)%Z then Some z else None
           | None => None
           end
      else None
  end.

Fixpoint insert_index (i : Z) (k : string) (v : JsVal)
    (props : list (string * JsVal)) : list (string * JsVal) :=
  match props with
  | [] => [(k, v)]
  | (k', v') :: rest =>
      match array_index k' with
      | Some j => if (j <=? i)%Z then (k', v') :: insert_index i k v rest
                  else (k, v) :: props
      | None => (k, v) :: props
      end
  end.

(** A property defined on an object being built: a known name takes the
    new value in place; a new name that is an index goes among the indices
    in ascending order, any other new name goes last. *)
Definition define_prop (k : string) (v : JsVal) (props : list (string * JsVal))
  : list (string * JsVal) :=
  match own k props with
  | Some _ => set_own k v props
  | None =>
      match array_index k with
      | Some i => insert_index i k v props
      | None => props ++ [(k, v)]
      end
  end.

(** [s] without the prefix [word], when it starts with it. *)
Fixpoint strip_prefix (word s : string) : option string :=
  match word with
  | EmptyString => Some s
  | String c word' =>
      match s with
      | String d s' => if Ascii.eqb c d then strip_prefix word' s' else None
      | EmptyString => None
      end
  end.

Definition expect (word : string) (v : JsVal) (s : string)
  : option (JsVal * string) :=
  match strip_prefix word s with
  | Some rest => Some (v, rest)
  | None => None
  end.

(** What follows the character [c] at the head of [s]. *)
Definition after (c : ascii) (s : string) : option string :=
  match s with
  | String d s' => if Ascii.eqb d c then Some s' else None
  | EmptyString => None
  end.

Fixpoint parse_value (fuel : nat) (s : string) : option (JsVal * string) :=
  match fuel with
  | O => None
  | S fuel' =>
      match skip_ws s with
      | EmptyString => None
      | String c rest =>
          if Ascii.eqb c "n" then expect "ull" VNull rest
          else if Ascii.eqb c "t" then expect "rue" (VBool true) rest
          else if Ascii.eqb c "f" then expect "alse" (VBool false) rest
          else if Ascii.eqb c dquote then
            match parse_chars rest with
            | Some (str, rest') => Some (VStr str, rest')
            | None => None
            end
          else if Ascii.eqb c "[" then
            match after "]" (skip_ws rest) with
            | Some rest' => Some (VArr [], rest')
            | None =>
                match parse_elements fuel' rest with
                | Some (elems, rest') => Some (VArr elems, rest')
                | None => None
                end
            end
          else if Ascii.eqb c "{" then
            match after "}" (skip_ws rest) with
            | Some rest' => Some (VObj [], rest')
            | None =>
                match parse_members fuel' rest [] with
                | Some (props, rest') => Some (VObj props, rest')
                | None => None
                end
            end
          else
            match parse_number (String c rest) with
            | Some (f, rest') => Some (VNum f, rest')
            | None => None
            end
      end
  end
with parse_elements (fuel : nat) (s : string) : option (list JsVal * string) :=
  match fuel with
  | O => None
  | S fuel' =>
      match parse_value fuel' s with
      | Some (v, rest) =>
          match after "," (skip_ws rest) with
          | Some rest' =>
              match parse_elements fuel' rest' with
              | Some (vs, rest'') => Some (v :: vs, rest'')
              | None => None
              end
          | None =>
              match after "]" (skip_ws rest) with
              | Some rest' => Some ([v], rest')
              | None => None
              end
          end
      | None => None
      end
  end
with parse_members (fuel : nat) (s : string) (acc : list (string * JsVal))
  : option (list (string * JsVal) * string) :=
  match fuel with
  | O => None
  | S fuel' =>
      match after dquote (skip_ws s) with
      | Some rest =>
          match parse_chars rest with
          | Some (k, rest1) =>
              match after ":" (skip_ws rest1) with
              | Some rest2 =>
                  match parse_value fuel' rest2 with
                  | Some (v, rest3) =>
                      match after "," (skip_ws rest3) with
                      | Some rest4 =>
                          parse_members fuel' rest4 (define_prop k v acc)
                      | None =>
                          match after "}" (skip_ws rest3) with
                          | Some rest4 => Some (define_prop k v acc, rest4)
                          | None => None
                          end
                      end
                  | None => None
                  end
              | None => None
              end
          | None => None
          end
      | None => None
      end
  end.

(** [JSON.parse(text)]: [None] when it throws a [SyntaxError]. *)
Definition parse (text : string) : option JsVal :=
  match parse_value (2 * String.length text + 2) text with
  | Some (v, rest) => if skip_ws rest =? "" then Some v else None
  | None => None
  end.

(** The host of the standard, with a given conversion of numbers to
    strings. *)
Definition browser (toString : float -> string) : Host :=
  {| JSON_parse := parse; Number_toString := toString |}.

(** * The page

    [state], the item stored under [STORAGE_KEY], and what the handlers
    have put before the user so far: alerts, confirmations, and the values
    written into the form.  A handler runs on a page and leaves a page,
    also when it throws. *)

(** The values [editEntry] writes into the five form fields. *)
Record Draft : Type := mkDraft {
  draft_employee : JsVal;
  draft_day : JsVal;
  draft_timeIn : JsVal;
  draft_timeOut : JsVal;
  draft_notes : JsVal
}.

(** The fields of the form in the order in which [editEntry] writes
    them. *)
Definition draft_values (draft : Draft) : list JsVal :=
  [draft_employee draft; draft_day draft; draft_timeIn draft;
   draft_timeOut draft; draft_notes draft].

(** [Prefill draft]: the five fields of the form have received the values
    of the draft.  [Written values]: the first fields of the form have
    received these values, and the assignment of the next one threw. *)
Inductive Shown : Type :=
| Alert (message : string)
| Confirm (message : string)
| Prefill (draft : Draft)
| Written (values : list JsVal).

Record Page : Type := mkPage {
  state : JsVal;
  localStorage : option string;
  shown : list Shown
}.

Definition Handler (A : Type) : Type := Page -> Page * outcome A.

Definition hret {A} (a : A) : Handler A := fun p => (p, Returns a).

Definition hbind {A B} (c : Handler A) (k : A -> Handler B) : Handler B :=
  fun p =>
    match c p with
    | (p', Returns a) => k a p'
    | (p', Throws) => (p', Throws)
    | (p', Unmodelled) => (p', Unmodelled)
    end.

Notation "x <~ c ;; k" := (hbind c (fun x => k))
  (at level 61, c at next level, right associativity) : js_scope.

Notation "c ;;; k" := (hbind c (fun _ => k))
  (at level 61, right associativity) : js_scope.

Definition lift {A} (o : outcome A) : Handler A := fun p => (p, o).

(** [try { c } catch { h }] around statements. *)
Definition htry {A} (c : Handler A) (h : Handler A) : Handler A :=
  fun p =>
    match c p with
    | (p', Throws) => h p'
    | r => r
    end.

Definition getState : Handler JsVal := fun p => (p, Returns (state p)).

Definition setState (st : JsVal) : Handler unit :=
  fun p => (mkPage st (localStorage p) (shown p), Returns tt).

Definition alert (message : string) : Handler unit :=
  fun p => (mkPage (state p) (localStorage p) (shown p ++ [Alert message]),
            Returns tt).

(** [confirm(message)], the user answering [answer]. *)
Definition confirm (message : string) (answer : bool) : Handler bool :=
  fun p => (mkPage (state p) (localStorage p) (shown p ++ [Confirm message]),
            Returns answer).

(** [localStorage.setItem(STORAGE_KEY, value)]. *)
Definition setItem (value : option string) : Handler unit :=
  fun p =>
    (mkPage (state p)
            (Some match value with Some s => s | None => "undefined" end)
            (shown p),
     Returns tt).

Definition emptyDocument : JsVal := VObj [("entries", VArr [])].

(** The array under [state.entries], on which the handlers call [push],
    [filter], [find] and [concat].  A state without such an array is never
    built by the script and is not modelled. *)
Definition entries_of (st : JsVal) : outcome (list JsVal) :=
  match st with
  | VObj props =>
      match own "entries" props with
      | Some (VArr l) => Returns l
      | _ => Unmodelled
      end
  | _ => Unmodelled
  end.

(** [state.entries = l] (and [state.entries.push(x)], which extends the
    same array in place). *)
Definition set_entries (st : JsVal) (l : list JsVal) : JsVal :=
  match st with
  | VObj props => VObj (set_own "entries" (VArr l) props)
  | _ => st
  end.

Definition saveState `{Host} : Handler unit :=
  st <~ getState ;; setItem (JSON_stringify st).

Definition loadState_try `{Host} (item : option string) : outcome JsVal :=
  match item with
  | None => Returns emptyDocument
  | Some raw =>
      if raw =? "" then Returns emptyDocument
      else
        parsed <- match JSON_parse raw with
                  | Some v => Returns v
                  | None => Throws
                  end ;;
        parsed_entries <- Get parsed Kentries ;;
        if negb (ToBoolean parsed_entries) || negb (isArray parsed_entries)
        then Returns emptyDocument
        else Returns parsed
  end.

(** [loadState()], reading the stored item [item] ([None] when
    [getItem] answers [null]). *)
Definition loadState `{Host} (item : option string) : outcome JsVal :=
  try_catch (loadState_try item) (Returns emptyDocument).

(** [render()]: the totals are computed from [state.entries] and written
    to the document, which is not part of the page modelled here; what
    remains is whether the call returns. *)
Definition render : Handler unit :=
  st <~ getState ;;
  entries <~ lift (entries_of st) ;;
  _ <~ lift (aggregate entries) ;;
  hret tt.

Module Form.
Record t : Type := mk {
  employee : string;
  day : string;
  timeIn : string;
  timeOut : string;
  notes : string
}.
End Form.

(** [addEntry(fields)], [uid()] answering [id] and the clock [createdAt]. *)
Definition addEntry `{Host} (fields : Form.t) (id createdAt : string)
  : Handler unit :=
  st <~ getState ;;
  entries <~ lift (entries_of st) ;;
  setState (set_entries st
    (entries ++
     [VObj [("id", VStr id);
            ("employee", VStr (trim (Form.employee fields)));
            ("day", VStr (Form.day fields));
            ("timeIn", VStr (Form.timeIn fields));
            ("timeOut", VStr (Form.timeOut fields));
            ("notes", VStr (trim (Form.notes fields)));
            ("createdAt", VStr createdAt)]])) ;;;
  saveState ;;;
  render.

(** [e => e.id === id] and its negation, for an identifier that is a
    string. *)
Definition has_id (id : string) (e : JsVal) : outcome bool :=
  x <- Get e Kid ;; Returns (is_string id x).

Definition has_other_id (id : string) (e : JsVal) : outcome bool :=
  x <- Get e Kid ;; Returns (negb (is_string id x)).

(** [deleteEntry(id)], the user answering [ok] to the confirmation. *)
Definition deleteEntry `{Host} (id : string) (ok : bool) : Handler unit :=
  ok <~ confirm "Delete this entry?" ok ;;
  if negb ok then hret tt
  else
    st <~ getState ;;
    entries <~ lift (entries_of st) ;;
    kept <~ lift (filterM (has_other_id id) entries) ;;
    setState (set_entries st kept) ;;;
    saveState ;;;
    render.

(** The values assigned before the first assignment that throws. *)
Fixpoint written_of (values : list JsVal) : list JsVal :=
  match values with
  | [] => []
  | v :: rest => if stringable v then v :: written_of rest else []
  end.

(** [els.employee.value = ...] and the four assignments after it, one
    after the other: the first one that throws ends the handler. *)
Definition prefill (draft : Draft) : Handler unit :=
  fun p =>
    if forallb stringable (draft_values draft)
    then (mkPage (state p) (localStorage p) (shown p ++ [Prefill draft]),
          Returns tt)
    else (mkPage (state p) (localStorage p)
                 (shown p ++ [Written (written_of (draft_values draft))]),
          Throws).

Definition editEntry `{Host} (id : string) : Handler unit :=
  st <~ getState ;;
  entries <~ lift (entries_of st) ;;
  found <~ lift (findM (has_id id) entries) ;;
  match found with
  | None => hret tt
  | Some entry =>
      employee <~ lift (Get entry Kemployee) ;;
      day <~ lift (Get entry Kday) ;;
      timeIn <~ lift (Get entry KtimeIn) ;;
      timeOut <~ lift (Get entry KtimeOut) ;;
      notes <~ lift (Get entry Knotes) ;;
      prefill (mkDraft employee day timeIn timeOut (or_else notes (VStr ""))) ;;;
      kept <~ lift (filterM (has_other_id id) entries) ;;
      setState (set_entries st kept) ;;;
      saveState ;;;
      render
  end.

(** The [submit] listener of the form, on the values of its fields. *)
Definition onSubmit `{Host} (fields : Form.t) (id createdAt : string)
  : Handler unit :=
  if negb (ToBoolean (VStr (trim (Form.employee fields))))
  then alert "Please enter an employee name."
  else if negb (ToBoolean (VStr (Form.timeIn fields)))
          || negb (ToBoolean (VStr (Form.timeOut fields)))
  then alert "Please enter time in and time out."
  else addEntry fields id createdAt.

(** The [click] listener of the clear button. *)
Definition onClear `{Host} (ok : bool) : Handler unit :=
  ok <~ confirm "This will delete ALL saved entries from this device. Continue?" ok ;;
  if negb ok then hret tt
  else
    setState emptyDocument ;;;
    saveState ;;;
    render.

(** The callback of [filter] in the import. *)
Definition importable (x : JsVal) : outcome bool :=
  if negb (ToBoolean x) then Returns false
  else
    day <- Get x Kday ;;
    if negb (includes DAYS day) then Returns false
    else
      employee <- Get x Kemployee ;;
      if negb (ToBoolean employee) then Returns false
      else
        timeIn <- Get x KtimeIn ;;
        if negb (ToBoolean timeIn) then Returns false
        else
          timeOut <- Get x KtimeOut ;;
          Returns (ToBoolean timeOut).

(** The callback of [map] in the import; [uid] and [now] answer for the
    element at each index. *)
Definition sanitize `{Host} (uid now : nat -> string) (i : nat) (x : JsVal)
  : outcome JsVal :=
  id <- Get x Kid ;;
  employee <- Get x Kemployee ;;
  employee <- ToString employee ;;
  day <- Get x Kday ;;
  timeIn <- Get x KtimeIn ;;
  timeOut <- Get x KtimeOut ;;
  notes <- Get x Knotes ;;
  notes <- (if ToBoolean notes then ToString notes else Returns "") ;;
  createdAt <- Get x KcreatedAt ;;
  Returns (VObj [("id", or_else id (VStr (uid i)));
                 ("employee", VStr employee);
                 ("day", day);
                 ("timeIn", timeIn);
                 ("timeOut", timeOut);
                 ("notes", VStr notes);
                 ("createdAt", or_else createdAt (VStr (now i)))]).

Definition cleaned_of `{Host} (uid now : nat -> string) (candidates : list JsVal)
  : outcome (list JsVal) :=
  kept <- filterM importable candidates ;;
  mapM_from (sanitize uid now) 0 kept.

Definition import_prompt (n : nat) : string :=
  "Import " ++ nat_toString n
  ++ " entries into this device? (This will ADD to current entries.)".

(** The [change] listener of the file input: [file] is the text of the
    chosen file ([None] when no file is chosen), [ok] the user's answer to
    the confirmation. *)
Definition onImport `{Host} (file : option string) (ok : bool)
    (uid now : nat -> string) : Handler unit :=
  match file with
  | None => hret tt
  | Some text =>
      htry
        (parsed <~ lift match JSON_parse text with
                        | Some v => Returns v
                        | None => Throws
                        end ;;
         parsed_entries <~ lift (Get parsed Kentries) ;;
         if negb (ToBoolean parsed_entries) || negb (isArray parsed_entries)
         then alert "That file doesn't look like a timesheet export."
         else
           cleaned <~ lift (cleaned_of uid now (elements parsed_entries)) ;;
           ok <~ confirm (import_prompt (List.length cleaned)) ok ;;
           if negb ok then hret tt
           else
             st <~ getState ;;
             entries <~ lift (entries_of st) ;;
             setState (set_entries st (entries ++ cleaned)) ;;;
             saveState ;;;
             render)
        (alert "Import failed. Make sure it's a valid JSON file.")
  end.

(** The script from top to bottom: [let state = loadState()] and the
    closing [render()], on the stored item [item]. *)
Definition boot `{Host} (item : option string) : Page * outcome unit :=
  match loadState item with
  | Returns st => render (mkPage st item [])
  | Throws => (mkPage VUndefined item [], Throws)
  | Unmodelled => (mkPage VUndefined item [], Unmodelled)
  end.

(** The page of a first visit: nothing stored. *)
Definition first_page : Page := mkPage emptyDocument None [].

(** * Vocabulary of the statements *)

(** Minutes since midnight, as the specification words it. *)
Definition minutes (hours mins : nat) : Z := Z.of_nat (hours * 60 + mins).

(** The difference of two minute counts, a day added when it is negative. *)
Definition elapsed (inMinutes outMinutes : Z) : Z :=
  if (outMinutes - inMinutes <? 0)%Z
  then (outMinutes - inMinutes + 1440)%Z
  else (outMinutes - inMinutes)%Z.

(** The subtraction, the test and the correction of [computeHours] are
    exact on minute counts of one day: checked on all pairs. *)
Definition diff_of (inMin outMin : float) : float :=
  let diff := (outMin - inMin)%float in
  if (diff <? 0)%float then (diff + 24 * 60)%float else diff.

Definition day_minutes : list Z := map Z.of_nat (seq 0 1440).

Definition nullish (v : JsVal) : bool :=
  match v with
  | VUndefined | VNull => true
  | _ => false
  end.

(** The entry is an object whose [id] is the string [id]. *)
Definition id_is (id : string) (e : JsVal) : bool :=
  match e with
  | VObj props =>
      match own "id" props with
      | Some x => is_string id x
      | None => false
      end
  | _ => false
  end.

(** The text [saveState] stores for a state. *)
Definition stored_text `{Host} (st : JsVal) : string :=
  match JSON_stringify st with
  | Some s => s
  | None => "undefined"
  end.

Definition other_id (id : string) (e : JsVal) : bool := negb (id_is id e).

(** [e.k] for an entry that is neither [undefined] nor [null]. *)
Definition field (e : JsVal) (k : Key) : JsVal :=
  match Get e k with
  | Returns x => x
  | _ => VUndefined
  end.

(** The draft [editEntry] writes for an entry. *)
Definition draft_of (e : JsVal) : Draft :=
  mkDraft (field e Kemployee) (field e Kday) (field e KtimeIn)
          (field e KtimeOut) (or_else (field e Knotes) (VStr "")).

(** A candidate as the import accepts it: a value whose [day] is one of
    the seven weekday labels and whose [employee], [timeIn] and [timeOut]
    are present (truthy). *)
Definition valid_candidate (x : JsVal) : bool :=
  ToBoolean x
  && includes DAYS (field x Kday)
  && ToBoolean (field x Kemployee)
  && ToBoolean (field x KtimeIn)
  && ToBoolean (field x KtimeOut).

(** The entry is an object whose [day] is the string [day]. *)
Definition day_is (day : string) (e : JsVal) : bool := is_string day (field e Kday).

(** Two outcomes of [filter] that agree up to the order of the rows. *)
Definition same_rows (a b : outcome (list JsVal)) : Prop :=
  match a, b with
  | Returns x, Returns y => Permutation x y
  | Throws, Throws => True
  | Unmodelled, Unmodelled => True
  | _, _ => False
  end.

(** One handler run, whatever its arguments; [allowed] tells which field
    values the form can submit. *)
Inductive step `{Host} (allowed : Form.t -> Prop) : Page -> Page -> Prop :=
| step_submit (fields : Form.t) (id createdAt : string) (p : Page) :
    allowed fields -> step allowed p (fst (onSubmit fields id createdAt p))
| step_delete (id : string) (ok : bool) (p : Page) :
    step allowed p (fst (deleteEntry id ok p))
| step_edit (id : string) (p : Page) :
    step allowed p (fst (editEntry id p))
| step_clear (ok : bool) (p : Page) :
    step allowed p (fst (onClear ok p))
| step_import (file : option string) (ok : bool) (uid now : nat -> string)
    (p : Page) :
    step allowed p (fst (onImport file ok uid now p)).

Inductive reachable `{Host} (allowed : Form.t -> Prop) : Page -> Prop :=
| reachable_first : reachable allowed first_page
| reachable_step (p p' : Page) :
    reachable allowed p -> step allowed p p' -> reachable allowed p'.

Definition any_form (fields : Form.t) : Prop := True.

Definition weekday_form (fields : Form.t) : Prop := In (Form.day fields) DAYS.

(** The object [addEntry] pushes. *)
Definition new_entry (fields : Form.t) (id createdAt : string) : JsVal :=
  VObj [("id", VStr id);
        ("employee", VStr (trim (Form.employee fields)));
        ("day", VStr (Form.day fields));
        ("timeIn", VStr (Form.timeIn fields));
        ("timeOut", VStr (Form.timeOut fields));
        ("notes", VStr (trim (Form.notes fields)));
        ("createdAt", VStr createdAt)].

(** What the handlers guarantee of an entry: the employee is a string, the
    day is one of the seven labels, and time in and time out are present
    (truthy; not the empty string). *)
Definition entry_ok (e : JsVal) : Prop :=
  (exists s, field e Kemployee = VStr s)
  /\ (exists d, field e Kday = VStr d /\ In d DAYS)
  /\ ToBoolean (field e KtimeIn) = true
  /\ ToBoolean (field e KtimeOut) = true.

(** The invariant as the data model words it: employee, time in and time
    out are non-empty strings, and the day is one of the seven labels. *)
Definition non_empty_string (v : JsVal) : Prop :=
  exists s, v = VStr s /\ s <> "".

Definition entry_as_specified (e : JsVal) : Prop :=
  non_empty_string (field e Kemployee)
  /\ non_empty_string (field e KtimeIn)
  /\ non_empty_string (field e KtimeOut)
  /\ exists d, field e Kday = VStr d /\ In d DAYS.

Definition delimited (rest : string) : Prop :=
  match rest with
  | EmptyString => True
  | String c _ => c = ","%char \/ c = "]"%char \/ c = "}"%char
  end.

(** The host writes the number as a JSON number, and the parser reads that
    text back as the same number. *)
Definition number_ok `{Host} (f : float) : Prop :=
  PrimFloat.is_finite f = true
  /\ (exists c t, Number_toString f = String c t
                  /\ (is_digit c || Ascii.eqb c "-") = true)
  /\ forall rest, delimited rest ->
       parse_number (Number_toString f ++ rest) = Some (f, rest).

(** The properties of an object, defined one after the other as
    [JSON.parse] defines them. *)
Definition rebuild (props : list (string * JsVal)) : list (string * JsVal) :=
  fold_left (fun acc kv => define_prop (fst kv) (snd kv) acc) props [].

(** Values that a JSON text denotes exactly: no [undefined], no function,
    numbers that the host writes and reads back, objects whose properties
    stand in the order in which [JSON.parse] would define them. *)
Fixpoint plain `{Host} (v : JsVal) : Prop :=
  match v with
  | VNull | VBool _ | VStr _ => True
  | VNum f => number_ok f
  | VArr elems =>
      (fix all (l : list JsVal) : Prop :=
         match l with
         | [] => True
         | x :: rest => plain x /\ all rest
         end) elems
  | VObj props =>
      rebuild props = props
      /\ (fix all (l : list (string * JsVal)) : Prop :=
            match l with
            | [] => True
            | (_, x) :: rest => plain x /\ all rest
            end) props
  | VUndefined | VFunction => False
  end.

Definition text_of `{Host} (v : JsVal) : string :=
  match JSON_stringify v with
  | Some s => s
  | None => "null"
  end.

Definition member_text `{Host} (kv : string * JsVal) : string :=
  QuoteJSONString (fst kv) ++ ":" ++ text_of (snd kv).

(** The fuel that reading a value back takes. *)
Fixpoint need (v : JsVal) : nat :=
  match v with
  | VArr elems =>
      S ((fix sum (l : list JsVal) : nat :=
            match l with
            | [] => O
            | x :: rest => S (need x + sum rest)
            end) elems)
  | VObj props =>
      S ((fix sum (l : list (string * JsVal)) : nat :=
            match l with
            | [] => O
            | (_, x) :: rest => S (need x + sum rest)
            end) props)
  | _ => 1
  end.

Definition need_all (l : list JsVal) : nat :=
  fold_right (fun x n => S (need x + n)) O l.

Definition need_props (l : list (string * JsVal)) : nat :=
  fold_right (fun kv n => S (need (snd kv) + n)) O l.

(** The first character of a value's text. *)
Definition value_start (c : ascii) : bool :=
  Ascii.eqb c "n" || Ascii.eqb c "t" || Ascii.eqb c "f" || Ascii.eqb c dquote
  || Ascii.eqb c "[" || Ascii.eqb c "{" || is_digit c || Ascii.eqb c "-".

(** What reading back one value asks: given enough fuel, the text of the
    value followed by a delimiter is read as the value, and the delimiter
    is left. *)
Definition reads_back `{Host} (v : JsVal) : Prop :=
  plain v ->
  forall fuel rest, need v <= fuel -> delimited rest ->
    parse_value fuel (text_of v ++ rest) = Some (v, rest).

(** A property name may stand after another in an object: the two differ,
    and an index stands before any other name and after no greater
    index. *)
Definition follows (k k' : string) : Prop :=
  k <> k'
  /\ match array_index k, array_index k' with
     | Some a, Some b => (a <= b)%Z
     | Some _, None => True
     | None, Some _ => False
     | None, None => True
     end.

Fixpoint ordered_keys (ks : list string) : Prop :=
  match ks with
  | [] => True
  | k :: rest => Forall (follows k) rest /\ ordered_keys rest
  end.

Definition ordered (props : list (string * JsVal)) : Prop :=
  ordered_keys (map fst props).

(** Values as [JSON.parse] and the script build them: no [undefined], no
    function, and in every object the properties in the order of their
    enumeration. *)
Fixpoint shaped (v : JsVal) : Prop :=
  match v with
  | VNull | VBool _ | VNum _ | VStr _ => True
  | VArr elems =>
      (fix all (l : list JsVal) : Prop :=
         match l with
         | [] => True
         | x :: rest => shaped x /\ all rest
         end) elems
  | VObj props =>
      ordered props
      /\ (fix all (l : list (string * JsVal)) : Prop :=
            match l with
            | [] => True
            | (_, x) :: rest => shaped x /\ all rest
            end) props
  | VUndefined | VFunction => False
  end.

(** Every number in the value is written by the host as a JSON number
    that reads back as the same number. *)
Fixpoint numbers_ok `{Host} (v : JsVal) : Prop :=
  match v with
  | VNum f => number_ok f
  | VArr elems =>
      (fix all (l : list JsVal) : Prop :=
         match l with
         | [] => True
         | x :: rest => numbers_ok x /\ all rest
         end) elems
  | VObj props =>
      (fix all (l : list (string * JsVal)) : Prop :=
         match l with
         | [] => True
         | (_, x) :: rest => numbers_ok x /\ all rest
         end) props
  | _ => True
  end.

(** * Texts and pages for the examples

    JSON texts are written with ['] for the double quote.  The host of
    the examples is the host of the standard; no example converts a finite
    number to a string. *)

Definition json (s : string) : string :=
  let fix go (s : string) : string :=
    match s with
    | EmptyString => ""
    | String c s' => String (if Ascii.eqb c "'" then dquote else c) (go s')
    end in
  go s.

Definition sample_host : Host := browser (fun _ => "0").

Definition funday_text : string := json "{'entries':[{'day':'Funday'}]}".

Definition funday_document : JsVal :=
  VObj [("entries", VArr [VObj [("day", VStr "Funday")]])].

Definition overflow_text : string :=
  json "{'entries':[{'employee':'Ann','day':'Monday','timeIn':1e999,'timeOut':'17:00'}]}".

Definition saved_overflow_text : string :=
  json "{'entries':[{'id':'k0','employee':'Ann','day':'Monday','timeIn':null,'timeOut':'17:00','notes':'','createdAt':'2024-01-01T09:00:00.000Z'}]}".

Definition roster_text : string :=
  json "{'entries':[{'id':'a1','employee':'Ann','day':'Monday','timeIn':'09:00','timeOut':'17:00','notes':'desk'},{'id':'b2','employee':'Bob','day':'Tuesday','timeIn':'22:00','timeOut':'06:00'}]}".



Definition ann_saved : JsVal :=
  VObj [("id", VStr "a1"); ("employee", VStr "Ann"); ("day", VStr "Monday");
        ("timeIn", VStr "09:00"); ("timeOut", VStr "17:00");
        ("notes", VStr "desk"); ("createdAt", VStr "2024-01-01T09:00:00.000Z")].

Definition bob_saved : JsVal :=
  VObj [("id", VStr "b2"); ("employee", VStr "Bob"); ("day", VStr "Tuesday");
        ("timeIn", VStr "22:00"); ("timeOut", VStr "06:00");
        ("notes", VStr ""); ("createdAt", VStr "2024-01-01T09:00:00.000Z")].


Definition saved_roster_document : JsVal :=
  VObj [("entries", VArr [ann_saved; bob_saved])].

Definition saved_overflow_document : JsVal :=
  VObj [("entries",
         VArr [VObj [("id", VStr "k0"); ("employee", VStr "Ann");
                     ("day", VStr "Monday"); ("timeIn", VNull);
                     ("timeOut", VStr "17:00"); ("notes", VStr "");
                     ("createdAt", VStr "2024-01-01T09:00:00.000Z")]])].

Definition sloppy_text : string :=
  json "{'entries':[{'employee':[],'day':'Monday','timeIn':true,'timeOut':{}}]}".

Definition sample_uid (i : nat) : string := "k" ++ nat_toString i.

Definition sample_now (_ : nat) : string := "2024-01-01T09:00:00.000Z".

(** The page after the roster file has been imported twice. *)
Definition twice_page : Page :=
  let import := @onImport sample_host (Some roster_text) true sample_uid sample_now in
  fst (import (fst (import first_page))).

(** Three shifts on Monday, of 6, 12 and 18 minutes. *)
Definition monday_shift (timeOut : string) : JsVal :=
  VObj [("id", VStr timeOut); ("employee", VStr "Ann"); ("day", VStr "Monday");
        ("timeIn", VStr "09:00"); ("timeOut", VStr timeOut); ("notes", VStr "");
        ("createdAt", VStr "2024-01-01T09:00:00.000Z")].

Definition short_shifts : list JsVal :=
  [monday_shift "09:06"; monday_shift "09:12"; monday_shift "09:18"].

(** The entry the import makes of the candidate of [sloppy_text]. *)
Definition sloppy_saved : JsVal :=
  VObj [("id", VStr "k0"); ("employee", VStr ""); ("day", VStr "Monday");
        ("timeIn", VBool true); ("timeOut", VObj []); ("notes", VStr "");
        ("createdAt", VStr "2024-01-01T09:00:00.000Z")].

(** The page after the roster file has been imported once. *)
Definition roster_page : Page :=
  fst (@onImport sample_host (Some roster_text) true sample_uid sample_now
         first_page).

(** A file whose only candidate has an object with an own [toString] for
    time in, the entry the import makes of it, and the page after the
    import. *)
Definition boxed_time_text : string :=
  json "{'entries':[{'id':'x1','employee':'Ann','day':'Monday','timeIn':{'toString':null},'timeOut':'17:00'}]}".

Definition boxed_time_entry : JsVal :=
  VObj [("id", VStr "x1"); ("employee", VStr "Ann"); ("day", VStr "Monday");
        ("timeIn", VObj [("toString", VNull)]); ("timeOut", VStr "17:00");
        ("notes", VStr ""); ("createdAt", VStr "2024-01-01T09:00:00.000Z")].

Definition boxed_time_page : Page :=
  fst (@onImport sample_host (Some boxed_time_text) true sample_uid sample_now
         first_page).

(** The page after the file of [overflow_text] has been imported. *)
Definition overflow_page : Page :=
  fst (@onImport sample_host (Some overflow_text) true sample_uid sample_now
         first_page).

(** * The view: formatting hours *)

(** [Math.round(x)]: the integer nearest to [x], the greater one of two
    that are equally near; an integer, an infinity and [NaN] are returned
    as they are; a result that is zero keeps the sign of [x]. *)
Definition Math_round (x : float) : float :=
  match Prim2SF x with
  | S754_finite s m e =>
      if (0 <=? e)%Z then x
      else
        let half := (2 ^ (- e - 1))%Z in
        let n := (((if s then - Zpos m else Zpos m) + half) / (2 * half))%Z in
        if (n =? 0)%Z then (if s then neg_zero else zero) else Z2float n
  | _ => x
  end.

(** The decimal digits of a non-negative integer. *)
Definition Z_toString (n : Z) : string :=
  DecimalString.NilZero.string_of_uint (N.to_uint (Z.to_N n)).

(** [x.toFixed(fractionDigits)], for at most 100 digits.  A number that is
    not finite, or whose magnitude is [1e21] or more, is written as
    [String] writes it; otherwise the integer [n] nearest to the magnitude
    times [10^fractionDigits] is taken (the greater one of two that are
    equally near) and the point is put before its last [fractionDigits]
    digits, zeros being added in front when there are too few. *)
Definition toFixed `{Host} (fractionDigits : nat) (x : float) : string :=
  let f := Z.of_nat fractionDigits in
  let fixed (negative : bool) (num den : Z) : string :=
    (* the magnitude is num / den *)
    if (10 ^ 21 * den <=? num)%Z
    then ((if negative then "-" else "") ++ Number_toString (PrimFloat.abs x))%string
    else
      let n := ((2 * num * 10 ^ f + den) / (2 * den))%Z in
      let m := padStart (S fractionDigits) "0" (Z_toString n) in
      let k := String.length m in
      ((if negative then "-" else "")
       ++ substring 0 (k - fractionDigits) m
       ++ (if (fractionDigits =? 0)%nat then ""
           else "." ++ substring (k - fractionDigits) fractionDigits m))%string in
  match Prim2SF x with
  | S754_zero _ => fixed false 0%Z 1%Z
  | S754_finite s m e =>
      if (0 <=? e)%Z then fixed s (Zpos m * 2 ^ e)%Z 1%Z
      else fixed s (Zpos m) (2 ^ (- e))%Z
  | _ => Number_toString x
  end.

Definition hoursToFixed `{Host} (h : float) : string :=
  toFixed 2 (Math_round (h * 100) / 100).

(** The texts [render] writes for the totals: one under each weekday and
    the weekly one. *)
Definition totals_text `{Host} (entries : list JsVal)
  : outcome (list (string * string) * string) :=
  r <- aggregate entries ;;
  Returns (map (fun dt => (fst dt, hoursToFixed (snd dt))) (fst r),
           hoursToFixed (snd r)).

(** * Vocabulary of the statements about the calculator and the view *)

(** Elapsed minutes as hundredths of an hour, rounded to the nearest. *)
Definition hundredths (elapsedMinutes : Z) : Z := ((10 * elapsedMinutes + 3) / 6)%Z.

(** A number of hundredths, written with two digits after the point. *)
Definition fixed2 (h : Z) : string :=
  Z_toString (h / 100) ++ "." ++ pad2 (Z.to_nat (h mod 100)).

(** The character occurs in the string. *)
Fixpoint occurs (c : ascii) (s : string) : bool :=
  match s with
  | EmptyString => false
  | String d s' => Ascii.eqb d c || occurs c s'
  end.

(** The total [render] writes under one weekday. *)
Definition dayTotal (day : string) (entries : list JsVal) : outcome float :=
  rows <- dayEntries day entries ;; sumHours 0%float rows.

(** The time in and the time out of the entry are strings. *)
Definition timed (e : JsVal) : bool :=
  match field e KtimeIn, field e KtimeOut with
  | VStr _, VStr _ => true
  | _, _ => false
  end.

(** The hours of an entry whose times are strings. *)
Definition hours_of (e : JsVal) : float :=
  match field e KtimeIn, field e KtimeOut with
  | VStr timeIn, VStr timeOut => computeHours timeIn timeOut
  | _, _ => nan
  end.

(** The entry is tagged with one of the seven labels. *)
Definition on_weekday (e : JsVal) : bool := includes DAYS (field e Kday).

(** The employee and the notes of the entry convert to strings. *)
Definition celled (e : JsVal) : bool :=
  stringable (field e Kemployee) && stringable (field e Knotes).

(** An entry [render] gets past: it is neither [undefined] nor [null],
    and when it is tagged with one of the seven labels its times are
    strings and its employee and notes convert to strings. *)
Definition rendered (e : JsVal) : bool :=
  negb (nullish e) && (negb (on_weekday e) || (timed e && celled e)).

(** The text stored for the empty document. *)
Definition empty_text : string := json "{'entries':[]}".

(** * The export

    [JSON.stringify(state, null, 2)]: the text of the exported file. *)

Definition LF : ascii := ascii_of_nat 10.

(** [JSON.stringify(v, null, gap)] for a gap that is not empty, inside a
    value written at the indentation [indent]: the parts of an array or
    object that is not empty stand on lines of their own, indented by one
    gap more, and a space follows the colon of a property. *)
Fixpoint stringify_spaced `{Host} (gap indent : string) (v : JsVal)
  : option string :=
  match v with
  | VUndefined | VFunction => None
  | VNull => Some "null"
  | VBool true => Some "true"
  | VBool false => Some "false"
  | VNum f => Some (if PrimFloat.is_finite f then Number_toString f else "null")
  | VStr s => Some (QuoteJSONString s)
  | VArr elems =>
      let inner := (indent ++ gap)%string in
      let fix each (l : list JsVal) : list string :=
        match l with
        | [] => []
        | x :: rest =>
            match stringify_spaced gap inner x with
            | Some s => s
            | None => "null"
            end :: each rest
        end in
      match each elems with
      | [] => Some "[]"
      | partial =>
          Some ("[" ++ String LF inner
                ++ join ("," ++ String LF inner) partial
                ++ String LF indent ++ "]")%string
      end
  | VObj props =>
      let inner := (indent ++ gap)%string in
      let fix each (l : list (string * JsVal)) : list string :=
        match l with
        | [] => []
        | (k, x) :: rest =>
            match stringify_spaced gap inner x with
            | Some s => (QuoteJSONString k ++ ": " ++ s)%string :: each rest
            | None => each rest
            end
        end in
      match each props with
      | [] => Some "{}"
      | partial =>
          Some ("{" ++ String LF inner
                ++ join ("," ++ String LF inner) partial
                ++ String LF indent ++ "}")%string
      end
  end.

(** The text the export button puts in the file. *)
Definition export_text `{Host} (st : JsVal) : string :=
  match stringify_spaced "  " "" st with
  | Some s => s
  | None => "undefined"
  end.

(** * Vocabulary of the statements about the export *)

(** White space of JSON only. *)
Fixpoint blank (s : string) : bool :=
  match s with
  | EmptyString => true
  | String c s' => is_ws c && blank s'
  end.

Definition text_spaced `{Host} (gap indent : string) (v : JsVal) : string :=
  match stringify_spaced gap indent v with
  | Some s => s
  | None => "null"
  end.

Definition member_spaced `{Host} (gap indent : string) (kv : string * JsVal)
  : string :=
  QuoteJSONString (fst kv) ++ ": " ++ text_spaced gap indent (snd kv).

(** What follows a number in an indented text: nothing, a comma, or the
    end of the line. *)
Definition line_delimited (rest : string) : Prop :=
  match rest with
  | EmptyString => True
  | String c _ => c = ","%char \/ c = LF
  end.

(** The host writes the number as a JSON number, and the parser reads that
    text back as the same number when it stands in an indented text. *)
Definition number_spaced `{Host} (f : float) : Prop :=
  PrimFloat.is_finite f = true
  /\ (exists c t, Number_toString f = String c t
                  /\ (is_digit c || Ascii.eqb c "-") = true)
  /\ forall rest, line_delimited rest ->
       parse_number (Number_toString f ++ rest) = Some (f, rest).

Fixpoint numbers_spaced `{Host} (v : JsVal) : Prop :=
  match v with
  | VNum f => number_spaced f
  | VArr elems =>
      (fix all (l : list JsVal) : Prop :=
         match l with
         | [] => True
         | x :: rest => numbers_spaced x /\ all rest
         end) elems
  | VObj props =>
      (fix all (l : list (string * JsVal)) : Prop :=
         match l with
         | [] => True
         | (_, x) :: rest => numbers_spaced x /\ all rest
         end) props
  | _ => True
  end.

Definition reads_back_spaced `{Host} (v : JsVal) : Prop :=
  shaped v -> numbers_spaced v ->
  forall fuel gap indent rest,
    blank gap = true -> blank indent = true ->
    need v <= fuel -> line_delimited rest ->
    parse_value fuel (text_spaced gap indent v ++ rest) = Some (v, rest).

(** An entry the import passes on as it is: the seven properties in the
    order in which [addEntry] and the import write them, the employee and
    the notes strings, the id and the date present. *)
Definition settled (e : JsVal) : Prop :=
  exists id employee day timeIn timeOut notes createdAt,
    e = VObj [("id", id); ("employee", VStr employee); ("day", day);
              ("timeIn", timeIn); ("timeOut", timeOut); ("notes", VStr notes);
              ("createdAt", createdAt)]
    /\ ToBoolean id = true /\ ToBoolean createdAt = true.

(** * The calculator on well-formed times *)

Lemma forallb_below (f : nat -> bool) (n : nat) :
  forallb f (seq 0 n) = true -> forall k, (k < n)%nat -> f k = true.
Proof.
  intros H k Hk. rewrite forallb_forall in H. apply H, in_seq. lia.
Qed.

Lemma forallb_In {A} (f : A -> bool) (l : list A) :
  forallb f l = true -> forall x, In x l -> f x = true.
Proof. intro H. apply forallb_forall, H. Qed.

Lemma timeInput_checked :
  forallb (fun h => forallb (fun m =>
      PrimFloat.Leibniz.eqb (timeToMinutes (timeInput h m))
                            (Z2float (minutes h m))) (seq 0 60)) (seq 0 24)
  = true.
Proof. vm_compute. reflexivity. Qed.

Lemma timeToMinutes_timeInput (h m : nat) :
  (h < 24)%nat -> (m < 60)%nat ->
  timeToMinutes (timeInput h m) = Z2float (minutes h m).
Proof.
  intros Hh Hm. apply FloatAxioms.Leibniz.eqb_spec.
  exact (forallb_below _ _ (forallb_below _ _ timeInput_checked h Hh) m Hm).
Qed.

Lemma diff_checked :
  forallb (fun i => forallb (fun o =>
      PrimFloat.Leibniz.eqb (diff_of (Z2float i) (Z2float o))
                            (Z2float (elapsed i o))) day_minutes) day_minutes
  = true.
Proof. vm_compute. reflexivity. Qed.

Lemma in_day_minutes (h m : nat) :
  (h < 24)%nat -> (m < 60)%nat -> In (minutes h m) day_minutes.
Proof.
  intros Hh Hm. unfold day_minutes, minutes. apply in_map, in_seq. lia.
Qed.

Lemma diff_of_exact (i o : Z) :
  In i day_minutes -> In o day_minutes ->
  diff_of (Z2float i) (Z2float o) = Z2float (elapsed i o).
Proof.
  intros Hi Ho. apply FloatAxioms.Leibniz.eqb_spec.
  exact (forallb_In _ _ (forallb_In _ _ diff_checked i Hi) o Ho).
Qed.

Lemma computeHours_timeInput (h1 m1 h2 m2 : nat) :
  (h1 < 24)%nat -> (m1 < 60)%nat -> (h2 < 24)%nat -> (m2 < 60)%nat ->
  computeHours (timeInput h1 m1) (timeInput h2 m2)
  = (Z2float (elapsed (minutes h1 m1) (minutes h2 m2)) / 60)%float.
Proof.
  intros H1 H2 H3 H4. unfold computeHours.
  rewrite !timeToMinutes_timeInput by assumption.
  rewrite <- diff_of_exact by (apply in_day_minutes; assumption).
  reflexivity.
Qed.

(** C1. For well-formed times [HH:MM] (hours below 24, minutes below 60, two
    digits each), [computeHours] returns the difference of the two minute
    counts [hour*60+minute], with 1440 added when that difference is
    negative, divided by 60; from 23:00 to 01:00 it returns 2, and between
    equal times it returns 0. *)
Theorem computeHours_spec :
  (forall h1 m1 h2 m2 : nat,
      (h1 < 24)%nat -> (m1 < 60)%nat -> (h2 < 24)%nat -> (m2 < 60)%nat ->
      computeHours (timeInput h1 m1) (timeInput h2 m2)
      = (Z2float (elapsed (minutes h1 m1) (minutes h2 m2)) / 60)%float)
  /\ computeHours "23:00" "01:00" = 2%float
  /\ (forall h m : nat, (h < 24)%nat -> (m < 60)%nat ->
        computeHours (timeInput h m) (timeInput h m) = 0%float).
Proof.
  split; [exact computeHours_timeInput|]. split; [reflexivity|].
  intros h m Hh Hm. rewrite computeHours_timeInput by assumption.
  unfold elapsed. rewrite Z.sub_diag. reflexivity.
Qed.

Lemma computeHours_spec_witness :
  computeHours (timeInput 22 30) (timeInput 6 15)
  = (Z2float 465 / 60)%float
  /\ computeHours (timeInput 9 0) (timeInput 9 0) = 0%float.
Proof.
  split.
  - apply (proj1 computeHours_spec 22 30 6 15)%nat; lia.
  - apply (proj2 (proj2 computeHours_spec) 9 0)%nat; lia.
Defined.

(** * The store: loading *)

(** C5. [loadState] answers the empty document when nothing is stored, when
    the stored text does not parse, and when the parsed value has no array
    under [entries]; it returns on every stored item, whatever [JSON.parse]
    does with it, and never throws.  (A stored value with an array under
    [entries] is returned as parsed.) *)
Theorem loadState_total `{Host} (item : option string) :
  (exists doc, loadState item = Returns doc)
  /\ (item = None -> loadState item = Returns emptyDocument)
  /\ (forall raw, item = Some raw -> JSON_parse raw = None ->
        loadState item = Returns emptyDocument)
  /\ (forall raw parsed, item = Some raw -> JSON_parse raw = Some parsed ->
        (forall l, Get parsed Kentries <> Returns (VArr l)) ->
        loadState item = Returns emptyDocument)
  /\ (forall raw parsed l, item = Some raw -> raw <> "" ->
        JSON_parse raw = Some parsed ->
        Get parsed Kentries = Returns (VArr l) ->
        loadState item = Returns parsed).
Proof.
  unfold loadState, loadState_try.
  repeat split.
  - destruct item as [raw|]; [|eexists; reflexivity].
    destruct (raw =? ""); [eexists; reflexivity|].
    destruct (JSON_parse raw) as [parsed|]; simpl; [|eexists; reflexivity].
    destruct (Get parsed Kentries) as [pe| |] eqn:G; simpl.
    + destruct (negb (ToBoolean pe) || negb (isArray pe)); eexists; reflexivity.
    + eexists; reflexivity.
    + destruct parsed; simpl in G; try destruct k; discriminate.
  - intros ->. reflexivity.
  - intros raw -> Hp. rewrite Hp. destruct (raw =? ""); reflexivity.
  - intros raw parsed -> Hp Hno. rewrite Hp. destruct (raw =? ""); [reflexivity|].
    simpl. destruct (Get parsed Kentries) as [pe| |] eqn:G; simpl; try reflexivity.
    + destruct pe; simpl; rewrite ?orb_true_r; try reflexivity.
      exfalso. eapply Hno. reflexivity.
    + destruct parsed; simpl in G; discriminate.
  - intros raw parsed l -> Hne Hp G. rewrite Hp.
    apply String.eqb_neq in Hne. rewrite Hne. simpl. rewrite G. reflexivity.
Qed.

Lemma loadState_total_witness :
  @loadState sample_host (Some "{") = Returns emptyDocument
  /\ @loadState sample_host (Some funday_text) = Returns funday_document.
Proof.
  split.
  - apply (proj1 (proj2 (proj2 (@loadState_total sample_host (Some "{")))) "{");
      reflexivity.
  - apply (proj2 (proj2 (proj2 (proj2 (@loadState_total sample_host (Some funday_text)))))
             funday_text funday_document [VObj [("day", VStr "Funday")]]);
      try reflexivity.
    intro E. apply String.eqb_eq in E. vm_compute in E. discriminate E.
Defined.

(** * The store: adding *)

(** C6. When the employee name is empty after trimming, or the time in or
    the time out is empty, the submit listener shows an alert and leaves
    [state] and the stored item as they were: no entry is appended. *)
Theorem onSubmit_invalid `{Host} (fields : Form.t) (id createdAt : string)
    (p : Page) :
  trim (Form.employee fields) = ""
  \/ Form.timeIn fields = "" \/ Form.timeOut fields = "" ->
  exists message,
    onSubmit fields id createdAt p
    = (mkPage (state p) (localStorage p) (shown p ++ [Alert message]), Returns tt).
Proof.
  intros Hbad. unfold onSubmit.
  destruct (negb (ToBoolean (VStr (trim (Form.employee fields))))) eqn:He.
  - eexists. reflexivity.
  - destruct Hbad as [Hbad | [Hbad | Hbad]].
    + rewrite Hbad in He. discriminate He.
    + rewrite Hbad. simpl. eexists. reflexivity.
    + rewrite Hbad. simpl. rewrite orb_true_r. eexists. reflexivity.
Qed.

Lemma onSubmit_invalid_witness :
  exists message,
    @onSubmit sample_host (Form.mk "   " "Monday" "09:00" "17:00" "") "k0"
              "2024-01-01T09:00:00.000Z" first_page
    = (mkPage emptyDocument None [Alert message], Returns tt).
Proof.
  apply (@onSubmit_invalid sample_host
           (Form.mk "   " "Monday" "09:00" "17:00" "") "k0"
           "2024-01-01T09:00:00.000Z" first_page).
  left. reflexivity.
Defined.

(** * The store: the entries of a page *)

Lemma has_id_defined (id : string) (e : JsVal) :
  nullish e = false -> has_id id e = Returns (id_is id e).
Proof.
  destruct e; simpl; try discriminate; intros _; try reflexivity.
  unfold has_id. simpl. destruct (own "id" props); reflexivity.
Qed.

Lemma has_other_id_defined (id : string) (e : JsVal) :
  nullish e = false -> has_other_id id e = Returns (negb (id_is id e)).
Proof.
  destruct e; simpl; try discriminate; intros _; try reflexivity.
  unfold has_other_id. simpl. destruct (own "id" props); reflexivity.
Qed.

Lemma filterM_pure {A} (f : A -> outcome bool) (g : A -> bool) (l : list A) :
  Forall (fun x => f x = Returns (g x)) l ->
  filterM f l = Returns (filter g l).
Proof.
  induction 1 as [|x l Hx _ IH]; simpl; [reflexivity|].
  rewrite Hx, IH. simpl. destruct (g x); reflexivity.
Qed.

Lemma findM_pure {A} (f : A -> outcome bool) (g : A -> bool) (l : list A) :
  Forall (fun x => f x = Returns (g x)) l ->
  findM f l = Returns (find g l).
Proof.
  induction 1 as [|x l Hx _ IH]; simpl; [reflexivity|].
  rewrite Hx. simpl. destruct (g x); [reflexivity|exact IH].
Qed.

Lemma filterM_incl {A} (f : A -> outcome bool) (l kept : list A) :
  filterM f l = Returns kept -> incl kept l.
Proof.
  revert kept. induction l as [|x l IH]; simpl; intros kept E.
  - injection E as <-. apply incl_refl.
  - destruct (f x) as [b| |]; simpl in E; try discriminate.
    destruct (filterM f l) as [k| |]; simpl in E; try discriminate.
    injection E as <-. specialize (IH k eq_refl).
    destruct b.
    + apply incl_cons; [now left|]. now apply incl_tl.
    + now apply incl_tl.
Qed.

Lemma own_set_own (k : string) (x : JsVal) (props : list (string * JsVal)) :
  own k (set_own k x props) = Some x.
Proof.
  induction props as [|[k' v] rest IH]; simpl.
  - now rewrite String.eqb_refl.
  - destruct (k' =? k) eqn:E; simpl; rewrite E; [reflexivity|exact IH].
Qed.

Lemma set_own_same (k : string) (x : JsVal) (props : list (string * JsVal)) :
  own k props = Some x -> set_own k x props = props.
Proof.
  induction props as [|[k' v] rest IH]; simpl; [discriminate|].
  destruct (k' =? k); intro E.
  - now injection E as ->.
  - now rewrite IH.
Qed.

Lemma entries_of_inv (st : JsVal) (E : list JsVal) :
  entries_of st = Returns E ->
  exists props, st = VObj props /\ own "entries" props = Some (VArr E).
Proof.
  destruct st; simpl; try discriminate.
  destruct (own "entries" props) as [[]|] eqn:O; try discriminate.
  intro H. injection H as ->. now exists props.
Qed.

Lemma entries_of_set (st : JsVal) (E l : list JsVal) :
  entries_of st = Returns E -> entries_of (set_entries st l) = Returns l.
Proof.
  intro H. apply entries_of_inv in H as (props & -> & _). simpl.
  now rewrite own_set_own.
Qed.

Lemma set_entries_same (st : JsVal) (E : list JsVal) :
  entries_of st = Returns E -> set_entries st E = st.
Proof.
  intro H. apply entries_of_inv in H as (props & -> & O). simpl.
  now rewrite set_own_same.
Qed.

(** What the closing statements [state.entries = ...; saveState();
    render();] leave behind, whether or not [render] returns. *)
Lemma commit_page `{Host} (st' : JsVal) (p : Page) :
  exists out,
    (setState st' ;;; saveState ;;; render) p
    = (mkPage st' (Some (stored_text st')) (shown p), out).
Proof.
  unfold hbind, setState, saveState, render, hbind, getState, setItem, lift,
    hret, stored_text. simpl.
  destruct (entries_of st') as [l| |]; simpl; try (eexists; reflexivity).
  destruct (aggregate l); eexists; reflexivity.
Qed.

Lemma hbind_getState {B} (k : JsVal -> Handler B) (p : Page) :
  hbind getState k p = k (state p) p.
Proof. reflexivity. Qed.

Lemma hbind_returns {A B} (a : A) (k : A -> Handler B) (p : Page) :
  hbind (lift (Returns a)) k p = k a p.
Proof. reflexivity. Qed.

Lemma hbind_throws {A B} (k : A -> Handler B) (p : Page) :
  hbind (lift Throws) k p = (p, Throws).
Proof. reflexivity. Qed.

Lemma hbind_unmodelled {A B} (k : A -> Handler B) (p : Page) :
  hbind (lift Unmodelled) k p = (p, Unmodelled).
Proof. reflexivity. Qed.

Lemma hbind_confirm {B} (message : string) (answer : bool)
    (k : bool -> Handler B) (p : Page) :
  hbind (confirm message answer) k p
  = k answer (mkPage (state p) (localStorage p) (shown p ++ [Confirm message])).
Proof. reflexivity. Qed.

Lemma hbind_prefill {B} (draft : Draft) (k : unit -> Handler B) (p : Page) :
  forallb stringable (draft_values draft) = true ->
  hbind (prefill draft) k p
  = k tt (mkPage (state p) (localStorage p) (shown p ++ [Prefill draft])).
Proof. intro Hall. unfold hbind, prefill. now rewrite Hall. Qed.

Lemma hbind_prefill_throws {B} (draft : Draft) (k : unit -> Handler B)
    (p : Page) :
  forallb stringable (draft_values draft) = false ->
  hbind (prefill draft) k p
  = (mkPage (state p) (localStorage p)
            (shown p ++ [Written (written_of (draft_values draft))]),
     Throws).
Proof. intro Hall. unfold hbind, prefill. now rewrite Hall. Qed.

(** * The store: removing *)

Lemma deleteEntry_run `{Host} (id : string) (p : Page) (E : list JsVal) :
  entries_of (state p) = Returns E ->
  Forall (fun e => nullish e = false) E ->
  exists out,
    deleteEntry id true p
    = (mkPage (set_entries (state p) (filter (other_id id) E))
              (Some (stored_text (set_entries (state p) (filter (other_id id) E))))
              (shown p ++ [Confirm "Delete this entry?"]),
       out).
Proof.
  intros HE Hdef. unfold deleteEntry.
  rewrite hbind_confirm. cbn [negb]. rewrite hbind_getState. cbn [state].
  rewrite HE, hbind_returns.
  rewrite (filterM_pure _ (other_id id)), hbind_returns.
  - apply commit_page.
  - eapply Forall_impl; [|exact Hdef]. intros e He.
    now apply has_other_id_defined.
Qed.

Lemma filter_all {A} (g : A -> bool) (l : list A) :
  (forall x, In x l -> g x = true) -> filter g l = l.
Proof.
  induction l as [|x l IH]; simpl; intro Hall; [reflexivity|].
  rewrite (Hall x (or_introl eq_refl)). f_equal. apply IH.
  intros y Hy. apply Hall. now right.
Qed.

(** C9. On a document whose entries are all defined, [deleteEntry(id)],
    once confirmed, keeps the entries whose id differs from [id], in their
    order: an entry with that id is gone, every other entry stays.  When no
    entry has that id the state is left as it was, and nothing but the
    confirmation is shown: no error is reported. *)
Theorem deleteEntry_spec `{Host} (id : string) (p : Page) (E : list JsVal) :
  entries_of (state p) = Returns E ->
  Forall (fun e => nullish e = false) E ->
  entries_of (state (fst (deleteEntry id true p)))
  = Returns (filter (other_id id) E)
  /\ (forall e, In e E -> id_is id e = true ->
        ~ In e (filter (other_id id) E))
  /\ (forall e, In e E -> id_is id e = false ->
        In e (filter (other_id id) E))
  /\ ((forall e, In e E -> id_is id e = false) ->
        state (fst (deleteEntry id true p)) = state p
        /\ shown (fst (deleteEntry id true p))
           = shown p ++ [Confirm "Delete this entry?"]).
Proof.
  intros HE Hdef.
  destruct (deleteEntry_run id p E HE Hdef) as [out Hrun]. rewrite Hrun.
  cbn [fst state shown]. split; [|split; [|split]].
  - eapply entries_of_set, HE.
  - intros e _ Hid Hin. apply filter_In in Hin as [_ Hin].
    unfold other_id in Hin. rewrite Hid in Hin. discriminate Hin.
  - intros e Hin Hid. apply filter_In. split; [exact Hin|].
    unfold other_id. now rewrite Hid.
  - intros Hnone. split; [|reflexivity]. rewrite filter_all.
    + eapply set_entries_same, HE.
    + intros e Hin. unfold other_id. now rewrite Hnone.
Qed.

Lemma twice_page_entries :
  entries_of (state twice_page)
  = Returns [ann_saved; bob_saved; ann_saved; bob_saved].
Proof. vm_compute. reflexivity. Qed.

Lemma deleteEntry_spec_witness :
  entries_of (state (fst (@deleteEntry sample_host "a1" true twice_page)))
  = Returns (filter (other_id "a1") [ann_saved; bob_saved; ann_saved; bob_saved]).
Proof.
  apply (@deleteEntry_spec sample_host "a1" twice_page
           [ann_saved; bob_saved; ann_saved; bob_saved]).
  - vm_compute. reflexivity.
  - repeat constructor.
Defined.

(** C10. [deleteEntry(id)], once confirmed, retains exactly the entries
    whose id differs from [id]: however many entries share that id (as they
    do after the same file is imported twice), none of them remains, and
    the document shrinks by their number. *)
Theorem deleteEntry_removes_every_match `{Host} (id : string) (p : Page)
    (E : list JsVal) :
  entries_of (state p) = Returns E ->
  Forall (fun e => nullish e = false) E ->
  exists kept,
    entries_of (state (fst (deleteEntry id true p))) = Returns kept
    /\ kept = filter (other_id id) E
    /\ (forall e, In e kept <-> In e E /\ id_is id e = false)
    /\ List.length kept + List.length (filter (id_is id) E) = List.length E.
Proof.
  intros HE Hdef. exists (filter (other_id id) E).
  destruct (deleteEntry_run id p E HE Hdef) as [out Hrun]. rewrite Hrun.
  cbn [fst state]. split; [|split; [|split]].
  - eapply entries_of_set, HE.
  - reflexivity.
  - intro e. rewrite filter_In. unfold other_id.
    destruct (id_is id e); simpl; intuition congruence.
  - unfold other_id. rewrite Nat.add_comm. apply filter_length.
Qed.

Lemma deleteEntry_removes_every_match_witness :
  exists kept,
    entries_of (state (fst (@deleteEntry sample_host "a1" true twice_page)))
    = Returns kept
    /\ kept = [bob_saved; bob_saved]
    /\ (forall e, In e kept <->
          In e [ann_saved; bob_saved; ann_saved; bob_saved] /\ id_is "a1" e = false)
    /\ List.length kept
       + List.length (filter (id_is "a1") [ann_saved; bob_saved; ann_saved; bob_saved])
       = 4%nat.
Proof.
  apply (@deleteEntry_removes_every_match sample_host "a1" twice_page
           [ann_saved; bob_saved; ann_saved; bob_saved]).
  - vm_compute. reflexivity.
  - repeat constructor.
Defined.

(** * The store: editing *)

Lemma Get_field (e : JsVal) (k : Key) :
  nullish e = false -> Get e k = Returns (field e k).
Proof.
  destruct e; simpl; try discriminate; intros _; unfold field; reflexivity.
Qed.

Lemma editEntry_found `{Host} (id : string) (p : Page) (E : list JsVal)
    (e : JsVal) :
  entries_of (state p) = Returns E ->
  Forall (fun e => nullish e = false) E ->
  find (id_is id) E = Some e ->
  forallb stringable (draft_values (draft_of e)) = true ->
  exists out,
    editEntry id p
    = (mkPage (set_entries (state p) (filter (other_id id) E))
              (Some (stored_text (set_entries (state p) (filter (other_id id) E))))
              (shown p ++ [Prefill (draft_of e)]),
       out).
Proof.
  intros HE Hdef Hfind Hstr. unfold editEntry.
  rewrite hbind_getState, HE, hbind_returns.
  rewrite (findM_pure _ (id_is id)), hbind_returns, Hfind.
  2:{ eapply Forall_impl; [|exact Hdef]. intros x Hx. now apply has_id_defined. }
  assert (He : nullish e = false).
  { apply find_some in Hfind as [Hin _].
    rewrite Forall_forall in Hdef. now apply Hdef. }
  rewrite !(Get_field e) by exact He.
  rewrite !hbind_returns.
  fold (draft_of e). rewrite (hbind_prefill _ _ _ Hstr).
  rewrite (filterM_pure _ (other_id id)), hbind_returns.
  - apply (commit_page _ (mkPage (state p) (localStorage p)
                                  (shown p ++ [Prefill (draft_of e)]))).
  - eapply Forall_impl; [|exact Hdef]. intros x Hx.
    now apply has_other_id_defined.
Qed.

Lemma editEntry_missing `{Host} (id : string) (p : Page) (E : list JsVal) :
  entries_of (state p) = Returns E ->
  Forall (fun e => nullish e = false) E ->
  find (id_is id) E = None ->
  editEntry id p = (p, Returns tt).
Proof.
  intros HE Hdef Hfind. unfold editEntry.
  rewrite hbind_getState, HE, hbind_returns.
  rewrite (findM_pure _ (id_is id)), hbind_returns, Hfind.
  - reflexivity.
  - eapply Forall_impl; [|exact Hdef]. intros x Hx. now apply has_id_defined.
Qed.

Lemma editEntry_throws `{Host} (id : string) (p : Page) (E : list JsVal)
    (e : JsVal) :
  entries_of (state p) = Returns E ->
  Forall (fun e => nullish e = false) E ->
  find (id_is id) E = Some e ->
  forallb stringable (draft_values (draft_of e)) = false ->
  editEntry id p
  = (mkPage (state p) (localStorage p)
            (shown p ++ [Written (written_of (draft_values (draft_of e)))]),
     Throws).
Proof.
  intros HE Hdef Hfind Hstr. unfold editEntry.
  rewrite hbind_getState, HE, hbind_returns.
  rewrite (findM_pure _ (id_is id)), hbind_returns, Hfind.
  2:{ eapply Forall_impl; [|exact Hdef]. intros x Hx. now apply has_id_defined. }
  assert (He : nullish e = false).
  { apply find_some in Hfind as [Hin _].
    rewrite Forall_forall in Hdef. now apply Hdef. }
  rewrite !(Get_field e) by exact He.
  rewrite !hbind_returns.
  fold (draft_of e). now rewrite (hbind_prefill_throws _ _ _ Hstr).
Qed.

(** C8, as the script has it.  On a document whose entries are all
    defined, let [e] be the first entry with the given id.  When the five
    values [editEntry(id)] writes into the form (the employee, day, time in
    and time out of [e], and its notes or the empty string) all convert to
    strings, [editEntry(id)] at once leaves the document without any entry
    of that id ([e] is gone before anything is resubmitted) and the form
    holds these five values (the notes as they are when they are a string).
    When one of them does not convert, [editEntry(id)] throws at that
    assignment: the values before it are in the form, and the state and the
    stored item are as they were, [e] included.  When no entry has that id,
    [editEntry(id)] returns with the page unchanged and writes no draft. *)
Theorem editEntry_spec `{Host} (id : string) (p : Page) (E : list JsVal) :
  entries_of (state p) = Returns E ->
  Forall (fun e => nullish e = false) E ->
  (forall e, find (id_is id) E = Some e ->
     (forallb stringable (draft_values (draft_of e)) = true ->
      entries_of (state (fst (editEntry id p))) = Returns (filter (other_id id) E)
      /\ ~ In e (filter (other_id id) E)
      /\ shown (fst (editEntry id p))
         = shown p ++ [Prefill (mkDraft (field e Kemployee) (field e Kday)
                                        (field e KtimeIn) (field e KtimeOut)
                                        (or_else (field e Knotes) (VStr "")))]
      /\ (forall s, field e Knotes = VStr s ->
            or_else (field e Knotes) (VStr "") = VStr s))
     /\ (forallb stringable (draft_values (draft_of e)) = false ->
         editEntry id p
         = (mkPage (state p) (localStorage p)
                   (shown p ++ [Written (written_of (draft_values (draft_of e)))]),
            Throws)))
  /\ (find (id_is id) E = None -> editEntry id p = (p, Returns tt)).
Proof.
  intros HE Hdef. split.
  - intros e Hfind. split.
    + intro Hstr.
      destruct (editEntry_found id p E e HE Hdef Hfind Hstr) as [out Hrun].
      rewrite Hrun. cbn [fst state shown]. split; [|split; [|split]].
      * eapply entries_of_set, HE.
      * intro Hin. apply filter_In in Hin as [_ Hin].
        apply find_some in Hfind as [_ Hid].
        unfold other_id in Hin. rewrite Hid in Hin. discriminate Hin.
      * reflexivity.
      * intros s ->. unfold or_else. simpl.
        destruct s; reflexivity.
    + exact (editEntry_throws id p E e HE Hdef Hfind).
  - apply editEntry_missing; assumption.
Qed.

Lemma editEntry_spec_witness :
  (entries_of (state (fst (@editEntry sample_host "a1" twice_page)))
   = Returns [bob_saved; bob_saved]
   /\ shown (fst (@editEntry sample_host "a1" twice_page))
      = shown twice_page
        ++ [Prefill (mkDraft (VStr "Ann") (VStr "Monday") (VStr "09:00")
                             (VStr "17:00") (VStr "desk"))])
  /\ @editEntry sample_host "x1" boxed_time_page
     = (mkPage (state boxed_time_page) (localStorage boxed_time_page)
               (shown boxed_time_page ++ [Written [VStr "Ann"; VStr "Monday"]]),
        Throws)
  /\ @editEntry sample_host "zz" twice_page = (twice_page, Returns tt).
Proof.
  assert (HE : entries_of (state twice_page)
               = Returns [ann_saved; bob_saved; ann_saved; bob_saved])
    by (vm_compute; reflexivity).
  assert (Hdef : Forall (fun e => nullish e = false)
                        [ann_saved; bob_saved; ann_saved; bob_saved])
    by (repeat constructor).
  split; [|split].
  - destruct (proj1 (proj1 (@editEntry_spec sample_host "a1" twice_page _ HE Hdef)
                       ann_saved eq_refl) eq_refl) as (H1 & _ & H3 & _).
    split; [exact H1|exact H3].
  - assert (Hdef' : Forall (fun e => nullish e = false) [boxed_time_entry])
      by (repeat constructor).
    exact (proj2 (proj1 (@editEntry_spec sample_host "x1" boxed_time_page
                           [boxed_time_entry] eq_refl Hdef')
                    boxed_time_entry eq_refl) eq_refl).
  - exact (proj2 (@editEntry_spec sample_host "zz" twice_page _ HE Hdef) eq_refl).
Defined.

(** C8 fails as stated.  The import keeps a candidate whose time in is the
    object [{toString: null}], which is truthy.  On the page it leaves,
    [editEntry] finds the entry, writes the employee and the day into the
    form, and throws when it assigns the time in, before the removal: the
    entry is still in the document, and nothing new is stored. *)
Lemma editEntry_keeps_the_entry :
  @reachable sample_host weekday_form boxed_time_page
  /\ entries_of (state boxed_time_page) = Returns [boxed_time_entry]
  /\ find (id_is "x1") [boxed_time_entry] = Some boxed_time_entry
  /\ snd (@editEntry sample_host "x1" boxed_time_page) = Throws
  /\ entries_of (state (fst (@editEntry sample_host "x1" boxed_time_page)))
     = Returns [boxed_time_entry]
  /\ localStorage (fst (@editEntry sample_host "x1" boxed_time_page))
     = localStorage boxed_time_page
  /\ entries_of (state (fst (@editEntry sample_host "x1" boxed_time_page)))
     <> Returns (filter (other_id "x1") [boxed_time_entry]).
Proof.
  split; [eapply reachable_step; [apply reachable_first|apply step_import]|].
  repeat split; try (vm_compute; reflexivity).
  vm_compute. intro E. discriminate E.
Qed.

(** * The store: importing *)

Lemma importable_spec (x : JsVal) : importable x = Returns (valid_candidate x).
Proof.
  unfold importable, valid_candidate.
  destruct (ToBoolean x) eqn:Hx; [|reflexivity]. cbn [negb andb].
  assert (Hn : nullish x = false) by (destruct x; try reflexivity; discriminate).
  rewrite !(Get_field x) by exact Hn. cbn [bind].
  destruct (includes DAYS (field x Kday)); [|reflexivity]. cbn [negb andb].
  destruct (ToBoolean (field x Kemployee)); [|reflexivity]. cbn [negb andb].
  destruct (ToBoolean (field x KtimeIn)); reflexivity.
Qed.

Lemma cleaned_of_spec `{Host} (uid now : nat -> string) (candidates : list JsVal) :
  cleaned_of uid now candidates
  = mapM_from (sanitize uid now) 0 (filter valid_candidate candidates).
Proof.
  unfold cleaned_of. rewrite (filterM_pure _ valid_candidate); [reflexivity|].
  apply Forall_forall. intros x _. apply importable_spec.
Qed.

Lemma mapM_from_Forall2 {A B} (f : nat -> A -> outcome B) (l : list A) :
  forall (i : nat) (ys : list B),
    mapM_from f i l = Returns ys ->
    Forall2 (fun x y => exists j, f j x = Returns y) l ys.
Proof.
  induction l as [|x l IH]; simpl; intros i ys E.
  - injection E as <-. constructor.
  - destruct (f i x) as [y| |] eqn:Fx; simpl in E; try discriminate.
    destruct (mapM_from f (S i) l) as [ys'| |] eqn:M; simpl in E; try discriminate.
    injection E as <-. constructor; [now exists i|]. eapply IH, M.
Qed.


Lemma Forall2_right {A B} (R : A -> B -> Prop) (l : list A) (l' : list B) :
  Forall2 R l l' -> Forall (fun y => exists x, In x l /\ R x y) l'.
Proof.
  induction 1 as [|x y l l' Hxy _ IH]; constructor.
  - exists x. split; [now left|exact Hxy].
  - eapply Forall_impl; [|exact IH]. intros b (a & Ha & Hab).
    exists a. split; [now right|exact Hab].
Qed.

(** The four ways the listener ends once the file parses to a value with an
    array under [entries]. *)
Lemma onImport_run `{Host} (text : string) (parsed : JsVal)
    (candidates : list JsVal) (ok : bool) (uid now : nat -> string)
    (p : Page) (E : list JsVal) :
  JSON_parse text = Some parsed ->
  Get parsed Kentries = Returns (VArr candidates) ->
  entries_of (state p) = Returns E ->
  match cleaned_of uid now candidates with
  | Returns cleaned =>
      if ok
      then exists rest out,
          onImport (Some text) ok uid now p
          = (mkPage (set_entries (state p) (E ++ cleaned))
                    (Some (stored_text (set_entries (state p) (E ++ cleaned))))
                    (shown p ++ Confirm (import_prompt (List.length cleaned)) :: rest),
             out)
      else onImport (Some text) ok uid now p
           = (mkPage (state p) (localStorage p)
                     (shown p ++ [Confirm (import_prompt (List.length cleaned))]),
              Returns tt)
  | Throws =>
      onImport (Some text) ok uid now p
      = (mkPage (state p) (localStorage p)
                (shown p ++ [Alert "Import failed. Make sure it's a valid JSON file."]),
         Returns tt)
  | Unmodelled => onImport (Some text) ok uid now p = (p, Unmodelled)
  end.
Proof.
  intros Hparse Hget HE. unfold onImport, htry.
  rewrite Hparse, hbind_returns, Hget, hbind_returns.
  cbn [ToBoolean isArray negb orb elements].
  destruct (cleaned_of uid now candidates) as [cleaned| |].
  - rewrite hbind_returns, hbind_confirm. destruct ok; cbn [negb].
    + rewrite hbind_getState. cbn [state]. rewrite HE, hbind_returns.
      destruct (commit_page (set_entries (state p) (E ++ cleaned))
                  (mkPage (state p) (localStorage p)
                     (shown p ++ [Confirm (import_prompt (List.length cleaned))])))
        as [out Hout].
      rewrite Hout. cbn [shown]. destruct out.
      * exists [], (Returns a). reflexivity.
      * eexists [_], _. unfold alert. cbn [state localStorage shown].
        rewrite <- app_assoc. reflexivity.
      * exists [], Unmodelled. reflexivity.
    + reflexivity.
  - reflexivity.
  - reflexivity.
Qed.



(** * The view: totals *)

Lemma dayEntries_spec (day : string) (entries : list JsVal) :
  dayEntries day entries
  = if existsb nullish entries then Throws
    else Returns (filter (day_is day) entries).
Proof.
  unfold dayEntries. induction entries as [|e l IH]; [reflexivity|].
  cbn [filterM existsb filter]. destruct (nullish e) eqn:Hn.
  - destruct e; try discriminate; reflexivity.
  - rewrite (Get_field e Kday Hn). cbn [bind orb]. rewrite IH.
    destruct (existsb nullish l); [reflexivity|]. cbn [bind].
    unfold day_is. destruct (is_string day (field e Kday)); reflexivity.
Qed.

Lemma existsb_Permutation {A} (f : A -> bool) (l l' : list A) :
  Permutation l l' -> existsb f l = existsb f l'.
Proof.
  induction 1 as [|x l l' _ IH|x y l|l l' l'' _ IH1 _ IH2]; simpl.
  - reflexivity.
  - now rewrite IH.
  - destruct (f x), (f y); reflexivity.
  - congruence.
Qed.

Lemma filter_Permutation {A} (f : A -> bool) (l l' : list A) :
  Permutation l l' -> Permutation (filter f l) (filter f l').
Proof.
  induction 1 as [|x l l' _ IH|x y l|l l' l'' _ IH1 _ IH2]; simpl.
  - constructor.
  - destruct (f x); [now constructor|exact IH].
  - destruct (f x), (f y); try reflexivity. constructor.
  - now transitivity (filter f l').
Qed.

Lemma sumDays_ext (days : list string) (entries entries' : list JsVal) :
  (forall day, In day days -> dayEntries day entries = dayEntries day entries') ->
  forall perDay weekly,
    sumDays days entries perDay weekly = sumDays days entries' perDay weekly.
Proof.
  induction days as [|day rest IH]; intros Hsame perDay weekly; [reflexivity|].
  cbn [sumDays]. rewrite (Hsame day (or_introl eq_refl)).
  destruct (dayEntries day entries') as [rows| |]; cbn [bind]; try reflexivity.
  destruct (sumHours 0 rows) as [dayTotal| |]; cbn [bind]; try reflexivity.
  apply IH. intros d Hd. apply Hsame. now right.
Qed.

(** C4, as the script has it.  The totals depend on each weekday's rows in
    their order: two entry lists whose rows agree day by day have the same
    per-day totals and the same weekly total.  A permutation of the entries
    permutes the rows of each weekday (and changes nothing to whether
    [render] throws on an entry that is [null]); the binary64 sums over the
    permuted rows may differ. *)
Theorem aggregate_rows (entries entries' : list JsVal) :
  ((forall day, In day DAYS -> dayEntries day entries = dayEntries day entries') ->
   aggregate entries = aggregate entries')
  /\ (Permutation entries entries' ->
      forall day, same_rows (dayEntries day entries) (dayEntries day entries')).
Proof.
  split.
  - intro Hsame. unfold aggregate. now apply sumDays_ext.
  - intros Hperm day. rewrite !dayEntries_spec.
    rewrite (existsb_Permutation nullish _ _ Hperm).
    destruct (existsb nullish entries'); simpl; [exact I|].
    now apply filter_Permutation.
Qed.

Lemma aggregate_rows_witness :
  aggregate [monday_shift "09:06"; bob_saved; monday_shift "09:12"]
  = aggregate [bob_saved; monday_shift "09:06"; monday_shift "09:12"].
Proof.
  apply (proj1 (aggregate_rows
                  [monday_shift "09:06"; bob_saved; monday_shift "09:12"]
                  [bob_saved; monday_shift "09:06"; monday_shift "09:12"])).
  intros day Hday. simpl in Hday.
  repeat (destruct Hday as [<-|Hday]; [reflexivity|]). destruct Hday.
Defined.

(** C4 fails as stated: the three Monday shifts of 6, 12 and 18 minutes
    total 0.6000000000000001 hours in one order and 0.6 hours in the
    reverse order. *)
Lemma aggregate_depends_on_order :
  Permutation short_shifts (rev short_shifts)
  /\ aggregate short_shifts
     = Returns ([("Monday", 0x1.3333333333334p-1%float); ("Tuesday", 0%float);
                 ("Wednesday", 0%float); ("Thursday", 0%float);
                 ("Friday", 0%float); ("Saturday", 0%float);
                 ("Sunday", 0%float)], 0x1.3333333333334p-1%float)
  /\ aggregate (rev short_shifts)
     = Returns ([("Monday", 0x1.3333333333333p-1%float); ("Tuesday", 0%float);
                 ("Wednesday", 0%float); ("Thursday", 0%float);
                 ("Friday", 0%float); ("Saturday", 0%float);
                 ("Sunday", 0%float)], 0x1.3333333333333p-1%float)
  /\ aggregate short_shifts <> aggregate (rev short_shifts).
Proof.
  split; [apply Permutation_rev|].
  split; [vm_compute; reflexivity|].
  split; [vm_compute; reflexivity|].
  vm_compute. intro E. discriminate E.
Qed.

(** * Pages the handlers can reach *)

Lemma onSubmit_state `{Host} (fields : Form.t) (id createdAt : string)
    (p : Page) (E : list JsVal) :
  entries_of (state p) = Returns E ->
  state (fst (onSubmit fields id createdAt p)) = state p
  \/ (state (fst (onSubmit fields id createdAt p))
      = set_entries (state p) (E ++ [new_entry fields id createdAt])
      /\ trim (Form.employee fields) <> ""
      /\ Form.timeIn fields <> "" /\ Form.timeOut fields <> "").
Proof.
  intro HE. unfold onSubmit. cbn [ToBoolean].
  destruct (trim (Form.employee fields) =? "") eqn:He; [left; reflexivity|].
  destruct (Form.timeIn fields =? "") eqn:Hi; [left; reflexivity|].
  destruct (Form.timeOut fields =? "") eqn:Ho; [left; reflexivity|].
  cbn [negb orb]. right. unfold addEntry.
  rewrite hbind_getState, HE, hbind_returns.
  destruct (commit_page (set_entries (state p) (E ++ [new_entry fields id createdAt])) p)
    as [out Hout].
  unfold new_entry in Hout. rewrite Hout. cbn [fst state].
  apply String.eqb_neq in He, Hi, Ho. auto.
Qed.

Lemma deleteEntry_state `{Host} (id : string) (ok : bool) (p : Page)
    (E : list JsVal) :
  entries_of (state p) = Returns E ->
  state (fst (deleteEntry id ok p)) = state p
  \/ exists kept, incl kept E
       /\ state (fst (deleteEntry id ok p)) = set_entries (state p) kept.
Proof.
  intro HE. unfold deleteEntry. rewrite hbind_confirm.
  destruct ok; cbn [negb]; [|left; reflexivity].
  rewrite hbind_getState. cbn [state]. rewrite HE, hbind_returns.
  destruct (filterM (has_other_id id) E) as [kept| |] eqn:Hf;
    [|left; reflexivity|left; reflexivity].
  rewrite hbind_returns. right. exists kept.
  split; [eapply filterM_incl, Hf|].
  destruct (commit_page (set_entries (state p) kept)
              (mkPage (state p) (localStorage p)
                      (shown p ++ [Confirm "Delete this entry?"])))
    as [out Hout].
  cbn [state] in Hout. rewrite Hout. reflexivity.
Qed.

Lemma findM_some {A} (f : A -> outcome bool) (l : list A) (x : A) :
  findM f l = Returns (Some x) -> In x l /\ f x = Returns true.
Proof.
  induction l as [|y l IH]; simpl; [discriminate|].
  destruct (f y) as [[]| |] eqn:Fy; simpl; try discriminate.
  - intro E. injection E as <-. split; [now left|exact Fy].
  - intro E. destruct (IH E). split; [now right|assumption].
Qed.

Lemma editEntry_state `{Host} (id : string) (p : Page) (E : list JsVal) :
  entries_of (state p) = Returns E ->
  state (fst (editEntry id p)) = state p
  \/ exists kept, incl kept E
       /\ state (fst (editEntry id p)) = set_entries (state p) kept.
Proof.
  intro HE. unfold editEntry.
  rewrite hbind_getState, HE, hbind_returns.
  destruct (findM (has_id id) E) as [[entry|]| |] eqn:Hfind;
    [|left; reflexivity|left; reflexivity|left; reflexivity].
  rewrite hbind_returns.
  apply findM_some in Hfind as [_ Hid].
  assert (Hn : nullish entry = false).
  { destruct entry; try reflexivity; discriminate Hid. }
  rewrite !(Get_field entry) by exact Hn.
  rewrite !hbind_returns. fold (draft_of entry).
  destruct (forallb stringable (draft_values (draft_of entry))) eqn:Hstr;
    [|rewrite (hbind_prefill_throws _ _ _ Hstr); left; reflexivity].
  rewrite (hbind_prefill _ _ _ Hstr).
  destruct (filterM (has_other_id id) E) as [kept| |] eqn:Hf;
    [|left; reflexivity|left; reflexivity].
  rewrite hbind_returns. right. exists kept.
  split; [eapply filterM_incl, Hf|].
  destruct (commit_page (set_entries (state p) kept)
              (mkPage (state p) (localStorage p)
                      (shown p ++ [Prefill (draft_of entry)])))
    as [out Hout].
  cbn [state] in Hout. rewrite Hout. reflexivity.
Qed.

Lemma onClear_state `{Host} (ok : bool) (p : Page) :
  state (fst (onClear ok p)) = state p
  \/ state (fst (onClear ok p)) = emptyDocument.
Proof.
  unfold onClear. rewrite hbind_confirm.
  destruct ok; cbn [negb]; [|left; reflexivity].
  right.
  destruct (commit_page emptyDocument
              (mkPage (state p) (localStorage p)
                 (shown p ++ [Confirm "This will delete ALL saved entries from this device. Continue?"])))
    as [out Hout].
  rewrite Hout. reflexivity.
Qed.

Lemma onImport_state `{Host} (file : option string) (ok : bool)
    (uid now : nat -> string) (p : Page) (E : list JsVal) :
  entries_of (state p) = Returns E ->
  state (fst (onImport file ok uid now p)) = state p
  \/ exists text parsed candidates cleaned,
       JSON_parse text = Some parsed
       /\ field parsed Kentries = VArr candidates
       /\ cleaned_of uid now candidates = Returns cleaned
       /\ state (fst (onImport file ok uid now p))
          = set_entries (state p) (E ++ cleaned).
Proof.
  intro HE. destruct file as [text|]; [|left; reflexivity].
  destruct (JSON_parse text) as [parsed|] eqn:Hparse.
  2:{ left. unfold onImport, htry. rewrite Hparse. reflexivity. }
  destruct (Get parsed Kentries) as [pe| |] eqn:Hget.
  2,3: left; unfold onImport, htry; rewrite Hparse, hbind_returns, Hget;
       reflexivity.
  destruct (isArray pe) eqn:Harr.
  - destruct pe; try discriminate Harr.
    pose proof (onImport_run text parsed elems ok uid now p E Hparse Hget HE)
      as Hrun.
    destruct (cleaned_of uid now elems) as [cleaned| |] eqn:Hc.
    + destruct ok.
      * destruct Hrun as (rest & out & ->). right.
        exists text, parsed, elems, cleaned.
        split; [exact Hparse|]. split; [unfold field; now rewrite Hget|].
        split; [exact Hc|reflexivity].
      * rewrite Hrun. left. reflexivity.
    + rewrite Hrun. left. reflexivity.
    + rewrite Hrun. left. reflexivity.
  - left. unfold onImport, htry. rewrite Hparse, hbind_returns, Hget, hbind_returns.
    rewrite Harr. cbn [negb]. rewrite orb_true_r. reflexivity.
Qed.

Lemma includes_In (a : list string) (v : JsVal) :
  includes a v = true <-> exists d, v = VStr d /\ In d a.
Proof.
  unfold includes. rewrite existsb_exists. split.
  - intros (d & Hin & Hd). destruct v; try discriminate Hd.
    simpl in Hd. apply String.eqb_eq in Hd. subst. now exists d.
  - intros (d & -> & Hin). exists d. split; [exact Hin|].
    simpl. apply String.eqb_refl.
Qed.

Lemma new_entry_ok (fields : Form.t) (id createdAt : string) :
  weekday_form fields ->
  Form.timeIn fields <> "" -> Form.timeOut fields <> "" ->
  entry_ok (new_entry fields id createdAt).
Proof.
  intros Hday Hi Ho. unfold entry_ok, new_entry, field. cbn.
  apply String.eqb_neq in Hi, Ho. rewrite Hi, Ho.
  repeat split; eauto.
Qed.

Lemma sanitize_ok `{Host} (uid now : nat -> string) (i : nat) (x a : JsVal) :
  valid_candidate x = true ->
  sanitize uid now i x = Returns a ->
  entry_ok a.
Proof.
  unfold valid_candidate. intros Hv Hs.
  apply andb_prop in Hv as [Hv Hto]. apply andb_prop in Hv as [Hv Hti].
  apply andb_prop in Hv as [Hv _]. apply andb_prop in Hv as [Hx Hd].
  assert (Hn : nullish x = false) by (destruct x; try reflexivity; discriminate).
  unfold sanitize in Hs. rewrite !(Get_field x) in Hs by exact Hn.
  cbn [bind] in Hs.
  destruct (ToString (field x Kemployee)) as [employee| |]; try discriminate Hs.
  cbn [bind] in Hs.
  destruct (if ToBoolean (field x Knotes) then ToString (field x Knotes)
            else Returns "") as [notes| |]; try discriminate Hs.
  cbn [bind] in Hs. injection Hs as <-.
  unfold entry_ok, field. cbn.
  apply includes_In in Hd. repeat split; eauto.
Qed.

Lemma set_entries_document (E l : list JsVal) :
  set_entries (VObj [("entries", VArr E)]) l = VObj [("entries", VArr l)].
Proof. reflexivity. Qed.

(** Every reachable page holds a document with no property but [entries],
    and each of its entries was pushed by [addEntry] or made by the import
    from a candidate of a parsed file. *)
Lemma reachable_entries `{Host} (allowed : Form.t -> Prop)
    (P Q : JsVal -> Prop) :
  (forall fields id createdAt,
      allowed fields -> Form.timeIn fields <> "" -> Form.timeOut fields <> "" ->
      P (new_entry fields id createdAt)) ->
  (forall text parsed, JSON_parse text = Some parsed -> Q parsed) ->
  (forall parsed uid now i x a,
      Q parsed -> In x (elements (field parsed Kentries)) ->
      valid_candidate x = true -> sanitize uid now i x = Returns a -> P a) ->
  forall p, reachable allowed p ->
  exists E, state p = VObj [("entries", VArr E)] /\ Forall P E.
Proof.
  intros Hadd Hparsed Himport p Hreach.
  induction Hreach as [|p p' _ (E & Hst & HP) Hstep].
  - exists []. split; [reflexivity|constructor].
  - assert (HE : entries_of (state p) = Returns E) by now rewrite Hst.
    destruct Hstep as [fields id createdAt p Hallowed|id ok p|id p|ok p
                      |file ok uid now p].
    + destruct (onSubmit_state fields id createdAt p E HE)
        as [->|(-> & _ & Hi & Ho)]; [now exists E|].
      exists (E ++ [new_entry fields id createdAt]).
      split; [now rewrite Hst|].
      apply Forall_app. split; [exact HP|]. constructor; [|constructor].
      now apply Hadd.
    + destruct (deleteEntry_state id ok p E HE) as [->|(kept & Hincl & ->)];
        [now exists E|].
      exists kept. split; [now rewrite Hst|].
      rewrite Forall_forall in *. auto.
    + destruct (editEntry_state id p E HE) as [->|(kept & Hincl & ->)];
        [now exists E|].
      exists kept. split; [now rewrite Hst|].
      rewrite Forall_forall in *. auto.
    + destruct (onClear_state ok p) as [->| ->]; [now exists E|].
      exists []. split; [reflexivity|constructor].
    + destruct (onImport_state file ok uid now p E HE)
        as [->|(text & parsed & candidates & cleaned & Hp & Hf & Hc & ->)];
        [now exists E|].
      exists (E ++ cleaned). split; [now rewrite Hst|].
      apply Forall_app. split; [exact HP|].
      rewrite cleaned_of_spec in Hc.
      apply mapM_from_Forall2, Forall2_right in Hc.
      eapply Forall_impl; [|exact Hc].
      intros a (x & Hin & j & Hx). apply filter_In in Hin as [Hin Hv].
      eapply (Himport parsed); [eapply Hparsed, Hp| |exact Hv|exact Hx].
      rewrite Hf. exact Hin.
Qed.

(** C7, as the script has it.  On a page reached from a first visit by
    submitting the form (with a weekday chosen in it), importing, deleting,
    editing and clearing, the state holds a document, and each of its
    entries has a string for employee, one of the seven labels for day, and
    a time in and a time out that are present (truthy). *)
Theorem reachable_entries_ok `{Host} (p : Page) :
  reachable weekday_form p ->
  exists E, entries_of (state p) = Returns E /\ Forall entry_ok E.
Proof.
  intro Hreach.
  destruct (reachable_entries weekday_form entry_ok (fun _ => True)) with (p := p)
    as (E & Hst & HE); try assumption.
  - intros fields id createdAt Hday Hi Ho. now apply new_entry_ok.
  - intros. exact I.
  - intros parsed uid now i x a _ _. apply sanitize_ok.
  - exists E. split; [now rewrite Hst|exact HE].
Qed.

Lemma twice_page_reachable (allowed : Form.t -> Prop) :
  @reachable sample_host allowed twice_page.
Proof.
  unfold twice_page.
  eapply reachable_step; [eapply reachable_step; [apply reachable_first|]|];
    apply step_import.
Qed.

Lemma reachable_entries_ok_witness :
  exists E, entries_of (state twice_page) = Returns E /\ Forall entry_ok E.
Proof.
  apply (@reachable_entries_ok sample_host twice_page).
  apply twice_page_reachable.
Defined.

(** C7 fails as stated.  [loadState] returns a stored document as parsed:
    an entry tagged "Funday", with no employee and no times, is in the
    state after loading.  The import keeps a candidate whose employee is
    an empty array and whose times are not strings: its entry has the empty
    string for employee. *)
Lemma stored_entries_not_as_specified :
  (entries_of (state (fst (@boot sample_host (Some funday_text))))
   = Returns [VObj [("day", VStr "Funday")]]
   /\ ~ entry_as_specified (VObj [("day", VStr "Funday")]))
  /\ (entries_of (state (fst (@onImport sample_host (Some sloppy_text) true
                                sample_uid sample_now first_page)))
      = Returns [sloppy_saved]
      /\ ~ entry_as_specified sloppy_saved).
Proof.
  split; split.
  - vm_compute. reflexivity.
  - intros (_ & _ & _ & d & Hd & Hin). injection Hd as <-.
    simpl in Hin. repeat (destruct Hin as [Hin|Hin]; [discriminate Hin|]).
    exact Hin.
  - vm_compute. reflexivity.
  - intros ((s & Hs & Hne) & _). injection Hs as <-. now apply Hne.
Qed.

(** * Reading back what [JSON.stringify] writes *)

Lemma append_assoc (a b c : string) : ((a ++ b) ++ c)%string = (a ++ (b ++ c))%string.
Proof. induction a as [|x a IH]; simpl; [reflexivity|now rewrite IH]. Qed.

Lemma length_append (a b : string) :
  String.length (a ++ b) = (String.length a + String.length b)%nat.
Proof. induction a as [|x a IH]; simpl; [reflexivity|now rewrite IH]. Qed.

Lemma parse_chars_quote_unit (c : ascii) (r : string) :
  parse_chars (quote_unit c ++ r)
  = match parse_chars r with
    | Some (str, rest) => Some (String c str, rest)
    | None => None
    end.
Proof.
  destruct c as [[] [] [] [] [] [] [] []]; reflexivity.
Qed.

Lemma parse_chars_quoted (s rest : string) :
  parse_chars (quote_units s ++ String dquote rest) = Some (s, rest).
Proof.
  induction s as [|c s IH]; [reflexivity|].
  cbn [quote_units]. rewrite append_assoc, parse_chars_quote_unit, IH.
  reflexivity.
Qed.

Lemma JsVal_nested_ind (P : JsVal -> Prop) :
  P VUndefined -> P VNull -> (forall b, P (VBool b)) -> (forall f, P (VNum f)) ->
  (forall s, P (VStr s)) ->
  (forall elems, Forall P elems -> P (VArr elems)) ->
  (forall props, Forall (fun kv => P (snd kv)) props -> P (VObj props)) ->
  P VFunction ->
  forall v, P v.
Proof.
  intros Hu Hn Hb Hf Hs Ha Ho Hfun.
  fix IH 1. intros [| |b|f|s|elems|props|].
  - exact Hu.
  - exact Hn.
  - apply Hb.
  - apply Hf.
  - apply Hs.
  - apply Ha. induction elems as [|x l IHl]; constructor; [apply IH|exact IHl].
  - apply Ho. induction props as [|[k x] l IHl]; constructor; [apply IH|exact IHl].
  - exact Hfun.
Qed.

Lemma plain_VArr `{Host} (elems : list JsVal) :
  plain (VArr elems) <-> Forall plain elems.
Proof.
  cbn [plain]. induction elems as [|x l IH]; [split; [intros _; apply Forall_nil|intros _; exact I]|].
  rewrite IH. split.
  - intros [Hx Hl]. now constructor.
  - intro Hall. inversion Hall; subst. now split.
Qed.

Lemma plain_VObj `{Host} (props : list (string * JsVal)) :
  plain (VObj props)
  <-> rebuild props = props /\ Forall (fun kv => plain (snd kv)) props.
Proof.
  cbn [plain]. apply and_iff_compat_l.
  induction props as [|[k x] l IH]; [split; [intros _; apply Forall_nil|intros _; exact I]|].
  rewrite IH. split.
  - intros [Hx Hl]. now constructor.
  - intro Hall. inversion Hall; subst. now split.
Qed.

Lemma need_VArr (elems : list JsVal) : need (VArr elems) = S (need_all elems).
Proof. reflexivity. Qed.

Lemma need_VObj (props : list (string * JsVal)) :
  need (VObj props) = S (need_props props).
Proof.
  unfold need_props. cbn [need]. f_equal.
  induction props as [|[k x] l IH]; [reflexivity|].
  cbn [fold_right snd]. now rewrite IH.
Qed.

Lemma stringify_VArr `{Host} (elems : list JsVal) :
  JSON_stringify (VArr elems)
  = Some ("[" ++ join "," (map text_of elems) ++ "]")%string.
Proof.
  reflexivity.
Qed.

Lemma plain_defined `{Host} (v : JsVal) :
  plain v -> JSON_stringify v = Some (text_of v).
Proof.
  unfold text_of. destruct v as [| |[]| | | | |]; cbn [plain];
    try contradiction; intros _; reflexivity.
Qed.

Lemma stringify_VObj `{Host} (props : list (string * JsVal)) :
  Forall (fun kv => plain (snd kv)) props ->
  JSON_stringify (VObj props)
  = Some ("{" ++ join "," (map member_text props) ++ "}")%string.
Proof.
  intro Hall. cbn [JSON_stringify].
  assert (E : forall l, Forall (fun kv => plain (snd kv)) l ->
    (fix each (l : list (string * JsVal)) : list string :=
       match l with
       | [] => []
       | (k, x) :: rest =>
           match JSON_stringify x with
           | Some s => (QuoteJSONString k ++ ":" ++ s)%string :: each rest
           | None => each rest
           end
       end) l = map member_text l).
  { induction 1 as [|[k x] l Hx _ IH]; [reflexivity|].
    cbn [map snd] in *. rewrite IH. unfold member_text, text_of. cbn [fst snd].
    rewrite (plain_defined x Hx). reflexivity. }
  now rewrite (E props Hall).
Qed.

Lemma value_start_not_ws (c : ascii) :
  value_start c = true ->
  is_ws c = false /\ Ascii.eqb c "]" = false /\ Ascii.eqb c "}" = false
  /\ Ascii.eqb c "," = false.
Proof.
  destruct c as [[] [] [] [] [] [] [] []]; cbv; intro E;
    try discriminate E; repeat split.
Qed.

Lemma number_start_dispatch (c : ascii) :
  (is_digit c || Ascii.eqb c "-") = true ->
  is_ws c = false /\ Ascii.eqb c "n" = false /\ Ascii.eqb c "t" = false
  /\ Ascii.eqb c "f" = false /\ Ascii.eqb c dquote = false
  /\ Ascii.eqb c "[" = false /\ Ascii.eqb c "{" = false.
Proof.
  destruct c as [[] [] [] [] [] [] [] []]; cbv; intro E;
    try discriminate E; repeat split.
Qed.

Lemma number_start_value (c : ascii) :
  (is_digit c || Ascii.eqb c "-") = true -> value_start c = true.
Proof.
  unfold value_start. intro E. rewrite <- orb_assoc, E. apply orb_true_r.
Qed.

Lemma text_of_start `{Host} (v : JsVal) :
  plain v -> exists c t, text_of v = String c t /\ value_start c = true.
Proof.
  unfold text_of.
  destruct v as [| |[]|f|s|elems|props|]; cbn [plain]; try contradiction.
  - intros _. exists "n"%char, "ull". now split.
  - intros _. exists "t"%char, "rue". now split.
  - intros _. exists "f"%char, "alse". now split.
  - intros (Hfin & (c & t & Ht & Hc) & _). cbn [JSON_stringify].
    rewrite Hfin, Ht. exists c, t. split; [reflexivity|].
    now apply number_start_value.
  - intros _. eexists _, _. split; reflexivity.
  - intros _. rewrite stringify_VArr. eexists _, _. split; reflexivity.
  - intros _. cbn [JSON_stringify]. eexists _, _. split; reflexivity.
Qed.

Lemma skip_ws_start (c : ascii) (t : string) :
  is_ws c = false -> skip_ws (String c t) = String c t.
Proof. intro E. cbn [skip_ws]. now rewrite E. Qed.

Lemma delimited_skip_ws (rest : string) :
  delimited rest -> skip_ws rest = rest.
Proof.
  destruct rest as [|c r]; [reflexivity|].
  intros [-> | [-> | ->]]; reflexivity.
Qed.

Lemma join_cons (sep s : string) (l : list string) :
  l <> [] -> join sep (s :: l) = (s ++ sep ++ join sep l)%string.
Proof. destruct l; [congruence|reflexivity]. Qed.

Lemma after_comma (x : string) : after "," (skip_ws ("," ++ x)) = Some x.
Proof. reflexivity. Qed.

Lemma after_close_bracket (x : string) :
  after "," (skip_ws (String "]" x)) = None
  /\ after "]" (skip_ws (String "]" x)) = Some x.
Proof. split; reflexivity. Qed.

Lemma after_close_brace (x : string) :
  after "," (skip_ws (String "}" x)) = None
  /\ after "}" (skip_ws (String "}" x)) = Some x.
Proof. split; reflexivity. Qed.

Lemma reads_back_elements `{Host} (elems : list JsVal) :
  Forall reads_back elems -> Forall plain elems -> elems <> [] ->
  forall fuel rest, need_all elems <= fuel ->
    parse_elements fuel (join "," (map text_of elems) ++ String "]" rest)
    = Some (elems, rest).
Proof.
  induction 1 as [|x l Hx _ IH]; intros Hplain Hne fuel rest Hfuel;
    [congruence|].
  inversion Hplain as [|? ? Hpx Hpl]; subst.
  cbn [need_all fold_right] in Hfuel.
  destruct fuel as [|fuel]; [lia|]. cbn [parse_elements].
  destruct l as [|y l].
  - cbn [map join]. rewrite (Hx Hpx fuel (String "]" rest));
      [|lia|right; left; reflexivity].
    destruct (after_close_bracket rest) as [-> ->]. reflexivity.
  - rewrite map_cons, join_cons by discriminate.
    rewrite !append_assoc.
    rewrite (Hx Hpx fuel); [|lia|left; reflexivity].
    rewrite after_comma.
    rewrite IH; [reflexivity|assumption|discriminate|].
    fold (need_all (y :: l)) in Hfuel. lia.
Qed.

Lemma member_text_shape `{Host} (k : string) (x : JsVal) (tail : string) :
  (member_text (k, x) ++ tail)%string
  = String dquote (quote_units k ++ String dquote (String ":" (text_of x ++ tail))).
Proof.
  unfold member_text, QuoteJSONString. cbn [fst snd append].
  now rewrite !append_assoc.
Qed.

Lemma after_colon (x : string) : after ":" (skip_ws (String ":" x)) = Some x.
Proof. reflexivity. Qed.

Lemma after_dquote (x : string) : after dquote (skip_ws (String dquote x)) = Some x.
Proof. reflexivity. Qed.

Lemma reads_back_members `{Host} (props : list (string * JsVal)) :
  Forall (fun kv => reads_back (snd kv)) props ->
  Forall (fun kv => plain (snd kv)) props -> props <> [] ->
  forall fuel rest acc, need_props props <= fuel ->
    parse_members fuel (join "," (map member_text props) ++ String "}" rest) acc
    = Some (fold_left (fun acc kv => define_prop (fst kv) (snd kv) acc) props acc,
            rest).
Proof.
  induction 1 as [|[k x] l Hx _ IH]; intros Hplain Hne fuel rest acc Hfuel;
    [congruence|].
  inversion Hplain as [|? ? Hpx Hpl]; subst. cbn [snd] in Hx, Hpx.
  cbn [need_props fold_right snd] in Hfuel.
  destruct fuel as [|fuel]; [lia|]. cbn [parse_members fold_left fst snd].
  destruct l as [|y l].
  - cbn [map join]. rewrite member_text_shape, after_dquote, parse_chars_quoted.
    rewrite after_colon.
    rewrite (Hx Hpx fuel (String "}" rest)); [|lia|right; right; reflexivity].
    destruct (after_close_brace rest) as [-> ->]. reflexivity.
  - rewrite map_cons, join_cons by discriminate.
    rewrite append_assoc, member_text_shape, after_dquote, parse_chars_quoted.
    rewrite after_colon, append_assoc.
    rewrite (Hx Hpx fuel); [|lia|left; reflexivity].
    rewrite after_comma.
    rewrite IH; [reflexivity|assumption|discriminate|].
    fold (need_props (y :: l)) in Hfuel. lia.
Qed.

Lemma reads_back_all `{Host} (v : JsVal) : reads_back v.
Proof.
  induction v as [| |b|f|s|elems IH|props IH|] using JsVal_nested_ind;
    intros Hplain fuel rest Hfuel Hrest;
    try contradiction;
    (destruct fuel as [|fuel]; [cbn [need] in Hfuel; lia|]).
  - reflexivity.
  - destruct b; reflexivity.
  - destruct Hplain as (Hfin & (c & t & Ht & Hc) & Hread).
    unfold text_of. cbn [JSON_stringify]. rewrite Hfin.
    specialize (Hread rest Hrest). rewrite Ht in *.
    destruct (number_start_dispatch c Hc) as (W & E1 & E2 & E3 & E4 & E5 & E6).
    cbn [append parse_value]. rewrite (skip_ws_start c _ W).
    rewrite E1, E2, E3, E4, E5, E6. cbn [append] in Hread. now rewrite Hread.
  - unfold text_of. cbn [JSON_stringify]. unfold QuoteJSONString.
    cbn [append]. rewrite append_assoc. cbn [append parse_value].
    change (skip_ws (String dquote ?x)) with (String dquote x).
    cbn. now rewrite parse_chars_quoted.
  - apply plain_VArr in Hplain. rewrite need_VArr in Hfuel.
    unfold text_of. rewrite stringify_VArr.
    destruct elems as [|x l]; [reflexivity|].
    rewrite !append_assoc. cbn [append parse_value].
    destruct (text_of_start x) as (c & t & Ht & Hc).
    { now inversion Hplain. }
    destruct (value_start_not_ws c Hc) as (W & B & _ & _).
    assert (Hhead : exists t', (join "," (map text_of (x :: l)) ++ String "]" rest)%string
                               = String c t').
    { destruct l; cbn [map join]; rewrite Ht; eexists; reflexivity. }
    destruct Hhead as [t' Ht'].
    change (skip_ws (String "[" ?x)) with (String "[" x). cbn beta iota.
    change (Ascii.eqb "[" "n") with false. change (Ascii.eqb "[" "t") with false.
    change (Ascii.eqb "[" "f") with false. change (Ascii.eqb "[" dquote) with false.
    change (Ascii.eqb "[" "[") with true. cbn beta iota.
    rewrite Ht' at 1. rewrite (skip_ws_start c _ W). cbn [after]. rewrite B.
    rewrite reads_back_elements; [reflexivity|assumption|assumption|discriminate|lia].
  - apply plain_VObj in Hplain as [Hcanon Hplain]. rewrite need_VObj in Hfuel.
    unfold text_of. rewrite (stringify_VObj _ Hplain).
    destruct props as [|[k x] l]; [reflexivity|].
    rewrite !append_assoc. cbn [append parse_value].
    change (skip_ws (String "{" ?x)) with (String "{" x). cbn beta iota.
    change (Ascii.eqb "{" "n") with false. change (Ascii.eqb "{" "t") with false.
    change (Ascii.eqb "{" "f") with false. change (Ascii.eqb "{" dquote) with false.
    change (Ascii.eqb "{" "[") with false. change (Ascii.eqb "{" "{") with true.
    cbn beta iota.
    assert (Hhead : exists t', (join "," (map member_text ((k, x) :: l)) ++ String "}" rest)%string
                               = String dquote t').
    { destruct l; cbn [map join]; [|rewrite append_assoc];
        rewrite member_text_shape; eexists; reflexivity. }
    destruct Hhead as [t' Ht'].
    rewrite Ht' at 1. change (skip_ws (String dquote t')) with (String dquote t').
    change (after "}" (String dquote t')) with (@None string).
    rewrite reads_back_members; [|assumption|assumption|discriminate|lia].
    fold (rebuild ((k, x) :: l)). now rewrite Hcanon.
Qed.

Lemma append_empty_r (s : string) : (s ++ "")%string = s.
Proof. induction s as [|c s IH]; simpl; [reflexivity|now rewrite IH]. Qed.

Lemma need_all_length `{Host} (elems : list JsVal) :
  Forall (fun x => need x <= String.length (text_of x)) elems ->
  need_all elems <= String.length (join "," (map text_of elems)) + 1.
Proof.
  induction 1 as [|x l Hx _ IH]; [cbn; lia|].
  cbn [need_all fold_right]. fold (need_all l).
  destruct l as [|y l].
  - cbn [map join need_all fold_right]. lia.
  - rewrite map_cons, join_cons by discriminate.
    rewrite !length_append. cbn [String.length]. lia.
Qed.

Lemma need_props_length `{Host} (props : list (string * JsVal)) :
  Forall (fun kv => need (snd kv) <= String.length (text_of (snd kv))) props ->
  need_props props <= String.length (join "," (map member_text props)) + 1.
Proof.
  induction 1 as [|[k x] l Hx _ IH]; [cbn; lia|].
  cbn [need_props fold_right snd] in *. fold (need_props l).
  assert (Hm : need x <= String.length (member_text (k, x))).
  { unfold member_text. cbn [fst snd]. rewrite !length_append. lia. }
  destruct l as [|y l].
  - cbn [map join need_props fold_right]. lia.
  - rewrite map_cons, join_cons by discriminate.
    rewrite !length_append. cbn [String.length]. lia.
Qed.

Lemma need_length `{Host} (v : JsVal) :
  plain v -> need v <= String.length (text_of v).
Proof.
  induction v as [| |b|f|s|elems IH|props IH|] using JsVal_nested_ind;
    intro Hplain; try contradiction.
  1-4: destruct (text_of_start _ Hplain) as (c & t & -> & _); cbn; lia.
  - apply plain_VArr in Hplain. rewrite need_VArr.
    unfold text_of. rewrite stringify_VArr.
    rewrite !length_append. cbn [String.length].
    enough (need_all elems <= String.length (join "," (map text_of elems)) + 1) by lia.
    apply need_all_length. rewrite Forall_forall in *. auto.
  - apply plain_VObj in Hplain as [_ Hplain]. rewrite need_VObj.
    unfold text_of. rewrite (stringify_VObj _ Hplain).
    rewrite !length_append. cbn [String.length].
    enough (need_props props
            <= String.length (join "," (map member_text props)) + 1) by lia.
    apply need_props_length. rewrite Forall_forall in *. auto.
Qed.

(** The parser of the standard reads the text of a plain value back as that
    value. *)
Lemma parse_text_of (toString : float -> string) (v : JsVal) :
  @plain (browser toString) v ->
  parse (@text_of (browser toString) v) = Some v.
Proof.
  intro Hplain. unfold parse.
  pose proof (@reads_back_all (browser toString) v Hplain
                (2 * String.length (@text_of (browser toString) v) + 2) "") as Hread.
  rewrite append_empty_r in Hread. rewrite Hread; [reflexivity| |exact I].
  pose proof (@need_length (browser toString) v Hplain). lia.
Qed.

Lemma own_None (k : string) (props : list (string * JsVal)) :
  Forall (fun k' => k' <> k) (map fst props) -> own k props = None.
Proof.
  induction props as [|[k' v] rest IH]; [reflexivity|].
  cbn [map fst own]. intro Hall. inversion Hall as [|? ? Hk Hrest]; subst.
  apply String.eqb_neq in Hk. rewrite Hk. now apply IH.
Qed.

Lemma own_Some_In (k : string) (x : JsVal) (props : list (string * JsVal)) :
  own k props = Some x -> In k (map fst props).
Proof.
  induction props as [|[k' v] rest IH]; [discriminate|].
  cbn [map fst own]. destruct (k' =? k) eqn:E.
  - apply String.eqb_eq in E. now left.
  - intro H. right. now apply IH.
Qed.

Lemma own_None_not_In (k : string) (props : list (string * JsVal)) :
  own k props = None -> ~ In k (map fst props).
Proof.
  induction props as [|[k' v] rest IH]; [intros _ []|].
  cbn [map fst own]. destruct (k' =? k) eqn:E; [discriminate|].
  apply String.eqb_neq in E. intros H [Hin|Hin]; [contradiction|].
  now apply IH.
Qed.

Lemma set_own_keys (k : string) (x : JsVal) (props : list (string * JsVal)) :
  own k props <> None -> map fst (set_own k x props) = map fst props.
Proof.
  induction props as [|[k' v] rest IH]; [intro H; now contradiction H|].
  cbn [own set_own]. destruct (k' =? k); [reflexivity|].
  intro H. cbn [map fst]. now rewrite IH.
Qed.

Lemma insert_index_last (i : Z) (k : string) (v : JsVal)
    (props : list (string * JsVal)) :
  Forall (fun k' => match array_index k' with
                    | Some j => (j <= i)%Z
                    | None => False
                    end) (map fst props) ->
  insert_index i k v props = props ++ [(k, v)].
Proof.
  induction props as [|[k' v'] rest IH]; [reflexivity|].
  cbn [map fst insert_index]. intro Hall.
  inversion Hall as [|? ? Hk Hrest]; subst.
  destruct (array_index k') as [j|]; [|contradiction].
  apply Z.leb_le in Hk. rewrite Hk. cbn [app]. now rewrite IH.
Qed.

Lemma ordered_keys_app (ks ks' : list string) :
  ordered_keys (ks ++ ks')
  <-> ordered_keys ks /\ ordered_keys ks'
      /\ Forall (fun k => Forall (follows k) ks') ks.
Proof.
  induction ks as [|k ks IH]; cbn [app ordered_keys].
  - split; [intro H; repeat split; auto|tauto].
  - rewrite Forall_app, IH. split.
    + intros [[H1 H2] (H3 & H4 & H5)]. repeat split; auto.
    + intros ([H1 H3] & H4 & H5). inversion H5; subst. repeat split; auto.
Qed.

(** Defined after the properties before it, a property of an ordered list
    lands last. *)
Lemma define_prop_last (k : string) (v : JsVal) (acc : list (string * JsVal)) :
  Forall (fun k' => follows k' k) (map fst acc) ->
  define_prop k v acc = acc ++ [(k, v)].
Proof.
  intro Hall. unfold define_prop.
  rewrite own_None.
  2:{ eapply Forall_impl; [|exact Hall]. intros k' [Hne _]. exact Hne. }
  destruct (array_index k) as [i|] eqn:Hi; [|reflexivity].
  apply insert_index_last.
  eapply Forall_impl; [|exact Hall]. intros k' [_ Hord]. rewrite Hi in Hord.
  destruct (array_index k'); [exact Hord|contradiction].
Qed.

Lemma fold_define_ordered (l acc : list (string * JsVal)) :
  ordered (acc ++ l) ->
  fold_left (fun acc kv => define_prop (fst kv) (snd kv) acc) l acc = acc ++ l.
Proof.
  revert acc. induction l as [|[k v] l IH]; intros acc Hord.
  - now rewrite app_nil_r.
  - cbn [fold_left fst snd].
    assert (Hlast : define_prop k v acc = acc ++ [(k, v)]).
    { apply define_prop_last. unfold ordered in Hord.
      rewrite map_app in Hord. apply ordered_keys_app in Hord as (_ & _ & Hf).
      eapply Forall_impl; [|exact Hf]. intros k' Hk'. cbn [map fst] in Hk'.
      now inversion Hk'. }
    rewrite Hlast, IH; rewrite <- app_assoc; [reflexivity|exact Hord].
Qed.

Lemma ordered_rebuild (props : list (string * JsVal)) :
  ordered props -> rebuild props = props.
Proof. intro H. apply (fold_define_ordered props []), H. Qed.

Lemma insert_index_keys (i : Z) (k : string) (v : JsVal)
    (props : list (string * JsVal)) (P : string -> Prop) :
  P k -> Forall P (map fst props) ->
  Forall P (map fst (insert_index i k v props)).
Proof.
  intros Hk. induction props as [|[k' v'] rest IH]; cbn [map fst insert_index].
  - intros _. now constructor.
  - intro Hall. inversion Hall as [|? ? Hk' Hrest]; subst.
    destruct (array_index k') as [j|]; [destruct (j <=? i)%Z|];
      cbn [map fst]; repeat constructor; auto.
Qed.

Lemma ordered_insert_index (i : Z) (k : string) (v : JsVal)
    (props : list (string * JsVal)) :
  array_index k = Some i ->
  ~ In k (map fst props) ->
  ordered props -> ordered (insert_index i k v props).
Proof.
  intros Hi. unfold ordered.
  induction props as [|[k' v'] rest IH]; cbn [map fst insert_index ordered_keys].
  - intros _ _. split; constructor.
  - intros Hnin [Hfollow Hord].
    assert (Hne : k' <> k) by (intro E; apply Hnin; now left).
    assert (Hnin' : ~ In k (map fst rest)) by (intro E; apply Hnin; now right).
    destruct (array_index k') as [j|] eqn:Hj.
    + destruct (j <=? i)%Z eqn:Hji.
      * cbn [map fst ordered_keys]. split; [|now apply IH].
        apply insert_index_keys; [|exact Hfollow].
        split; [exact Hne|]. rewrite Hj, Hi. now apply Z.leb_le.
      * cbn [map fst ordered_keys]. apply Z.leb_gt in Hji.
        split; [|split; assumption].
        constructor.
        -- split; [congruence|]. rewrite Hi, Hj. lia.
        -- rewrite Forall_forall in *. intros k'' Hin.
           destruct (Hfollow k'' Hin) as [_ Hrank]. split.
           ++ intro E. apply Hnin'. now subst.
           ++ rewrite Hi. rewrite Hj in Hrank.
              destruct (array_index k''); [lia|exact I].
    + cbn [map fst ordered_keys]. split; [|split; assumption].
      constructor.
      * split; [congruence|]. now rewrite Hi, Hj.
      * rewrite Forall_forall in *. intros k'' Hin.
        destruct (Hfollow k'' Hin) as [_ Hrank]. split.
        -- intro E. apply Hnin'. now subst.
        -- rewrite Hi. rewrite Hj in Hrank.
           destruct (array_index k''); [contradiction|exact I].
Qed.

Lemma ordered_define_prop (k : string) (v : JsVal)
    (props : list (string * JsVal)) :
  ordered props -> ordered (define_prop k v props).
Proof.
  intro Hord. unfold define_prop.
  destruct (own k props) as [x|] eqn:Hown.
  - unfold ordered. rewrite set_own_keys; [exact Hord|congruence].
  - apply own_None_not_In in Hown.
    destruct (array_index k) as [i|] eqn:Hi.
    + now apply ordered_insert_index.
    + unfold ordered in *. rewrite map_app. apply ordered_keys_app.
      split; [exact Hord|]. split; [cbn; split; constructor|].
      apply Forall_forall. intros k' Hin. constructor; [|constructor].
      split; [intro E; apply Hown; now subst|].
      cbn [fst]. rewrite Hi. now destruct (array_index k').
Qed.

Lemma set_own_values (k : string) (x : JsVal) (props : list (string * JsVal))
    (P : JsVal -> Prop) :
  P x -> Forall (fun kv => P (snd kv)) props ->
  Forall (fun kv => P (snd kv)) (set_own k x props).
Proof.
  intros Hx. induction 1 as [|[k' v'] rest Hv Hrest IH]; cbn [set_own].
  - now repeat constructor.
  - destruct (k' =? k); constructor; auto.
Qed.

Lemma insert_index_values (i : Z) (k : string) (x : JsVal)
    (props : list (string * JsVal)) (P : JsVal -> Prop) :
  P x -> Forall (fun kv => P (snd kv)) props ->
  Forall (fun kv => P (snd kv)) (insert_index i k x props).
Proof.
  intros Hx. induction 1 as [|[k' v'] rest Hv Hrest IH]; cbn [insert_index].
  - now repeat constructor.
  - destruct (array_index k') as [j|]; [destruct (j <=? i)%Z|];
      repeat constructor; auto.
Qed.

Lemma define_prop_values (k : string) (x : JsVal) (props : list (string * JsVal))
    (P : JsVal -> Prop) :
  P x -> Forall (fun kv => P (snd kv)) props ->
  Forall (fun kv => P (snd kv)) (define_prop k x props).
Proof.
  intros Hx Hall. unfold define_prop.
  destruct (own k props); [now apply set_own_values|].
  destruct (array_index k); [now apply insert_index_values|].
  apply Forall_app. split; [exact Hall|now repeat constructor].
Qed.

Lemma shaped_VArr (elems : list JsVal) :
  shaped (VArr elems) <-> Forall shaped elems.
Proof.
  cbn [shaped]. induction elems as [|x l IH];
    [split; [intros _; apply Forall_nil|intros _; exact I]|].
  rewrite IH. split.
  - intros [Hx Hl]. now constructor.
  - intro Hall. inversion Hall; subst. now split.
Qed.

Lemma shaped_VObj (props : list (string * JsVal)) :
  shaped (VObj props)
  <-> ordered props /\ Forall (fun kv => shaped (snd kv)) props.
Proof.
  cbn [shaped]. apply and_iff_compat_l.
  induction props as [|[k x] l IH];
    [split; [intros _; apply Forall_nil|intros _; exact I]|].
  rewrite IH. split.
  - intros [Hx Hl]. now constructor.
  - intro Hall. inversion Hall; subst. now split.
Qed.

Lemma parse_shaped (fuel : nat) :
  (forall s v rest, parse_value fuel s = Some (v, rest) -> shaped v)
  /\ (forall s vs rest, parse_elements fuel s = Some (vs, rest) ->
        Forall shaped vs)
  /\ (forall s acc props rest,
        parse_members fuel s acc = Some (props, rest) ->
        ordered acc -> Forall (fun kv => shaped (snd kv)) acc ->
        ordered props /\ Forall (fun kv => shaped (snd kv)) props).
Proof.
  induction fuel as [|fuel (IHv & IHe & IHm)];
    [repeat split; intros; discriminate|].
  split; [|split].
  - intros s v rest. cbn [parse_value].
    destruct (skip_ws s) as [|c r]; [discriminate|].
    destruct (Ascii.eqb c "n").
    { unfold expect. destruct (strip_prefix _ _); [|discriminate].
      intro E. injection E as <- _. exact I. }
    destruct (Ascii.eqb c "t").
    { unfold expect. destruct (strip_prefix _ _); [|discriminate].
      intro E. injection E as <- _. exact I. }
    destruct (Ascii.eqb c "f").
    { unfold expect. destruct (strip_prefix _ _); [|discriminate].
      intro E. injection E as <- _. exact I. }
    destruct (Ascii.eqb c dquote).
    { destruct (parse_chars r) as [[str r']|]; [|discriminate].
      intro E. injection E as <- _. exact I. }
    destruct (Ascii.eqb c "[").
    { destruct (after "]" (skip_ws r)).
      - intro E. injection E as <- _. exact I.
      - destruct (parse_elements fuel r) as [[elems r']|] eqn:He; [|discriminate].
        intro E. injection E as <- _. apply shaped_VArr. eapply IHe, He. }
    destruct (Ascii.eqb c "{").
    { destruct (after "}" (skip_ws r)).
      - intro E. injection E as <- _. split; exact I.
      - destruct (parse_members fuel r []) as [[props r']|] eqn:Hm; [|discriminate].
        intro E. injection E as <- _. apply shaped_VObj.
        eapply IHm; [exact Hm|exact I|constructor]. }
    destruct (parse_number (String c r)) as [[f r']|]; [|discriminate].
    intro E. injection E as <- _. exact I.
  - intros s vs rest. cbn [parse_elements].
    destruct (parse_value fuel s) as [[v r]|] eqn:Hv; [|discriminate].
    apply IHv in Hv.
    destruct (after "," (skip_ws r)) as [r'|].
    + destruct (parse_elements fuel r') as [[vs' r'']|] eqn:He; [|discriminate].
      intro E. injection E as <- _. constructor; [exact Hv|]. eapply IHe, He.
    + destruct (after "]" (skip_ws r)); [|discriminate].
      intro E. injection E as <- _. now repeat constructor.
  - intros s acc props rest. cbn [parse_members].
    destruct (after dquote (skip_ws s)) as [r|]; [|discriminate].
    destruct (parse_chars r) as [[k r1]|]; [|discriminate].
    destruct (after ":" (skip_ws r1)) as [r2|]; [|discriminate].
    destruct (parse_value fuel r2) as [[v r3]|] eqn:Hv; [|discriminate].
    apply IHv in Hv. intros Hm Hord Hall.
    destruct (after "," (skip_ws r3)) as [r4|].
    + eapply IHm; [exact Hm|now apply ordered_define_prop|].
      now apply define_prop_values.
    + destruct (after "}" (skip_ws r3)); [|discriminate].
      injection Hm as <- _.
      split; [now apply ordered_define_prop|now apply define_prop_values].
Qed.

Lemma parse_is_shaped (text : string) (v : JsVal) :
  parse text = Some v -> shaped v.
Proof.
  unfold parse.
  destruct (parse_value _ text) as [[v' rest]|] eqn:Hv; [|discriminate].
  destruct (skip_ws rest =? ""); [|discriminate].
  intro E. injection E as <-. eapply (proj1 (parse_shaped _)), Hv.
Qed.


Lemma numbers_ok_VArr `{Host} (elems : list JsVal) :
  numbers_ok (VArr elems) <-> Forall numbers_ok elems.
Proof.
  cbn [numbers_ok]. induction elems as [|x l IH];
    [split; [intros _; apply Forall_nil|intros _; exact I]|].
  rewrite IH. split.
  - intros [Hx Hl]. now constructor.
  - intro Hall. inversion Hall; subst. now split.
Qed.

Lemma numbers_ok_VObj `{Host} (props : list (string * JsVal)) :
  numbers_ok (VObj props) <-> Forall (fun kv => numbers_ok (snd kv)) props.
Proof.
  cbn [numbers_ok]. induction props as [|[k x] l IH];
    [split; [intros _; apply Forall_nil|intros _; exact I]|].
  rewrite IH. split.
  - intros [Hx Hl]. now constructor.
  - intro Hall. inversion Hall; subst. now split.
Qed.

(** A shaped value whose numbers read back is plain. *)
Lemma shaped_plain `{Host} (v : JsVal) :
  shaped v -> numbers_ok v -> plain v.
Proof.
  induction v as [| |b|f|s|elems IH|props IH|] using JsVal_nested_ind;
    intros Hshaped Hnum; try contradiction; try exact I.
  - exact Hnum.
  - apply plain_VArr. apply shaped_VArr in Hshaped.
    apply numbers_ok_VArr in Hnum. rewrite Forall_forall in *. auto.
  - apply plain_VObj. apply shaped_VObj in Hshaped as [Hord Hshaped].
    apply numbers_ok_VObj in Hnum.
    split; [now apply ordered_rebuild|]. rewrite Forall_forall in *. auto.
Qed.

Lemma own_shaped (k : string) (x : JsVal) (props : list (string * JsVal)) :
  Forall (fun kv => shaped (snd kv)) props -> own k props = Some x -> shaped x.
Proof.
  induction 1 as [|[k' v] rest Hv _ IH]; cbn [own]; [discriminate|].
  destruct (k' =? k); [|exact IH]. intro E. now injection E as <-.
Qed.

(** A property of a shaped value, other than [entries], is shaped unless
    it is missing. *)
Lemma field_shaped (x : JsVal) (k : Key) :
  shaped x -> k <> Kentries ->
  field x k = VUndefined \/ shaped (field x k).
Proof.
  intros Hx Hk. destruct x; try contradiction; unfold field; cbn [Get];
    try (left; reflexivity).
  - destruct k; try (left; reflexivity). contradiction.
  - apply shaped_VObj in Hx as [_ Hall].
    destruct (own (key_name k) props) as [y|] eqn:Hown; [|left; reflexivity].
    right. eapply own_shaped; eassumption.
Qed.

(** The elements of a property that is an array are shaped. *)
Lemma elements_field_shaped (x : JsVal) (k : Key) :
  shaped x -> Forall shaped (elements (field x k)).
Proof.
  intro Hx. destruct x; try contradiction; unfold field; cbn [Get];
    try apply Forall_nil.
  - destruct k; apply Forall_nil.
  - apply shaped_VObj in Hx as [_ Hall].
    destruct (own (key_name k) props) as [y|] eqn:Hown; [|apply Forall_nil].
    pose proof (own_shaped _ _ _ Hall Hown) as Hy.
    destruct y; try apply Forall_nil. now apply shaped_VArr.
Qed.

Lemma truthy_field_shaped (x : JsVal) (k : Key) :
  shaped x -> k <> Kentries -> ToBoolean (field x k) = true ->
  shaped (field x k).
Proof.
  intros Hx Hk Ht. destruct (field_shaped x k Hx Hk) as [E|H]; [|exact H].
  rewrite E in Ht. discriminate Ht.
Qed.

Lemma or_else_field_shaped (x : JsVal) (k : Key) (s : string) :
  shaped x -> k <> Kentries -> shaped (or_else (field x k) (VStr s)).
Proof.
  intros Hx Hk. unfold or_else.
  destruct (ToBoolean (field x k)) eqn:Ht; [|exact I].
  now apply truthy_field_shaped.
Qed.

Lemma sanitize_shaped `{Host} (uid now : nat -> string) (i : nat) (x a : JsVal) :
  shaped x -> valid_candidate x = true ->
  sanitize uid now i x = Returns a ->
  shaped a.
Proof.
  unfold valid_candidate. intros Hshaped Hv Hs.
  apply andb_prop in Hv as [Hv Hto]. apply andb_prop in Hv as [Hv Hti].
  apply andb_prop in Hv as [Hv _]. apply andb_prop in Hv as [Hx Hd].
  assert (Hn : nullish x = false) by (destruct x; try reflexivity; discriminate).
  unfold sanitize in Hs. rewrite !(Get_field x) in Hs by exact Hn.
  cbn [bind] in Hs.
  destruct (ToString (field x Kemployee)) as [employee| |]; try discriminate Hs.
  cbn [bind] in Hs.
  destruct (if ToBoolean (field x Knotes) then ToString (field x Knotes)
            else Returns "") as [notes| |]; try discriminate Hs.
  cbn [bind] in Hs. injection Hs as <-.
  apply includes_In in Hd as (d & Hd & _).
  apply shaped_VObj. split.
  - cbv [ordered map fst ordered_keys].
    repeat (split || constructor); try exact I; discriminate.
  - repeat constructor; cbn [snd]; try exact I.
    + now apply or_else_field_shaped.
    + now rewrite Hd.
    + now apply truthy_field_shaped.
    + now apply truthy_field_shaped.
    + now apply or_else_field_shaped.
Qed.

Lemma new_entry_shaped (fields : Form.t) (id createdAt : string) :
  shaped (new_entry fields id createdAt).
Proof.
  apply shaped_VObj. split.
  - cbv [ordered map fst ordered_keys].
    repeat (split || constructor); try exact I; discriminate.
  - repeat constructor.
Qed.

(** * The store: saving and loading *)

Lemma saveState_page `{Host} (p : Page) :
  saveState p
  = (mkPage (state p) (Some (stored_text (state p))) (shown p), Returns tt).
Proof. reflexivity. Qed.

Lemma stored_text_object `{Host} (props : list (string * JsVal)) :
  exists rest, stored_text (VObj props) = String "{" rest.
Proof. unfold stored_text. cbn. eexists. reflexivity. Qed.

Lemma plain_stored_text `{Host} (v : JsVal) :
  plain v -> stored_text v = text_of v.
Proof.
  intro Hplain. unfold stored_text, text_of.
  now rewrite (plain_defined v Hplain).
Qed.

(** On a page reached with the parser of the standard, the state is
    shaped. *)
Lemma reachable_shaped (toString : float -> string) (p : Page) :
  @reachable (browser toString) any_form p -> shaped (state p).
Proof.
  intro Hreach.
  destruct (@reachable_entries (browser toString) any_form shaped shaped)
    with (p := p) as (E & -> & HE); try assumption.
  - intros. apply new_entry_shaped.
  - intros text parsed. apply parse_is_shaped.
  - intros parsed uid now i x a Hparsed Hin Hv Hs.
    eapply (@sanitize_shaped (browser toString)); [|exact Hv|exact Hs].
    pose proof (elements_field_shaped parsed Kentries Hparsed) as Hall.
    rewrite Forall_forall in Hall. now apply Hall.
  - apply shaped_VObj. split.
    + cbv [ordered map fst ordered_keys]. split; constructor.
    + constructor; [|constructor]. now apply shaped_VArr.
Qed.

(** C3, as the script has it.  On a page reached from a first visit by
    submitting the form, importing, deleting, editing and clearing,
    [saveState] followed by [loadState] answers the very state that was
    saved, provided every number in the state is one that the host writes
    as a JSON number and that reads back as the same number (a number that
    is not finite is written [null]).  [JSON.parse] is the parser of the
    standard; the conversion of numbers to strings is any. *)
Theorem saveState_loadState (toString : float -> string) (p : Page) :
  @reachable (browser toString) any_form p ->
  @numbers_ok (browser toString) (state p) ->
  @loadState (browser toString)
     (localStorage (fst (@saveState (browser toString) p)))
  = Returns (state p).
Proof.
  intros Hreach Hnum.
  assert (Hplain : @plain (browser toString) (state p)).
  { apply shaped_plain; [now apply (reachable_shaped toString)|exact Hnum]. }
  destruct (@reachable_entries (browser toString) any_form
              (fun _ => True) (fun _ => True)) with (p := p)
    as (E & Hst & _); try assumption; try (intros; exact I).
  rewrite saveState_page. cbn [fst localStorage].
  apply (proj2 (proj2 (proj2 (proj2 (@loadState_total (browser toString)
           (Some (@stored_text (browser toString) (state p)))))))
           (@stored_text (browser toString) (state p)) (state p) E).
  - reflexivity.
  - rewrite Hst. destruct (@stored_text_object (browser toString)
                             [("entries", VArr E)]) as [rest ->]. discriminate.
  - rewrite (@plain_stored_text (browser toString)) by exact Hplain.
    cbn [JSON_parse browser]. now apply parse_text_of.
  - rewrite Hst. reflexivity.
Qed.

Lemma roster_page_numbers : @numbers_ok sample_host (state roster_page).
Proof. vm_compute. repeat split. Qed.

Lemma saveState_loadState_witness :
  @loadState sample_host (localStorage (fst (@saveState sample_host roster_page)))
  = Returns saved_roster_document.
Proof.
  apply (saveState_loadState (fun _ => "0") roster_page).
  - eapply reachable_step; [apply reachable_first|apply step_import].
  - exact roster_page_numbers.
Defined.

(** C3 fails as stated.  The import keeps a candidate whose time in is the
    number [1e999], which [JSON.parse] reads as [Infinity];
    [JSON.stringify] writes [Infinity] as [null]; after [saveState] and
    [loadState] the entry's time in is [null]. *)
Lemma save_load_changes_entry :
  @reachable sample_host any_form overflow_page
  /\ field (nth 0 (elements (field (state overflow_page) Kentries)) VUndefined)
           KtimeIn = VNum infinity
  /\ localStorage (fst (@saveState sample_host overflow_page))
     = Some saved_overflow_text
  /\ (exists loaded,
         @loadState sample_host
            (localStorage (fst (@saveState sample_host overflow_page)))
         = Returns loaded
         /\ field (nth 0 (elements (field loaded Kentries)) VUndefined) KtimeIn
            = VNull
         /\ loaded <> state overflow_page).
Proof.
  split; [eapply reachable_step; [apply reachable_first|apply step_import]|].
  split; [vm_compute; reflexivity|].
  split; [vm_compute; reflexivity|].
  exists saved_overflow_document.
  split; [vm_compute; reflexivity|].
  split; [vm_compute; reflexivity|].
  vm_compute. intro E. discriminate E.
Qed.

(** * The calculator: clock texts, range and formatting *)

Lemma timeInput_shape_checked :
  forallb (fun h => forallb (fun m =>
      (String.length (timeInput h m) =? 5)%nat
      && match split ":" (timeInput h m) with
         | [hh; mm] => (hh =? pad2 h)%string && (mm =? pad2 m)%string
         | _ => false
         end)
    (seq 0 60)) (seq 0 24)
  = true.
Proof. vm_compute. reflexivity. Qed.

(** X1. What the clock buttons write, at an hour below 24 and a minute
    below 60, has five characters, splits at the colon into the two padded
    numbers, and is read by [timeToMinutes] as [hours * 60 + minutes]. *)
Theorem nowAsTimeInput_read_back (h m : nat) :
  (h < 24)%nat -> (m < 60)%nat ->
  String.length (timeInput h m) = 5%nat
  /\ split ":" (timeInput h m) = [pad2 h; pad2 m]
  /\ timeToMinutes (timeInput h m) = Z2float (Z.of_nat (h * 60 + m)).
Proof.
  intros Hh Hm.
  pose proof (forallb_below _ _ (forallb_below _ _ timeInput_shape_checked h Hh) m Hm)
    as Hshape.
  apply andb_prop in Hshape as [Hlen Hsplit].
  split; [now apply Nat.eqb_eq|]. split; [|now apply timeToMinutes_timeInput].
  destruct (split ":" (timeInput h m)) as [|hh [|mm [|]]]; try discriminate Hsplit.
  apply andb_prop in Hsplit as [Ea Eb].
  apply String.eqb_eq in Ea, Eb. now subst.
Qed.

Lemma nowAsTimeInput_read_back_witness :
  String.length (timeInput 7 5) = 5%nat
  /\ split ":" (timeInput 7 5) = ["07"; "05"]
  /\ timeToMinutes (timeInput 7 5) = 425%float.
Proof. apply (nowAsTimeInput_read_back 7 5); lia. Defined.

Lemma elapsed_in_day (i o : Z) :
  In i day_minutes -> In o day_minutes -> In (elapsed i o) day_minutes.
Proof.
  unfold day_minutes. rewrite !in_map_iff.
  intros (a & <- & Ha) (b & <- & Hb). apply in_seq in Ha, Hb.
  exists (Z.to_nat (elapsed (Z.of_nat a) (Z.of_nat b))).
  unfold elapsed. destruct (Z.of_nat b - Z.of_nat a <? 0)%Z eqn:E.
  - apply Z.ltb_lt in E. split; [lia|]. apply in_seq. lia.
  - apply Z.ltb_ge in E. split; [lia|]. apply in_seq. lia.
Qed.

Lemma hours_range_checked :
  forallb (fun d => ((0 <=? Z2float d / 60) && (Z2float d / 60 <? 24))%float)
          day_minutes
  = true.
Proof. vm_compute. reflexivity. Qed.

Lemma hours_complement_checked :
  forallb (fun d => (d =? 0)%Z
                    || PrimFloat.Leibniz.eqb
                         (Z2float d / 60 + Z2float (1440 - d) / 60)%float
                         24%float)
          day_minutes
  = true.
Proof. vm_compute. reflexivity. Qed.

Lemma elapsed_complement (i o : Z) :
  In i day_minutes -> In o day_minutes -> i <> o ->
  elapsed o i = (1440 - elapsed i o)%Z /\ elapsed i o <> 0%Z.
Proof.
  unfold day_minutes. rewrite !in_map_iff.
  intros (a & <- & Ha) (b & <- & Hb) Hne. apply in_seq in Ha, Hb.
  unfold elapsed.
  destruct (Z.of_nat b - Z.of_nat a <? 0)%Z eqn:E1;
    destruct (Z.of_nat a - Z.of_nat b <? 0)%Z eqn:E2;
    rewrite ?Z.ltb_lt, ?Z.ltb_ge in *; lia.
Qed.

(** X2. Between two well-formed times [computeHours] is never negative
    and stays below 24; and unless the two times are equal, the hours from
    the first to the second and the hours from the second to the first add
    up to 24 exactly. *)
Theorem computeHours_within_a_day (h1 m1 h2 m2 : nat) :
  (h1 < 24)%nat -> (m1 < 60)%nat -> (h2 < 24)%nat -> (m2 < 60)%nat ->
  (0 <=? computeHours (timeInput h1 m1) (timeInput h2 m2))%float = true
  /\ (computeHours (timeInput h1 m1) (timeInput h2 m2) <? 24)%float = true
  /\ (minutes h1 m1 <> minutes h2 m2 ->
      (computeHours (timeInput h1 m1) (timeInput h2 m2)
       + computeHours (timeInput h2 m2) (timeInput h1 m1))%float = 24%float).
Proof.
  intros H1 H2 H3 H4.
  pose proof (in_day_minutes h1 m1 H1 H2) as Hi.
  pose proof (in_day_minutes h2 m2 H3 H4) as Ho.
  rewrite !computeHours_timeInput by assumption.
  pose proof (forallb_In _ _ hours_range_checked _ (elapsed_in_day _ _ Hi Ho))
    as Hrange.
  apply andb_prop in Hrange as [Hlow Hhigh].
  split; [exact Hlow|]. split; [exact Hhigh|].
  intro Hne. destruct (elapsed_complement _ _ Hi Ho Hne) as [-> Hnz].
  pose proof (forallb_In _ _ hours_complement_checked _ (elapsed_in_day _ _ Hi Ho))
    as Hsum.
  cbv beta in Hsum. apply Z.eqb_neq in Hnz. rewrite Hnz in Hsum.
  now apply FloatAxioms.Leibniz.eqb_spec.
Qed.

Lemma computeHours_within_a_day_witness :
  (0 <=? computeHours (timeInput 22 30) (timeInput 6 15))%float = true
  /\ (computeHours (timeInput 22 30) (timeInput 6 15) <? 24)%float = true
  /\ (computeHours (timeInput 22 30) (timeInput 6 15)
      + computeHours (timeInput 6 15) (timeInput 22 30))%float = 24%float.
Proof.
  destruct (computeHours_within_a_day 22 30 6 15) as (Hlow & Hhigh & Hsum);
    try lia.
  split; [exact Hlow|]. split; [exact Hhigh|]. apply Hsum. discriminate.
Defined.

Lemma hoursToFixed_checked `{Host} :
  forallb (fun d => (hoursToFixed (Z2float d / 60) =? fixed2 (hundredths d))%string)
          day_minutes
  = true.
Proof. vm_compute. reflexivity. Qed.

(** X3. For the hours between two well-formed times, [hoursToFixed]
    writes the elapsed minutes as hours rounded to the nearest hundredth:
    the whole hours, a point and two digits. *)
Theorem hoursToFixed_computeHours `{Host} (h1 m1 h2 m2 : nat) :
  (h1 < 24)%nat -> (m1 < 60)%nat -> (h2 < 24)%nat -> (m2 < 60)%nat ->
  hoursToFixed (computeHours (timeInput h1 m1) (timeInput h2 m2))
  = fixed2 (hundredths (elapsed (minutes h1 m1) (minutes h2 m2))).
Proof.
  intros H1 H2 H3 H4. rewrite computeHours_timeInput by assumption.
  apply String.eqb_eq.
  apply (forallb_In _ _ hoursToFixed_checked).
  apply elapsed_in_day; now apply in_day_minutes.
Qed.

Lemma hoursToFixed_computeHours_witness :
  @hoursToFixed sample_host (computeHours (timeInput 22 30) (timeInput 6 15))
  = "7.75".
Proof. apply (@hoursToFixed_computeHours sample_host 22 30 6 15); lia. Defined.

(** * The calculator: texts that are not times *)

Lemma add_nan_r (x : float) : (x + nan)%float = nan.
Proof.
  apply Prim2SF_inj. rewrite FloatAxioms.add_spec.
  change (Prim2SF nan) with S754_nan.
  destruct (Prim2SF x) as [[]|[]| |]; reflexivity.
Qed.

Lemma add_nan_l (x : float) : (nan + x)%float = nan.
Proof.
  apply Prim2SF_inj. rewrite FloatAxioms.add_spec. reflexivity.
Qed.

Lemma sub_nan_r (x : float) : (x - nan)%float = nan.
Proof.
  apply Prim2SF_inj. rewrite FloatAxioms.sub_spec.
  change (Prim2SF nan) with S754_nan.
  destruct (Prim2SF x) as [[]|[]| |]; reflexivity.
Qed.

Lemma sub_nan_l (x : float) : (nan - x)%float = nan.
Proof.
  apply Prim2SF_inj. rewrite FloatAxioms.sub_spec. reflexivity.
Qed.

Lemma split_without (c : ascii) (s : string) :
  occurs c s = false -> split c s = [s].
Proof.
  induction s as [|d s IH]; simpl; [reflexivity|].
  intro E. apply orb_false_elim in E as [Ed Es].
  rewrite Ed, (IH Es). reflexivity.
Qed.

Lemma timeToMinutes_without_colon (t : string) :
  occurs ":" t = false -> timeToMinutes t = nan.
Proof.
  intro E. unfold timeToMinutes. rewrite (split_without _ _ E).
  cbn [map]. apply add_nan_r.
Qed.

(** X4. A text without a colon is no time: [timeToMinutes] makes it
    [NaN], and [computeHours] returns [NaN] as soon as one of its two
    arguments is such a text, whatever the other one is; it does not
    throw. *)
Theorem computeHours_without_colon (timeIn timeOut : string) :
  occurs ":" timeIn = false \/ occurs ":" timeOut = false ->
  computeHours timeIn timeOut = nan.
Proof.
  intro E. unfold computeHours.
  assert (Hdiff : (timeToMinutes timeOut - timeToMinutes timeIn)%float = nan).
  { destruct E as [E|E]; rewrite (timeToMinutes_without_colon _ E).
    - apply sub_nan_r.
    - apply sub_nan_l. }
  rewrite Hdiff. reflexivity.
Qed.

Lemma computeHours_without_colon_witness :
  computeHours "9am" "17:00" = nan /\ computeHours "09:00" "" = nan.
Proof.
  split.
  - apply (computeHours_without_colon "9am" "17:00"). left. reflexivity.
  - apply (computeHours_without_colon "09:00" ""). right. reflexivity.
Defined.

Lemma split_at (c : ascii) (a rest : string) :
  occurs c a = false -> split c (a ++ String c rest) = a :: split c rest.
Proof.
  induction a as [|d a IH]; cbn [occurs append split].
  - intros _. now rewrite Ascii.eqb_refl.
  - intro E. apply orb_false_elim in E as [Ed Ea].
    now rewrite Ed, (IH Ea).
Qed.

(** X5. [timeToMinutes] reads the text before the first colon and the
    text between the first and the second colon, each as [Number] reads
    it; whatever follows a second colon (seconds, for instance) is left
    out. *)
Theorem timeToMinutes_parts (hh mm more : string) :
  occurs ":" hh = false -> occurs ":" mm = false ->
  timeToMinutes (hh ++ ":" ++ mm)
  = (StringToNumber hh * 60 + StringToNumber mm)%float
  /\ timeToMinutes (hh ++ ":" ++ mm ++ ":" ++ more)
     = timeToMinutes (hh ++ ":" ++ mm).
Proof.
  intros Hh Hm. unfold timeToMinutes.
  change (hh ++ ":" ++ mm)%string with (hh ++ String ":" mm)%string.
  change (hh ++ ":" ++ mm ++ ":" ++ more)%string
    with (hh ++ String ":" (mm ++ String ":" more))%string.
  rewrite !(split_at _ hh _ Hh), (split_at _ mm _ Hm), (split_without _ mm Hm).
  split; reflexivity.
Qed.

Lemma timeToMinutes_parts_witness :
  timeToMinutes ("09" ++ ":" ++ "30")
  = (StringToNumber "09" * 60 + StringToNumber "30")%float
  /\ timeToMinutes ("09" ++ ":" ++ "30" ++ ":" ++ "45")
     = timeToMinutes ("09" ++ ":" ++ "30").
Proof. apply (timeToMinutes_parts "09" "30" "45"); reflexivity. Defined.

(** * The view: how the totals are made *)

Lemma entryHours_spec (e : JsVal) :
  entryHours e = if timed e then Returns (hours_of e) else Throws.
Proof.
  unfold entryHours, timed, hours_of, field.
  destruct (Get e KtimeIn) as [a| |] eqn:Ha; cbn [bind].
  - assert (Hn : nullish e = false).
    { destruct e; try reflexivity; discriminate Ha. }
    rewrite (Get_field e KtimeOut Hn). cbn [bind].
    unfold computeHours_of. unfold field.
    destruct a; try reflexivity.
    destruct (Get e KtimeOut) as [b| |]; try reflexivity.
    destruct b; reflexivity.
  - reflexivity.
  - destruct e; discriminate Ha.
Qed.

Lemma timed_defined (e : JsVal) : timed e = true -> nullish e = false.
Proof. destruct e; try reflexivity; discriminate. Qed.

(** A value that is not truthy is a primitive value, which converts. *)
Lemma stringable_or_empty (v : JsVal) :
  stringable (if ToBoolean v then v else VStr "") = stringable v.
Proof.
  destruct v as [| |b|f|s|elems|props|]; try reflexivity.
  - now destruct b.
  - cbn [ToBoolean]. now destruct (negb _).
  - cbn [ToBoolean]. now destruct (negb _).
Qed.

(** Once [computeHours] has returned the two times are strings, and only
    the employee and the notes can make a cell throw. *)
Lemma rowCells_spec (e : JsVal) :
  timed e = true ->
  rowCells e = if celled e then Returns tt else Throws.
Proof.
  intro Ht. pose proof (timed_defined e Ht) as Hn.
  unfold rowCells, celled, assignable.
  rewrite !(Get_field e) by exact Hn. cbn [bind].
  destruct (stringable (field e Kemployee)); cbn [bind andb]; [|reflexivity].
  unfold timed in Ht.
  destruct (field e KtimeIn); try discriminate Ht.
  destruct (field e KtimeOut); try discriminate Ht.
  cbn [stringable bind]. now rewrite stringable_or_empty.
Qed.

(** [stringable] tells whether [String(v)] returns, wherever [ToString]
    models the conversion. *)
Lemma stringable_ToString `{Host} (v : JsVal) :
  match ToString v with
  | Returns _ => stringable v = true
  | Throws => stringable v = false
  | Unmodelled => True
  end.
Proof.
  induction v as [| |b|f|s|elems IH|props _|] using JsVal_nested_ind;
    try reflexivity; try exact I.
  - now destruct b.
  - cbn [ToString stringable].
    match goal with
    | |- match bind (?each elems) _ with _ => _ end =>
        set (conv := each)
    end.
    match goal with
    | |- context [?all elems = true] => set (ok := all)
    end.
    assert (Haux : match conv elems with
                   | Returns _ => ok elems = true
                   | Throws => ok elems = false
                   | Unmodelled => True
                   end).
    { induction IH as [|x l Hx _ IHl]; [reflexivity|].
      change (conv (x :: l))
        with (s <- match x with
                   | VUndefined | VNull => Returns ""%string
                   | _ => ToString x
                   end ;;
              ss <- conv l ;; Returns (s :: ss)).
      change (ok (x :: l)) with (stringable x && ok l).
      assert (Hx' : match match x with
                          | VUndefined | VNull => Returns ""%string
                          | _ => ToString x
                          end with
                    | Returns _ => stringable x = true
                    | Throws => stringable x = false
                    | Unmodelled => True
                    end).
      { destruct x; try exact Hx; reflexivity. }
      destruct (match x with VUndefined | VNull => _ | _ => _ end);
        cbn [bind]; [|now rewrite Hx'|exact I].
      rewrite Hx'. cbn [andb].
      destruct (conv l); cbn [bind]; exact IHl. }
    destruct (conv elems); cbn [bind]; exact Haux.
  - cbn [ToString stringable].
    destruct (own "toString" props) as [[]|]; try reflexivity; try exact I;
      destruct (own "valueOf" props) as [[]|]; try reflexivity; exact I.
Qed.

Lemma sumHours_spec (rows : list JsVal) :
  forall acc,
    sumHours acc rows
    = if forallb (fun e => timed e && celled e) rows
      then Returns (fold_left PrimFloat.add (map hours_of rows) acc)
      else Throws.
Proof.
  induction rows as [|e rows IH]; intro acc; [reflexivity|].
  cbn [sumHours forallb map fold_left]. rewrite entryHours_spec.
  destruct (timed e) eqn:Ht; cbn [bind andb]; [|reflexivity].
  rewrite (rowCells_spec e Ht).
  destruct (celled e); cbn [bind andb]; [apply IH|reflexivity].
Qed.

Lemma dayTotal_spec (day : string) (entries : list JsVal) :
  dayTotal day entries
  = if existsb nullish entries then Throws
    else if forallb (fun e => timed e && celled e) (filter (day_is day) entries)
         then Returns (fold_left PrimFloat.add
                         (map hours_of (filter (day_is day) entries)) 0%float)
         else Throws.
Proof.
  unfold dayTotal. rewrite dayEntries_spec.
  destruct (existsb nullish entries); [reflexivity|].
  cbn [bind]. apply sumHours_spec.
Qed.

Lemma dayTotal_modelled (day : string) (entries : list JsVal) :
  dayTotal day entries <> Unmodelled.
Proof.
  rewrite dayTotal_spec.
  destruct (existsb nullish entries); [discriminate|].
  destruct (forallb _ (filter _ _)); discriminate.
Qed.

Lemma sumDays_cons (entries : list JsVal) (day : string) (rest : list string)
    (perDay : list (string * float)) (weekly : float) :
  sumDays (day :: rest) entries perDay weekly
  = (t <- dayTotal day entries ;;
     sumDays rest entries (perDay ++ [(day, t)]) (weekly + t)%float).
Proof.
  cbn [sumDays]. unfold dayTotal.
  destruct (dayEntries day entries) as [rows| |]; cbn [bind]; try reflexivity.
Qed.

(** The loop over the days returns exactly when the total of every day
    is computed; it then lists the totals in the order of the days and
    adds them up in that order. *)
Lemma sumDays_spec (entries : list JsVal) (days : list string) :
  forall perDay weekly,
    match sumDays days entries perDay weekly with
    | Returns (perDay', weekly') =>
        exists totals,
          Forall2 (fun d t => dayTotal d entries = Returns t) days totals
          /\ perDay' = perDay ++ combine days totals
          /\ weekly' = fold_left PrimFloat.add totals weekly
    | Throws => exists d, In d days /\ dayTotal d entries = Throws
    | Unmodelled => False
    end.
Proof.
  induction days as [|day rest IH]; intros perDay weekly.
  - cbn [sumDays]. exists []. split; [constructor|].
    split; [now rewrite app_nil_r|reflexivity].
  - rewrite sumDays_cons.
    destruct (dayTotal day entries) as [t| |] eqn:Ht; cbn [bind].
    + specialize (IH (perDay ++ [(day, t)]) (weekly + t)%float).
      destruct (sumDays rest entries (perDay ++ [(day, t)]) (weekly + t)%float)
        as [[perDay' weekly']| |].
      * destruct IH as (totals & Hall & -> & ->).
        exists (t :: totals). split; [now constructor|].
        split; [now rewrite <- app_assoc|reflexivity].
      * destruct IH as (d & Hd & Hthrows). exists d. split; [now right|exact Hthrows].
      * exact IH.
    + exists day. split; [now left|exact Ht].
    + now apply dayTotal_modelled in Ht.
Qed.

Lemma Forall2_combine_fst {A B} (R : A -> B -> Prop) (l : list A) (l' : list B) :
  Forall2 R l l' ->
  map fst (combine l l') = l /\ map snd (combine l l') = l'
  /\ Forall (fun ab => R (fst ab) (snd ab)) (combine l l').
Proof.
  induction 1 as [|a b l l' Hab _ (IH1 & IH2 & IH3)]; simpl.
  - repeat split. constructor.
  - rewrite IH1, IH2. repeat split. now constructor.
Qed.

(** X6. When [render] has computed its totals, they are, in the order of
    [DAYS], one per weekday, each the total of that day's rows, and the
    weekly total is their sum, added up from Monday to Sunday starting at
    zero. *)
Theorem aggregate_weekly (entries : list JsVal)
    (perDay : list (string * float)) (weekly : float) :
  aggregate entries = Returns (perDay, weekly) ->
  map fst perDay = DAYS
  /\ Forall (fun dt => dayTotal (fst dt) entries = Returns (snd dt)) perDay
  /\ weekly = fold_left PrimFloat.add (map snd perDay) 0%float.
Proof.
  intro Hagg. pose proof (sumDays_spec entries DAYS [] 0%float) as Hspec.
  unfold aggregate in Hagg. rewrite Hagg in Hspec.
  destruct Hspec as (totals & Hall & -> & ->). cbn [app].
  destruct (Forall2_combine_fst _ _ _ Hall) as (H1 & H2 & H3).
  rewrite H1, H2. auto.
Qed.

Lemma aggregate_weekly_witness :
  map fst [("Monday", 8%float); ("Tuesday", 8%float); ("Wednesday", 0%float);
           ("Thursday", 0%float); ("Friday", 0%float); ("Saturday", 0%float);
           ("Sunday", 0%float)] = DAYS
  /\ Forall (fun dt => dayTotal (fst dt) [ann_saved; bob_saved] = Returns (snd dt))
       [("Monday", 8%float); ("Tuesday", 8%float); ("Wednesday", 0%float);
        ("Thursday", 0%float); ("Friday", 0%float); ("Saturday", 0%float);
        ("Sunday", 0%float)]
  /\ 16%float
     = fold_left PrimFloat.add
         (map snd [("Monday", 8%float); ("Tuesday", 8%float); ("Wednesday", 0%float);
                   ("Thursday", 0%float); ("Friday", 0%float); ("Saturday", 0%float);
                   ("Sunday", 0%float)]) 0%float.
Proof. apply (aggregate_weekly [ann_saved; bob_saved]). reflexivity. Defined.

Lemma fold_add_nan_acc (l : list float) : fold_left PrimFloat.add l nan = nan.
Proof.
  induction l as [|x l IH]; [reflexivity|].
  cbn [fold_left]. now rewrite add_nan_l.
Qed.

Lemma fold_add_nan (l : list float) (acc : float) :
  In nan l -> fold_left PrimFloat.add l acc = nan.
Proof.
  revert acc. induction l as [|x l IH]; intros acc Hin; [destruct Hin|].
  cbn [fold_left]. destruct Hin as [->|Hin].
  - rewrite add_nan_r. apply fold_add_nan_acc.
  - now apply IH.
Qed.

Lemma weekday_day_is (e : JsVal) :
  on_weekday e = true <-> exists d, In d DAYS /\ day_is d e = true.
Proof.
  unfold on_weekday, includes, day_is. rewrite existsb_exists. reflexivity.
Qed.

Lemma Forall2_In_combine {A B} (R : A -> B -> Prop) (l : list A) (l' : list B)
    (a : A) (b : B) :
  Forall2 R l l' -> In a l -> (forall t, R a t -> t = b) ->
  In (a, b) (combine l l').
Proof.
  intros Hall Hin Hb. induction Hall as [|x y l l' Hxy _ IH]; [destruct Hin|].
  destruct Hin as [->|Hin].
  - left. f_equal. now apply Hb.
  - right. now apply IH.
Qed.

(** X7. One entry tagged with a weekday whose time in or time out is a
    string without a colon makes the total of its day [NaN], and the
    weekly total with it, whatever the other entries are, whenever the
    totals are computed; what [hoursToFixed] then makes of the weekly total
    is the host's text for [NaN]. *)
Theorem aggregate_not_a_time (entries : list JsVal) (e : JsVal)
    (day timeIn timeOut : string)
    (perDay : list (string * float)) (weekly : float) :
  In e entries -> In day DAYS ->
  field e Kday = VStr day ->
  field e KtimeIn = VStr timeIn -> field e KtimeOut = VStr timeOut ->
  occurs ":" timeIn = false \/ occurs ":" timeOut = false ->
  aggregate entries = Returns (perDay, weekly) ->
  In (day, nan) perDay /\ weekly = nan
  /\ forall host : Host, @hoursToFixed host weekly = @Number_toString host nan.
Proof.
  intros Hin Hday Hd Hi Ho Hcolon Hagg.
  pose proof (sumDays_spec entries DAYS [] 0%float) as Hspec.
  unfold aggregate in Hagg. rewrite Hagg in Hspec.
  destruct Hspec as (totals & Hall & -> & ->). cbn [app].
  assert (Hnan : dayTotal day entries = Returns nan \/ dayTotal day entries = Throws).
  { rewrite dayTotal_spec. destruct (existsb nullish entries); [now right|].
    destruct (forallb _ (filter _ _)); [left|now right]. f_equal.
    apply fold_add_nan. apply in_map_iff. exists e. split.
    - unfold hours_of. rewrite Hi, Ho. now apply computeHours_without_colon.
    - apply filter_In. split; [exact Hin|].
      unfold day_is. rewrite Hd. simpl. apply String.eqb_refl. }
  assert (Hpair : In (day, nan) (combine DAYS totals)).
  { apply (Forall2_In_combine _ _ _ _ _ Hall Hday).
    intros t Ht. destruct Hnan as [Hnan|Hnan]; rewrite Hnan in Ht;
      [now injection Ht as <-|discriminate Ht]. }
  assert (Hweekly : fold_left PrimFloat.add totals 0%float = nan).
  { apply fold_add_nan. apply (in_combine_r _ _ _ _ Hpair). }
  split; [exact Hpair|]. split; [exact Hweekly|].
  intro host. rewrite Hweekly. reflexivity.
Qed.

Lemma aggregate_not_a_time_witness :
  In ("Monday", nan)
     [("Monday", nan); ("Tuesday", 8%float); ("Wednesday", 0%float);
      ("Thursday", 0%float); ("Friday", 0%float); ("Saturday", 0%float);
      ("Sunday", 0%float)]
  /\ nan = nan
  /\ forall host : Host, @hoursToFixed host nan = @Number_toString host nan.
Proof.
  apply (aggregate_not_a_time [monday_shift "5pm"; bob_saved]
           (monday_shift "5pm") "Monday" "09:00" "5pm").
  - now left.
  - now left.
  - reflexivity.
  - reflexivity.
  - reflexivity.
  - right. reflexivity.
  - reflexivity.
Defined.

Lemma filter_filter_implied {A} (f g : A -> bool) (l : list A) :
  (forall x, f x = true -> g x = true) ->
  filter f (filter g l) = filter f l.
Proof.
  intro Himp. induction l as [|x l IH]; [reflexivity|].
  cbn [filter]. destruct (g x) eqn:Hg.
  - cbn [filter]. now rewrite IH.
  - destruct (f x) eqn:Hf; [|exact IH].
    apply Himp in Hf. congruence.
Qed.

Lemma existsb_filter_false {A} (f g : A -> bool) (l : list A) :
  existsb f l = false -> existsb f (filter g l) = false.
Proof.
  induction l as [|x l IH]; [reflexivity|].
  cbn [existsb filter]. intro E. apply orb_false_elim in E as [Ex El].
  destruct (g x); cbn [existsb]; [rewrite Ex|]; now apply IH.
Qed.

(** X8. An entry whose day is not one of the seven labels is in no row
    and in no total: when no entry is [undefined] or [null], [render]
    computes from the whole list what it computes from the entries tagged
    with a weekday alone. *)
Theorem aggregate_weekdays_only (entries : list JsVal) :
  existsb nullish entries = false ->
  aggregate (filter on_weekday entries) = aggregate entries.
Proof.
  intro Hdef. unfold aggregate. apply sumDays_ext.
  intros day Hday. rewrite !dayEntries_spec, Hdef.
  rewrite (existsb_filter_false _ _ _ Hdef). f_equal.
  apply filter_filter_implied. intros e He.
  apply weekday_day_is. now exists day.
Qed.

Lemma aggregate_weekdays_only_witness :
  aggregate (filter on_weekday
               [ann_saved; VObj [("day", VStr "Funday"); ("timeIn", VNum 9)];
                bob_saved])
  = aggregate [ann_saved; VObj [("day", VStr "Funday"); ("timeIn", VNum 9)];
               bob_saved].
Proof. apply aggregate_weekdays_only. reflexivity. Defined.

Lemma forallb_filter_days (g : JsVal -> bool) (entries : list JsVal) :
  forallb (fun d => forallb g (filter (day_is d) entries)) DAYS
  = forallb (fun e => negb (on_weekday e) || g e) entries.
Proof.
  apply eq_true_iff_eq. rewrite !forallb_forall. split.
  - intros Hall e Hin. destruct (on_weekday e) eqn:Hw; [|reflexivity].
    apply weekday_day_is in Hw as (d & Hd & Hde).
    specialize (Hall d Hd). rewrite forallb_forall in Hall.
    apply Hall, filter_In. now split.
  - intros Hall d Hd. apply forallb_forall. intros e Hin.
    apply filter_In in Hin as [Hin Hde].
    specialize (Hall e Hin).
    assert (Hw : on_weekday e = true) by (apply weekday_day_is; now exists d).
    now rewrite Hw in Hall.
Qed.

Lemma sumDays_outcome (entries : list JsVal) (days : list string) :
  forall perDay weekly,
    if forallb (fun d => match dayTotal d entries with
                         | Returns _ => true
                         | _ => false
                         end) days
    then exists r, sumDays days entries perDay weekly = Returns r
    else sumDays days entries perDay weekly = Throws.
Proof.
  induction days as [|day rest IH]; intros perDay weekly.
  - cbn. eexists. reflexivity.
  - rewrite sumDays_cons. cbn [forallb].
    destruct (dayTotal day entries) as [t| |] eqn:Ht; cbn [bind andb].
    + apply IH.
    + reflexivity.
    + now apply dayTotal_modelled in Ht.
Qed.

Lemma aggregate_rendered (entries : list JsVal) :
  if forallb rendered entries
  then exists r, aggregate entries = Returns r
  else aggregate entries = Throws.
Proof.
  assert (Hsame : forallb (fun d => match dayTotal d entries with
                                    | Returns _ => true
                                    | _ => false
                                    end) DAYS
                  = forallb rendered entries).
  { transitivity (negb (existsb nullish entries)
                  && forallb (fun d => forallb (fun e => timed e && celled e)
                                               (filter (day_is d) entries)) DAYS).
    - destruct (existsb nullish entries) eqn:Hn; cbn [negb andb].
      + unfold DAYS. cbn [forallb]. now rewrite dayTotal_spec, Hn.
      + induction DAYS as [|d ds IH]; [reflexivity|].
        cbn [forallb]. rewrite IH, dayTotal_spec, Hn.
        now destruct (forallb (fun e => timed e && celled e)
                              (filter (day_is d) entries)).
    - rewrite forallb_filter_days. unfold rendered.
      induction entries as [|e l IH]; [reflexivity|].
      cbn [existsb forallb]. rewrite <- IH.
      destruct (nullish e), (existsb nullish l),
        (negb (on_weekday e) || timed e && celled e); reflexivity. }
  rewrite <- Hsame. exact (sumDays_outcome entries DAYS [] 0%float).
Qed.

Lemma rendered_all (entries : list JsVal) :
  forallb rendered entries = true
  <-> Forall (fun e => nullish e = false
                       /\ (on_weekday e = true ->
                           timed e = true
                           /\ stringable (field e Kemployee) = true
                           /\ stringable (field e Knotes) = true)) entries.
Proof.
  rewrite forallb_forall, Forall_forall. unfold rendered, celled.
  split; intros Hall e Hin; specialize (Hall e Hin).
  - apply andb_prop in Hall as [Hn Hw]. apply negb_true_iff in Hn.
    split; [exact Hn|]. intro Hday. rewrite Hday in Hw. cbn [negb orb] in Hw.
    apply andb_prop in Hw as [Ht Hc]. apply andb_prop in Hc as [He Hno].
    auto.
  - destruct Hall as [-> Hw]. cbn [negb andb].
    destruct (on_weekday e); [|reflexivity].
    destruct (Hw eq_refl) as (-> & -> & ->). reflexivity.
Qed.

Lemma rendered_some (entries : list JsVal) :
  forallb rendered entries = false
  <-> exists e, In e entries
                /\ (nullish e = true
                    \/ (on_weekday e = true
                        /\ (timed e = false
                            \/ stringable (field e Kemployee) = false
                            \/ stringable (field e Knotes) = false))).
Proof.
  split.
  - induction entries as [|e l IH]; intro Hf; [discriminate Hf|].
    cbn [forallb] in Hf. apply andb_false_elim in Hf as [Hf|Hf].
    + exists e. split; [now left|]. unfold rendered, celled in Hf.
      destruct (nullish e); [now left|]. right.
      destruct (on_weekday e); [|discriminate Hf]. split; [reflexivity|].
      destruct (timed e); [|now left]. right.
      destruct (stringable (field e Kemployee)); [|now left]. right.
      destruct (stringable (field e Knotes)); [discriminate Hf|reflexivity].
    + destruct (IH Hf) as (x & Hin & Hx). exists x. split; [now right|exact Hx].
  - intros (e & Hin & Hbad). apply not_true_is_false. intro Ht.
    rewrite forallb_forall in Ht. specialize (Ht e Hin).
    unfold rendered, celled in Ht. destruct Hbad as [Hn|[Hw Hbad]].
    + now rewrite Hn in Ht.
    + rewrite Hw in Ht. destruct Hbad as [Hb|[Hb|Hb]]; rewrite Hb in Ht;
        cbn [negb orb andb] in Ht; rewrite ?andb_false_r in Ht;
        discriminate Ht.
Qed.

(** X9. The loops of [render] get to the end exactly when every entry is
    neither [undefined] nor [null] and every entry tagged with a weekday
    has strings for time in and time out and an employee and notes that
    convert to strings; otherwise they throw (reading [.day] of [null],
    calling [split] on a value that is no string, or writing into a cell a
    value that does not convert), and [render] throws with the page left as
    it is.  An entry tagged with no weekday may hold anything. *)
Theorem aggregate_outcome (entries : list JsVal) :
  ((exists r, aggregate entries = Returns r)
   <-> Forall (fun e => nullish e = false
                        /\ (on_weekday e = true ->
                            timed e = true
                            /\ stringable (field e Kemployee) = true
                            /\ stringable (field e Knotes) = true)) entries)
  /\ (aggregate entries = Throws
      <-> exists e, In e entries
                    /\ (nullish e = true
                        \/ (on_weekday e = true
                            /\ (timed e = false
                                \/ stringable (field e Kemployee) = false
                                \/ stringable (field e Knotes) = false))))
  /\ (forall p, entries_of (state p) = Returns entries ->
        aggregate entries = Throws -> render p = (p, Throws)).
Proof.
  pose proof (aggregate_rendered entries) as Hout.
  pose proof (rendered_all entries) as Hall.
  pose proof (rendered_some entries) as Hsome.
  split; [|split].
  - rewrite <- Hall. destruct (forallb rendered entries).
    + split; [reflexivity|intros _; exact Hout].
    + split; [|discriminate]. intros [r Hr]. congruence.
  - rewrite <- Hsome. destruct (forallb rendered entries).
    + destruct Hout as [r Hr]. split; [congruence|discriminate].
    + split; [reflexivity|intros _; exact Hout].
  - intros p HE Hthrows. unfold render.
    rewrite hbind_getState, HE, hbind_returns.
    unfold hbind, lift. now rewrite Hthrows.
Qed.

(** * The store: how the handlers compose *)

Lemma set_own_twice (k : string) (x y : JsVal) (props : list (string * JsVal)) :
  set_own k x (set_own k y props) = set_own k x props.
Proof.
  induction props as [|[k' v] rest IH]; simpl.
  - now rewrite String.eqb_refl.
  - destruct (k' =? k) eqn:E; simpl; rewrite E; [reflexivity|now rewrite IH].
Qed.

Lemma set_entries_twice (st : JsVal) (l l' : list JsVal) :
  set_entries (set_entries st l) l' = set_entries st l'.
Proof. destruct st; try reflexivity. simpl. now rewrite set_own_twice. Qed.

Lemma onSubmit_run `{Host} (fields : Form.t) (id createdAt : string)
    (p : Page) (E : list JsVal) :
  entries_of (state p) = Returns E ->
  trim (Form.employee fields) <> "" ->
  Form.timeIn fields <> "" -> Form.timeOut fields <> "" ->
  exists out,
    onSubmit fields id createdAt p
    = (mkPage (set_entries (state p) (E ++ [new_entry fields id createdAt]))
              (Some (stored_text
                       (set_entries (state p) (E ++ [new_entry fields id createdAt]))))
              (shown p),
       out).
Proof.
  intros HE He Hi Ho. unfold onSubmit. cbn [ToBoolean].
  apply String.eqb_neq in He, Hi, Ho. rewrite He, Hi, Ho. cbn [negb orb].
  unfold addEntry. rewrite hbind_getState, HE, hbind_returns.
  apply (commit_page (set_entries (state p) (E ++ [new_entry fields id createdAt])) p).
Qed.

(** X10. A submission with an employee name that is not blank, a time in
    and a time out appends one entry behind the entries of the document,
    which stay as they are; the entry holds the given id and date, the
    employee and the notes trimmed, and the day and the times as typed;
    the new state is what is stored, and no alert is shown. *)
Theorem onSubmit_appends `{Host} (fields : Form.t) (id createdAt : string)
    (p : Page) (E : list JsVal) :
  entries_of (state p) = Returns E ->
  trim (Form.employee fields) <> "" ->
  Form.timeIn fields <> "" -> Form.timeOut fields <> "" ->
  let p' := fst (onSubmit fields id createdAt p) in
  entries_of (state p')
  = Returns (E ++ [VObj [("id", VStr id);
                         ("employee", VStr (trim (Form.employee fields)));
                         ("day", VStr (Form.day fields));
                         ("timeIn", VStr (Form.timeIn fields));
                         ("timeOut", VStr (Form.timeOut fields));
                         ("notes", VStr (trim (Form.notes fields)));
                         ("createdAt", VStr createdAt)]])
  /\ localStorage p' = Some (stored_text (state p'))
  /\ shown p' = shown p.
Proof.
  intros HE He Hi Ho.
  destruct (onSubmit_run fields id createdAt p E HE He Hi Ho) as [out Hrun].
  cbv zeta. rewrite Hrun. cbn [fst state localStorage shown].
  split; [|split; reflexivity].
  eapply entries_of_set, HE.
Qed.

Lemma onSubmit_appends_witness :
  let p' := fst (@onSubmit sample_host (Form.mk " Cy " "Friday" "08:00" "12:30" " late ")
                   "k9" "2024-01-05T12:31:00.000Z" roster_page) in
  entries_of (state p')
  = Returns ([ann_saved; bob_saved]
             ++ [VObj [("id", VStr "k9"); ("employee", VStr "Cy");
                       ("day", VStr "Friday"); ("timeIn", VStr "08:00");
                       ("timeOut", VStr "12:30"); ("notes", VStr "late");
                       ("createdAt", VStr "2024-01-05T12:31:00.000Z")]])
  /\ localStorage p' = Some (@stored_text sample_host (state p'))
  /\ shown p' = shown roster_page.
Proof.
  apply (@onSubmit_appends sample_host
           (Form.mk " Cy " "Friday" "08:00" "12:30" " late ")
           "k9" "2024-01-05T12:31:00.000Z" roster_page [ann_saved; bob_saved]).
  - vm_compute. reflexivity.
  - vm_compute. discriminate.
  - discriminate.
  - discriminate.
Defined.

Lemma filter_other_id_app (id : string) (E : list JsVal) (e : JsVal) :
  (forall x, In x E -> id_is id x = false) -> id_is id e = true ->
  filter (other_id id) (E ++ [e]) = E.
Proof.
  intros Hfresh He. rewrite filter_app. cbn [filter]. unfold other_id at 2.
  rewrite He. cbn [negb]. rewrite app_nil_r. apply filter_all.
  intros x Hx. unfold other_id. now rewrite (Hfresh x Hx).
Qed.

(** X11. Deleting undoes adding: when no entry of the document has the
    id given to a new entry, a valid submission followed by the confirmed
    deletion of that id leaves the state as it was before the submission,
    and that state is what is stored. *)
Theorem add_then_delete `{Host} (fields : Form.t) (id createdAt : string)
    (p : Page) (E : list JsVal) :
  entries_of (state p) = Returns E ->
  Forall (fun e => nullish e = false) E ->
  (forall e, In e E -> id_is id e = false) ->
  trim (Form.employee fields) <> "" ->
  Form.timeIn fields <> "" -> Form.timeOut fields <> "" ->
  let p' := fst (deleteEntry id true (fst (onSubmit fields id createdAt p))) in
  state p' = state p /\ localStorage p' = Some (stored_text (state p)).
Proof.
  intros HE Hdef Hfresh He Hi Ho.
  destruct (onSubmit_run fields id createdAt p E HE He Hi Ho) as [out Hrun].
  cbv zeta. rewrite Hrun. cbn [fst].
  set (p1 := mkPage _ _ _).
  assert (HE1 : entries_of (state p1) = Returns (E ++ [new_entry fields id createdAt])).
  { unfold p1. cbn [state]. eapply entries_of_set, HE. }
  assert (Hdef1 : Forall (fun e => nullish e = false)
                         (E ++ [new_entry fields id createdAt])).
  { apply Forall_app. split; [exact Hdef|]. now repeat constructor. }
  destruct (deleteEntry_run id p1 _ HE1 Hdef1) as [out' Hdel].
  rewrite Hdel. cbn [fst state localStorage].
  rewrite filter_other_id_app.
  - unfold p1. cbn [state]. rewrite set_entries_twice.
    rewrite (set_entries_same _ _ HE). now split.
  - exact Hfresh.
  - unfold new_entry, id_is. cbn. apply String.eqb_refl.
Qed.

Lemma add_then_delete_witness :
  let p' := fst (@deleteEntry sample_host "k9" true
                   (fst (@onSubmit sample_host
                           (Form.mk " Cy " "Friday" "08:00" "12:30" " late ")
                           "k9" "2024-01-05T12:31:00.000Z" roster_page))) in
  state p' = state roster_page
  /\ localStorage p' = Some (@stored_text sample_host (state roster_page)).
Proof.
  apply (@add_then_delete sample_host
           (Form.mk " Cy " "Friday" "08:00" "12:30" " late ")
           "k9" "2024-01-05T12:31:00.000Z" roster_page [ann_saved; bob_saved]).
  - vm_compute. reflexivity.
  - repeat constructor.
  - intros e [<-|[<-|[]]]; reflexivity.
  - vm_compute. discriminate.
  - discriminate.
  - discriminate.
Defined.

Lemma filter_comm {A} (f g : A -> bool) (l : list A) :
  filter f (filter g l) = filter g (filter f l).
Proof.
  induction l as [|x l IH]; [reflexivity|].
  cbn [filter]. destruct (f x) eqn:Hf, (g x) eqn:Hg; cbn [filter];
    rewrite ?Hf, ?Hg, IH; reflexivity.
Qed.

Lemma filter_idem {A} (f : A -> bool) (l : list A) :
  filter f (filter f l) = filter f l.
Proof.
  apply filter_all. intros x Hx. now apply filter_In in Hx as [_ Hx].
Qed.

Lemma Forall_filter {A} (P : A -> Prop) (f : A -> bool) (l : list A) :
  Forall P l -> Forall P (filter f l).
Proof.
  intro Hall. apply Forall_forall. intros x Hx.
  apply filter_In in Hx as [Hx _]. rewrite Forall_forall in Hall. auto.
Qed.

Lemma deleteEntry_twice_state `{Host} (id id' : string) (p : Page)
    (E : list JsVal) :
  entries_of (state p) = Returns E ->
  Forall (fun e => nullish e = false) E ->
  state (fst (deleteEntry id true (fst (deleteEntry id' true p))))
  = set_entries (state p) (filter (other_id id) (filter (other_id id') E)).
Proof.
  intros HE Hdef.
  destruct (deleteEntry_run id' p E HE Hdef) as [out Hrun]. rewrite Hrun.
  cbn [fst]. set (p1 := mkPage _ _ _).
  assert (HE1 : entries_of (state p1) = Returns (filter (other_id id') E)).
  { unfold p1. cbn [state]. eapply entries_of_set, HE. }
  destruct (deleteEntry_run id p1 _ HE1 (Forall_filter _ _ _ Hdef)) as [out' Hdel].
  rewrite Hdel. cbn [fst state]. unfold p1. cbn [state].
  apply set_entries_twice.
Qed.

(** X12. On a document whose entries are all defined, confirmed
    deletions can be repeated and reordered: deleting an id a second time
    changes nothing more, and deleting two ids leaves the same state in
    either order. *)
Theorem deleteEntry_composes `{Host} (id id' : string) (p : Page)
    (E : list JsVal) :
  entries_of (state p) = Returns E ->
  Forall (fun e => nullish e = false) E ->
  state (fst (deleteEntry id true (fst (deleteEntry id true p))))
  = state (fst (deleteEntry id true p))
  /\ state (fst (deleteEntry id true (fst (deleteEntry id' true p))))
     = state (fst (deleteEntry id' true (fst (deleteEntry id true p)))).
Proof.
  intros HE Hdef. rewrite !(deleteEntry_twice_state _ _ p E HE Hdef).
  destruct (deleteEntry_run id p E HE Hdef) as [out Hrun]. rewrite Hrun.
  cbn [fst state]. split.
  - now rewrite filter_idem.
  - now rewrite filter_comm.
Qed.

Lemma deleteEntry_composes_witness :
  state (fst (@deleteEntry sample_host "a1" true
                (fst (@deleteEntry sample_host "a1" true twice_page))))
  = state (fst (@deleteEntry sample_host "a1" true twice_page))
  /\ state (fst (@deleteEntry sample_host "a1" true
                   (fst (@deleteEntry sample_host "b2" true twice_page))))
     = state (fst (@deleteEntry sample_host "b2" true
                     (fst (@deleteEntry sample_host "a1" true twice_page)))).
Proof.
  apply (@deleteEntry_composes sample_host "a1" "b2" twice_page
           [ann_saved; bob_saved; ann_saved; bob_saved]).
  - vm_compute. reflexivity.
  - repeat constructor.
Defined.

(** * The store: clearing *)

(** X13. The clear button, once confirmed, replaces the state by the
    empty document whatever the state was, stores the text of the empty
    document, and [render] returns, writing [0.00] under every weekday and
    for the week; loading the stored text gives the empty document again.
    When the confirmation is declined nothing changes but the list of what
    was shown. *)
Theorem onClear_spec (toString : float -> string) (p : Page) :
  @onClear (browser toString) true p
  = (mkPage emptyDocument (Some empty_text)
            (shown p ++ [Confirm "This will delete ALL saved entries from this device. Continue?"]),
     Returns tt)
  /\ @totals_text (browser toString) []
     = Returns (map (fun day => (day, "0.00")) DAYS, "0.00")
  /\ @loadState (browser toString)
       (localStorage (fst (@onClear (browser toString) true p)))
     = Returns emptyDocument
  /\ @onClear (browser toString) false p
     = (mkPage (state p) (localStorage p)
               (shown p ++ [Confirm "This will delete ALL saved entries from this device. Continue?"]),
        Returns tt).
Proof. repeat split. Qed.

(** * The store: files the import refuses *)

(** X14. The import leaves the state and the stored item as they are and
    shows one alert when the file is not JSON, when it parses to [null]
    (reading [entries] throws), and when the parsed value has no array
    under [entries]: "Import failed" in the first two cases, "doesn't look
    like a timesheet export" in the third.  No confirmation is asked. *)
Theorem onImport_refuses `{Host} (text : string) (ok : bool)
    (uid now : nat -> string) (p : Page) :
  (JSON_parse text = None \/ JSON_parse text = Some VNull ->
   onImport (Some text) ok uid now p
   = (mkPage (state p) (localStorage p)
             (shown p ++ [Alert "Import failed. Make sure it's a valid JSON file."]),
      Returns tt))
  /\ (forall parsed,
        JSON_parse text = Some parsed -> parsed <> VNull -> parsed <> VUndefined ->
        (forall l, Get parsed Kentries <> Returns (VArr l)) ->
        onImport (Some text) ok uid now p
        = (mkPage (state p) (localStorage p)
                  (shown p ++ [Alert "That file doesn't look like a timesheet export."]),
           Returns tt)).
Proof.
  split.
  - intros [Hp|Hp]; unfold onImport, htry; rewrite Hp; reflexivity.
  - intros parsed Hp Hnull Hundef Hno. unfold onImport, htry.
    rewrite Hp, hbind_returns.
    destruct (Get parsed Kentries) as [pe| |] eqn:Hget.
    + rewrite hbind_returns.
      destruct pe; cbn [isArray negb]; rewrite ?orb_true_r; try reflexivity.
      exfalso. eapply Hno. reflexivity.
    + destruct parsed; try discriminate Hget; congruence.
    + destruct parsed; discriminate Hget.
Qed.

Lemma onImport_refuses_witness :
  @onImport sample_host (Some "{") true sample_uid sample_now roster_page
  = (mkPage (state roster_page) (localStorage roster_page)
            (shown roster_page
             ++ [Alert "Import failed. Make sure it's a valid JSON file."]),
     Returns tt)
  /\ @onImport sample_host (Some "[1,2]") true sample_uid sample_now roster_page
     = (mkPage (state roster_page) (localStorage roster_page)
               (shown roster_page
                ++ [Alert "That file doesn't look like a timesheet export."]),
        Returns tt).
Proof.
  split.
  - apply (proj1 (@onImport_refuses sample_host "{" true sample_uid sample_now
                    roster_page)).
    left. reflexivity.
  - apply (proj2 (@onImport_refuses sample_host "[1,2]" true sample_uid sample_now
                    roster_page) (VArr [VNum 1; VNum 2])).
    + vm_compute. reflexivity.
    + discriminate.
    + discriminate.
    + intros l. discriminate.
Defined.

(** * The store: an import that is saved and then reported as failed *)

Lemma commit_page_throws `{Host} (st' : JsVal) (l : list JsVal) (p : Page) :
  entries_of st' = Returns l -> forallb rendered l = false ->
  (setState st' ;;; saveState ;;; render) p
  = (mkPage st' (Some (stored_text st')) (shown p), Throws).
Proof.
  intros Hl Hbad.
  unfold hbind, setState, saveState, render, hbind, getState, setItem, lift,
    hret, stored_text. cbn [state localStorage shown]. rewrite Hl.
  pose proof (aggregate_rendered l) as Hout. rewrite Hbad in Hout.
  now rewrite Hout.
Qed.

(** X15. The import adds and saves before it renders.  When the file
    parses to a value with an array under [entries], the user confirms,
    and some entry of the merged document makes [render] throw (it is
    tagged with a weekday and its time in or time out is not a string), the
    listener ends with the alert "Import failed" although the state holds
    the old entries followed by the imported ones and the stored item is
    that state. *)
Theorem onImport_saved_then_failed `{Host} (text : string) (parsed : JsVal)
    (candidates cleaned : list JsVal) (uid now : nat -> string)
    (p : Page) (E : list JsVal) (e : JsVal) :
  JSON_parse text = Some parsed ->
  Get parsed Kentries = Returns (VArr candidates) ->
  entries_of (state p) = Returns E ->
  cleaned_of uid now candidates = Returns cleaned ->
  In e (E ++ cleaned) -> on_weekday e = true -> timed e = false ->
  onImport (Some text) true uid now p
  = (mkPage (set_entries (state p) (E ++ cleaned))
            (Some (stored_text (set_entries (state p) (E ++ cleaned))))
            (shown p ++ [Confirm (import_prompt (List.length cleaned));
                         Alert "Import failed. Make sure it's a valid JSON file."]),
     Returns tt).
Proof.
  intros Hparse Hget HE Hc Hin Hw Ht. unfold onImport, htry.
  rewrite Hparse, hbind_returns, Hget, hbind_returns.
  cbn [ToBoolean isArray negb orb elements].
  rewrite Hc, hbind_returns, hbind_confirm. cbn [negb].
  rewrite hbind_getState. cbn [state]. rewrite HE, hbind_returns.
  rewrite (commit_page_throws _ (E ++ cleaned)).
  - unfold alert. cbn [state localStorage shown]. now rewrite <- app_assoc.
  - eapply entries_of_set, HE.
  - apply not_true_is_false. intro Hall.
    rewrite forallb_forall in Hall. specialize (Hall e Hin).
    unfold rendered in Hall. rewrite Hw, Ht in Hall.
    cbn [negb orb andb] in Hall. now rewrite andb_false_r in Hall.
Qed.

Lemma onImport_saved_then_failed_witness :
  @onImport sample_host (Some overflow_text) true sample_uid sample_now first_page
  = (mkPage (set_entries emptyDocument
               ([] ++ [VObj [("id", VStr "k0"); ("employee", VStr "Ann");
                             ("day", VStr "Monday"); ("timeIn", VNum infinity);
                             ("timeOut", VStr "17:00"); ("notes", VStr "");
                             ("createdAt", VStr "2024-01-01T09:00:00.000Z")]]))
            (Some saved_overflow_text)
            [Confirm (import_prompt 1);
             Alert "Import failed. Make sure it's a valid JSON file."],
     Returns tt).
Proof.
  apply (@onImport_saved_then_failed sample_host overflow_text
           (VObj [("entries",
                   VArr [VObj [("employee", VStr "Ann"); ("day", VStr "Monday");
                               ("timeIn", VNum infinity);
                               ("timeOut", VStr "17:00")]])])
           [VObj [("employee", VStr "Ann"); ("day", VStr "Monday");
                  ("timeIn", VNum infinity); ("timeOut", VStr "17:00")]]
           [VObj [("id", VStr "k0"); ("employee", VStr "Ann");
                  ("day", VStr "Monday"); ("timeIn", VNum infinity);
                  ("timeOut", VStr "17:00"); ("notes", VStr "");
                  ("createdAt", VStr "2024-01-01T09:00:00.000Z")]]
           sample_uid sample_now first_page []
           (VObj [("id", VStr "k0"); ("employee", VStr "Ann");
                  ("day", VStr "Monday"); ("timeIn", VNum infinity);
                  ("timeOut", VStr "17:00"); ("notes", VStr "");
                  ("createdAt", VStr "2024-01-01T09:00:00.000Z")])).
  - vm_compute. reflexivity.
  - reflexivity.
  - reflexivity.
  - vm_compute. reflexivity.
  - now left.
  - reflexivity.
  - reflexivity.
Defined.

(** * Trimming *)

Lemma rev_string_acc (s acc : string) :
  rev_string acc s = (rev_string "" s ++ acc)%string.
Proof.
  revert acc. induction s as [|c s IH]; intro acc; [reflexivity|].
  cbn [rev_string]. rewrite (IH (String c acc)), (IH (String c "")).
  now rewrite append_assoc.
Qed.

Lemma rev_string_snoc (s : string) (c : ascii) :
  rev_string "" (s ++ String c "") = String c (rev_string "" s).
Proof.
  induction s as [|d s IH]; [reflexivity|].
  cbn [append rev_string].
  rewrite (rev_string_acc (s ++ String c "") (String d "")), IH.
  now rewrite (rev_string_acc s (String d "")).
Qed.

Lemma rev_string_involutive (s : string) :
  rev_string "" (rev_string "" s) = s.
Proof.
  induction s as [|c s IH]; [reflexivity|].
  cbn [rev_string]. rewrite (rev_string_acc s (String c "")), rev_string_snoc.
  now rewrite IH.
Qed.

(** The string does not begin with white space. *)
Lemma trimStart_clean (s : string) :
  match trimStart s with
  | EmptyString => True
  | String c _ => isWhiteSpace c = false
  end.
Proof.
  induction s as [|c s IH]; [exact I|].
  cbn [trimStart]. destruct (isWhiteSpace c) eqn:E; [exact IH|exact E].
Qed.

Lemma trimStart_fixed (s : string) :
  match s with
  | EmptyString => True
  | String c _ => isWhiteSpace c = false
  end ->
  trimStart s = s.
Proof. destruct s as [|c s]; [reflexivity|]. cbn [trimStart]. now intros ->. Qed.

Lemma trimStart_snoc (s : string) (c : ascii) :
  isWhiteSpace c = false ->
  exists u, trimStart (s ++ String c "") = (u ++ String c "")%string.
Proof.
  intro Hc. induction s as [|d s IH].
  - exists "". cbn. now rewrite Hc.
  - cbn [append trimStart]. destruct (isWhiteSpace d); [exact IH|].
    now exists (String d s).
Qed.

Lemma trimEnd_clean_start (s : string) :
  match s with
  | EmptyString => True
  | String c _ => isWhiteSpace c = false
  end ->
  match trimEnd s with
  | EmptyString => s = ""
  | String c _ => isWhiteSpace c = false
  end.
Proof.
  destruct s as [|c s]; [reflexivity|]. intro Hc. unfold trimEnd.
  cbn [rev_string]. rewrite (rev_string_acc s (String c "")).
  destruct (trimStart_snoc (rev_string "" s) c Hc) as [u ->].
  now rewrite rev_string_snoc.
Qed.

Lemma trimEnd_idempotent (s : string) : trimEnd (trimEnd s) = trimEnd s.
Proof.
  unfold trimEnd. rewrite rev_string_involutive.
  now rewrite (trimStart_fixed _ (trimStart_clean _)).
Qed.

Lemma trim_starts_clean (s : string) :
  match trim s with
  | EmptyString => True
  | String c _ => isWhiteSpace c = false
  end.
Proof.
  unfold trim. pose proof (trimEnd_clean_start _ (trimStart_clean s)) as H.
  destruct (trimEnd (trimStart s)); [exact I|exact H].
Qed.

Lemma trim_idempotent (s : string) : trim (trim s) = trim s.
Proof.
  unfold trim at 1. rewrite (trimStart_fixed _ (trim_starts_clean s)).
  unfold trim. apply trimEnd_idempotent.
Qed.





(** * The store: editing and submitting again *)

(** X17. Editing an entry that [addEntry] pushed and submitting the form
    as [editEntry] filled it puts the entry back with the same employee,
    day, times and notes, but behind all the other entries and under the
    id and the date of the second submission: it does not return to its
    place. *)
Theorem edit_then_resubmit `{Host} (fields : Form.t)
    (id createdAt id' createdAt' : string) (p : Page) (E : list JsVal) :
  entries_of (state p) = Returns E ->
  Forall (fun e => nullish e = false) E ->
  find (id_is id) E = Some (new_entry fields id createdAt) ->
  trim (Form.employee fields) <> "" ->
  Form.timeIn fields <> "" -> Form.timeOut fields <> "" ->
  let p1 := fst (editEntry id p) in
  let refilled := Form.mk (trim (Form.employee fields)) (Form.day fields)
                          (Form.timeIn fields) (Form.timeOut fields)
                          (trim (Form.notes fields)) in
  shown p1
  = shown p ++ [Prefill (mkDraft (VStr (Form.employee refilled))
                                 (VStr (Form.day refilled))
                                 (VStr (Form.timeIn refilled))
                                 (VStr (Form.timeOut refilled))
                                 (VStr (Form.notes refilled)))]
  /\ entries_of (state (fst (onSubmit refilled id' createdAt' p1)))
     = Returns (filter (other_id id) E ++ [new_entry fields id' createdAt']).
Proof.
  intros HE Hdef Hfind He Hi Ho. cbv zeta.
  assert (Hstr : forallb stringable
                   (draft_values (draft_of (new_entry fields id createdAt)))
                 = true).
  { unfold draft_of, new_entry, field, or_else. cbn.
    now destruct (trim (Form.notes fields)). }
  destruct (editEntry_found id p E _ HE Hdef Hfind Hstr) as [out Hrun].
  rewrite Hrun. cbn [fst shown]. split.
  - unfold draft_of, new_entry, field, or_else. cbn.
    now destruct (trim (Form.notes fields)).
  - set (p1 := mkPage _ _ _).
    set (refilled := Form.mk _ _ _ _ _).
    assert (HE1 : entries_of (state p1) = Returns (filter (other_id id) E)).
    { unfold p1. cbn [state]. eapply entries_of_set, HE. }
    destruct (onSubmit_run refilled id' createdAt' p1 _ HE1) as [out' Hsub].
    + unfold refilled. cbn [Form.employee]. now rewrite trim_idempotent.
    + exact Hi.
    + exact Ho.
    + rewrite Hsub. cbn [fst state].
      rewrite (entries_of_set _ _ _ HE1). do 2 f_equal.
      unfold new_entry, refilled.
      cbn [Form.employee Form.day Form.timeIn Form.timeOut Form.notes].
      now rewrite !trim_idempotent.
Qed.

Lemma edit_then_resubmit_witness :
  let p := fst (@onSubmit sample_host (Form.mk " Cy " "Friday" "08:00" "12:30" "")
                  "k9" "2024-01-05T12:31:00.000Z" first_page) in
  let p := fst (@onSubmit sample_host (Form.mk "Di" "Sunday" "10:00" "11:00" "x")
                  "k10" "2024-01-05T12:32:00.000Z" p) in
  let p1 := fst (@editEntry sample_host "k9" p) in
  shown p1
  = [Prefill (mkDraft (VStr "Cy") (VStr "Friday") (VStr "08:00") (VStr "12:30")
                      (VStr ""))]
  /\ entries_of (state (fst (@onSubmit sample_host
                               (Form.mk "Cy" "Friday" "08:00" "12:30" "")
                               "k11" "2024-01-05T12:33:00.000Z" p1)))
     = Returns [new_entry (Form.mk "Di" "Sunday" "10:00" "11:00" "x")
                          "k10" "2024-01-05T12:32:00.000Z";
                new_entry (Form.mk " Cy " "Friday" "08:00" "12:30" "")
                          "k11" "2024-01-05T12:33:00.000Z"].
Proof.
  apply (@edit_then_resubmit sample_host
           (Form.mk " Cy " "Friday" "08:00" "12:30" "")
           "k9" "2024-01-05T12:31:00.000Z" "k11" "2024-01-05T12:33:00.000Z"
           (fst (@onSubmit sample_host (Form.mk "Di" "Sunday" "10:00" "11:00" "x")
                   "k10" "2024-01-05T12:32:00.000Z"
                   (fst (@onSubmit sample_host
                           (Form.mk " Cy " "Friday" "08:00" "12:30" "")
                           "k9" "2024-01-05T12:31:00.000Z" first_page))))
           [new_entry (Form.mk " Cy " "Friday" "08:00" "12:30" "")
                      "k9" "2024-01-05T12:31:00.000Z";
            new_entry (Form.mk "Di" "Sunday" "10:00" "11:00" "x")
                      "k10" "2024-01-05T12:32:00.000Z"]).
  - vm_compute. reflexivity.
  - repeat constructor.
  - vm_compute. reflexivity.
  - vm_compute. discriminate.
  - discriminate.
  - discriminate.
Defined.

(** * The import on entries it has made *)

Lemma sanitize_settled `{Host} (uid now : nat -> string) (i : nat) (e : JsVal) :
  settled e -> sanitize uid now i e = Returns e.
Proof.
  intros (id & employee & day & timeIn & timeOut & notes & createdAt
          & -> & Hid & Hc).
  unfold sanitize. cbn [Get key_name own String.eqb Ascii.eqb Bool.eqb bind ToString].
  unfold or_else. rewrite Hid, Hc. cbn [ToBoolean].
  destruct notes; reflexivity.
Qed.

Lemma sanitize_makes_settled `{Host} (uid now : nat -> string) (i : nat)
    (x a : JsVal) :
  valid_candidate x = true -> sanitize uid now i x = Returns a ->
  uid i <> "" -> now i <> "" ->
  settled a
  /\ (valid_candidate a = true <-> field a Kemployee <> VStr "").
Proof.
  unfold valid_candidate. intros Hv Hs Huid Hnow.
  apply andb_prop in Hv as [Hv Hto]. apply andb_prop in Hv as [Hv Hti].
  apply andb_prop in Hv as [Hv _]. apply andb_prop in Hv as [Hx Hd].
  assert (Hn : nullish x = false) by (destruct x; try reflexivity; discriminate).
  unfold sanitize in Hs. rewrite !(Get_field x) in Hs by exact Hn.
  cbn [bind] in Hs.
  destruct (ToString (field x Kemployee)) as [employee| |]; try discriminate Hs.
  cbn [bind] in Hs.
  destruct (if ToBoolean (field x Knotes) then ToString (field x Knotes)
            else Returns "") as [notes| |]; try discriminate Hs.
  cbn [bind] in Hs. injection Hs as <-.
  apply String.eqb_neq in Huid, Hnow.
  split.
  - eexists _, _, _, _, _, _, _. split; [reflexivity|].
    unfold or_else. split.
    + destruct (ToBoolean (field x Kid)) eqn:E; [exact E|].
      cbn [ToBoolean]. now rewrite Huid.
    + destruct (ToBoolean (field x KcreatedAt)) eqn:E; [exact E|].
      cbn [ToBoolean]. now rewrite Hnow.
  - unfold field.
    cbn [Get key_name own String.eqb Ascii.eqb Bool.eqb ToBoolean andb].
    fold (field x Kday) (field x KtimeIn) (field x KtimeOut).
    rewrite Hd, Hti, Hto. cbn [andb]. rewrite andb_true_r.
    destruct (employee =? "") eqn:E.
    + apply String.eqb_eq in E. subst. split; [discriminate|congruence].
    + apply String.eqb_neq in E. split; [intros _ K; congruence|reflexivity].
Qed.

(** X18. The import does not touch again what it has made: an entry
    that [sanitize] built from an accepted candidate (with the id and the
    date of the clock not empty) passes through [sanitize] unchanged, with
    its id, in any later import; and the filter of a later import accepts
    it unless its employee text is empty.  An entry pushed by [addEntry]
    passes unchanged as well when its id and date are not empty. *)
Theorem sanitize_settles `{Host} (uid now uid' now' : nat -> string) (i j : nat)
    (x a : JsVal) :
  valid_candidate x = true -> sanitize uid now i x = Returns a ->
  uid i <> "" -> now i <> "" ->
  sanitize uid' now' j a = Returns a
  /\ (valid_candidate a = true <-> field a Kemployee <> VStr "")
  /\ (forall fields id createdAt, id <> "" -> createdAt <> "" ->
        sanitize uid' now' j (new_entry fields id createdAt)
        = Returns (new_entry fields id createdAt)).
Proof.
  intros Hv Hs Huid Hnow.
  destruct (sanitize_makes_settled uid now i x a Hv Hs Huid Hnow) as [Hset Hval].
  split; [now apply sanitize_settled|]. split; [exact Hval|].
  intros fields id createdAt Hid Hc. apply sanitize_settled.
  eexists _, _, _, _, _, _, _. split; [reflexivity|].
  apply String.eqb_neq in Hid, Hc. cbn [ToBoolean]. now rewrite Hid, Hc.
Qed.

Lemma sanitize_settles_witness :
  @sanitize sample_host sample_uid sample_now 5 sloppy_saved = Returns sloppy_saved
  /\ (valid_candidate sloppy_saved = true
      <-> field sloppy_saved Kemployee <> VStr "")
  /\ (forall fields id createdAt, id <> "" -> createdAt <> "" ->
        @sanitize sample_host sample_uid sample_now 5
          (new_entry fields id createdAt)
        = Returns (new_entry fields id createdAt)).
Proof.
  apply (@sanitize_settles sample_host sample_uid sample_now sample_uid sample_now
           0 5
           (VObj [("employee", VArr []); ("day", VStr "Monday");
                  ("timeIn", VBool true); ("timeOut", VObj [])])
           sloppy_saved).
  - reflexivity.
  - reflexivity.
  - discriminate.
  - discriminate.
Defined.

(** * Reading back the exported text *)

Lemma blank_app (a b : string) : blank (a ++ b) = blank a && blank b.
Proof.
  induction a as [|c a IH]; [reflexivity|].
  cbn [append blank]. now rewrite IH, andb_assoc.
Qed.

Lemma skip_ws_blank (pre s : string) :
  blank pre = true -> skip_ws (pre ++ s) = skip_ws s.
Proof.
  induction pre as [|c pre IH]; [reflexivity|].
  cbn [blank append skip_ws]. intro E. apply andb_prop in E as [-> E].
  now apply IH.
Qed.

Lemma parse_value_blank (pre s : string) (fuel : nat) :
  blank pre = true -> parse_value fuel (pre ++ s) = parse_value fuel s.
Proof.
  intro E. destruct fuel as [|fuel]; [reflexivity|].
  cbn [parse_value]. now rewrite (skip_ws_blank pre s E).
Qed.

Lemma parse_elements_blank (pre s : string) (fuel : nat) :
  blank pre = true -> parse_elements fuel (pre ++ s) = parse_elements fuel s.
Proof.
  intro E. destruct fuel as [|fuel]; [reflexivity|].
  cbn [parse_elements]. now rewrite (parse_value_blank pre s fuel E).
Qed.

Lemma parse_members_blank (pre s : string) (fuel : nat)
    (acc : list (string * JsVal)) :
  blank pre = true ->
  parse_members fuel (pre ++ s) acc = parse_members fuel s acc.
Proof.
  intro E. destruct fuel as [|fuel]; [reflexivity|].
  cbn [parse_members]. now rewrite (skip_ws_blank pre s E).
Qed.

Lemma blank_line (indent : string) :
  blank indent = true -> blank (String LF indent) = true.
Proof. intro E. cbn [blank]. now rewrite E. Qed.

Lemma numbers_spaced_VArr `{Host} (elems : list JsVal) :
  numbers_spaced (VArr elems) <-> Forall numbers_spaced elems.
Proof.
  cbn [numbers_spaced]. induction elems as [|x l IH];
    [split; [intros _; apply Forall_nil|intros _; exact I]|].
  rewrite IH. split.
  - intros [Hx Hl]. now constructor.
  - intro Hall. inversion Hall; subst. now split.
Qed.

Lemma numbers_spaced_VObj `{Host} (props : list (string * JsVal)) :
  numbers_spaced (VObj props)
  <-> Forall (fun kv => numbers_spaced (snd kv)) props.
Proof.
  cbn [numbers_spaced]. induction props as [|[k x] l IH];
    [split; [intros _; apply Forall_nil|intros _; exact I]|].
  rewrite IH. split.
  - intros [Hx Hl]. now constructor.
  - intro Hall. inversion Hall; subst. now split.
Qed.

Lemma spaced_defined `{Host} (gap indent : string) (v : JsVal) :
  shaped v -> stringify_spaced gap indent v = Some (text_spaced gap indent v).
Proof.
  unfold text_spaced. destruct v as [| |[]| | |elems|props|]; cbn [shaped];
    try contradiction; intros _; try reflexivity.
  - cbn [stringify_spaced].
    match goal with
    | |- context [match ?l with nil => _ | cons _ _ => _ end] => destruct l
    end; reflexivity.
  - cbn [stringify_spaced].
    match goal with
    | |- context [match ?l with nil => _ | cons _ _ => _ end] => destruct l
    end; reflexivity.
Qed.

Lemma spaced_VArr `{Host} (gap indent : string) (x : JsVal) (l : list JsVal) :
  text_spaced gap indent (VArr (x :: l))
  = ("[" ++ String LF (indent ++ gap)
     ++ join ("," ++ String LF (indent ++ gap))
             (map (text_spaced gap (indent ++ gap)) (x :: l))
     ++ String LF indent ++ "]")%string.
Proof. reflexivity. Qed.

Lemma spaced_VObj `{Host} (gap indent : string) (kv : string * JsVal)
    (l : list (string * JsVal)) :
  Forall (fun kv => shaped (snd kv)) (kv :: l) ->
  text_spaced gap indent (VObj (kv :: l))
  = ("{" ++ String LF (indent ++ gap)
     ++ join ("," ++ String LF (indent ++ gap))
             (map (member_spaced gap (indent ++ gap)) (kv :: l))
     ++ String LF indent ++ "}")%string.
Proof.
  intro Hall. unfold text_spaced. cbn [stringify_spaced].
  assert (E : forall l, Forall (fun kv => shaped (snd kv)) l ->
    (fix each (l : list (string * JsVal)) : list string :=
       match l with
       | [] => []
       | (k, x) :: rest =>
           match stringify_spaced gap (indent ++ gap) x with
           | Some s => (QuoteJSONString k ++ ": " ++ s)%string :: each rest
           | None => each rest
           end
       end) l = map (member_spaced gap (indent ++ gap)) l).
  { induction 1 as [|[k x] l' Hx _ IH]; [reflexivity|].
    cbn [map snd] in *. rewrite IH. unfold member_spaced. cbn [fst snd].
    rewrite (spaced_defined _ _ x Hx). reflexivity. }
  rewrite (E _ Hall). destruct kv as [k x]. reflexivity.
Qed.

Lemma text_spaced_start `{Host} (gap indent : string) (v : JsVal) :
  shaped v -> numbers_spaced v ->
  exists c t, text_spaced gap indent v = String c t /\ value_start c = true.
Proof.
  destruct v as [| |[]|f|s|elems|props|]; cbn [shaped numbers_spaced];
    try contradiction.
  - intros _ _. exists "n"%char, "ull". now split.
  - intros _ _. exists "t"%char, "rue". now split.
  - intros _ _. exists "f"%char, "alse". now split.
  - intros _ (Hfin & (c & t & Ht & Hc) & _). unfold text_spaced.
    cbn [stringify_spaced]. rewrite Hfin, Ht. exists c, t.
    split; [reflexivity|]. now apply number_start_value.
  - intros _ _. eexists _, _. split; reflexivity.
  - intros _ _. destruct elems as [|x l].
    + exists "["%char, "]". now split.
    + rewrite spaced_VArr. eexists _, _. split; reflexivity.
  - intros Hsh _. unfold text_spaced. cbn [stringify_spaced].
    match goal with
    | |- context [match ?l with nil => _ | cons _ _ => _ end] => destruct l
    end; eexists _, _; split; reflexivity.
Qed.

Lemma after_close_bracket_spaced (pre x : string) :
  blank pre = true ->
  after "," (skip_ws (pre ++ String "]" x)) = None
  /\ after "]" (skip_ws (pre ++ String "]" x)) = Some x.
Proof. intro E. rewrite (skip_ws_blank _ _ E). split; reflexivity. Qed.

Lemma after_close_brace_spaced (pre x : string) :
  blank pre = true ->
  after "," (skip_ws (pre ++ String "}" x)) = None
  /\ after "}" (skip_ws (pre ++ String "}" x)) = Some x.
Proof. intro E. rewrite (skip_ws_blank _ _ E). split; reflexivity. Qed.

Lemma reads_back_spaced_elements `{Host} (elems : list JsVal) :
  Forall reads_back_spaced elems -> Forall shaped elems ->
  Forall numbers_spaced elems -> elems <> [] ->
  forall fuel gap inner indent rest,
    blank gap = true -> blank inner = true -> blank indent = true ->
    need_all elems <= fuel ->
    parse_elements fuel
      (String LF inner
       ++ join ("," ++ String LF inner) (map (text_spaced gap inner) elems)
       ++ String LF indent ++ String "]" rest)
    = Some (elems, rest).
Proof.
  induction 1 as [|x l Hx _ IH];
    intros Hshaped Hnum Hne fuel gap inner indent rest Hgap Hinner Hindent Hfuel;
    [congruence|].
  inversion Hshaped as [|? ? Hsx Hsl]; subst.
  inversion Hnum as [|? ? Hnx Hnl]; subst.
  cbn [need_all fold_right] in Hfuel.
  destruct fuel as [|fuel]; [lia|]. cbn [parse_elements].
  rewrite (parse_value_blank (String LF inner) _ fuel (blank_line _ Hinner)).
  destruct l as [|y l].
  - cbn [map join].
    rewrite (Hx Hsx Hnx fuel gap inner (String LF indent ++ String "]" rest)%string);
      [|assumption|assumption|lia|right; reflexivity].
    destruct (after_close_bracket_spaced (String LF indent) rest
                (blank_line _ Hindent)) as [-> ->].
    reflexivity.
  - rewrite map_cons, join_cons by discriminate.
    rewrite !append_assoc.
    rewrite (Hx Hsx Hnx fuel gap inner); [|assumption|assumption|lia|left; reflexivity].
    rewrite after_comma.
    rewrite (IH Hsl Hnl); [reflexivity|discriminate|assumption|assumption|assumption|].
    fold (need_all (y :: l)) in Hfuel. lia.
Qed.

Lemma member_spaced_shape `{Host} (gap indent k : string) (x : JsVal)
    (tail : string) :
  (member_spaced gap indent (k, x) ++ tail)%string
  = String dquote
      (quote_units k
       ++ String dquote (String ":" (" " ++ (text_spaced gap indent x ++ tail)))).
Proof.
  unfold member_spaced, QuoteJSONString. cbn [fst snd append].
  now rewrite !append_assoc.
Qed.

Lemma reads_back_spaced_members `{Host} (props : list (string * JsVal)) :
  Forall (fun kv => reads_back_spaced (snd kv)) props ->
  Forall (fun kv => shaped (snd kv)) props ->
  Forall (fun kv => numbers_spaced (snd kv)) props -> props <> [] ->
  forall fuel gap inner indent rest acc,
    blank gap = true -> blank inner = true -> blank indent = true ->
    need_props props <= fuel ->
    parse_members fuel
      (String LF inner
       ++ join ("," ++ String LF inner) (map (member_spaced gap inner) props)
       ++ String LF indent ++ String "}" rest) acc
    = Some (fold_left (fun acc kv => define_prop (fst kv) (snd kv) acc) props acc,
            rest).
Proof.
  induction 1 as [|[k x] l Hx _ IH];
    intros Hshaped Hnum Hne fuel gap inner indent rest acc Hgap Hinner Hindent
           Hfuel;
    [congruence|].
  inversion Hshaped as [|? ? Hsx Hsl]; subst.
  inversion Hnum as [|? ? Hnx Hnl]; subst. cbn [snd] in Hx, Hsx, Hnx.
  cbn [need_props fold_right snd] in Hfuel.
  destruct fuel as [|fuel]; [lia|].
  rewrite (parse_members_blank (String LF inner) _ (S fuel) acc
             (blank_line _ Hinner)).
  cbn [parse_members fold_left fst snd].
  destruct l as [|y l].
  - cbn [map join]. rewrite member_spaced_shape, after_dquote, parse_chars_quoted.
    rewrite after_colon.
    rewrite (parse_value_blank " " _ fuel eq_refl).
    rewrite (Hx Hsx Hnx fuel gap inner (String LF indent ++ String "}" rest)%string);
      [|assumption|assumption|lia|right; reflexivity].
    destruct (after_close_brace_spaced (String LF indent) rest
                (blank_line _ Hindent)) as [-> ->].
    reflexivity.
  - rewrite map_cons, join_cons by discriminate.
    rewrite append_assoc, member_spaced_shape, after_dquote, parse_chars_quoted.
    rewrite after_colon, !append_assoc.
    rewrite (parse_value_blank " " _ fuel eq_refl).
    rewrite (Hx Hsx Hnx fuel gap inner); [|assumption|assumption|lia|left; reflexivity].
    rewrite after_comma.
    rewrite (IH Hsl Hnl); [reflexivity|discriminate|assumption|assumption|assumption|].
    fold (need_props (y :: l)) in Hfuel. lia.
Qed.

Lemma reads_back_spaced_all `{Host} (v : JsVal) : reads_back_spaced v.
Proof.
  induction v as [| |b|f|s|elems IH|props IH|] using JsVal_nested_ind;
    intros Hshaped Hnum fuel gap indent rest Hgap Hindent Hfuel Hrest;
    try contradiction;
    (destruct fuel as [|fuel]; [cbn [need] in Hfuel; lia|]).
  - reflexivity.
  - destruct b; reflexivity.
  - destruct Hnum as (Hfin & (c & t & Ht & Hc) & Hread).
    unfold text_spaced. cbn [stringify_spaced]. rewrite Hfin.
    specialize (Hread rest Hrest). rewrite Ht in *.
    destruct (number_start_dispatch c Hc) as (W & E1 & E2 & E3 & E4 & E5 & E6).
    cbn [append parse_value]. rewrite (skip_ws_start c _ W).
    rewrite E1, E2, E3, E4, E5, E6. cbn [append] in Hread. now rewrite Hread.
  - unfold text_spaced. cbn [stringify_spaced]. unfold QuoteJSONString.
    cbn [append]. rewrite append_assoc. cbn [append parse_value].
    change (skip_ws (String dquote ?x)) with (String dquote x).
    cbn. now rewrite parse_chars_quoted.
  - apply shaped_VArr in Hshaped. apply numbers_spaced_VArr in Hnum.
    rewrite need_VArr in Hfuel.
    destruct elems as [|x l]; [reflexivity|].
    rewrite spaced_VArr.
    rewrite !append_assoc. cbn [append parse_value].
    destruct (text_spaced_start gap (indent ++ gap) x) as (c & t & Ht & Hc).
    { now inversion Hshaped. }
    { now inversion Hnum. }
    destruct (value_start_not_ws c Hc) as (W & B & _ & _).
    assert (Hinner : blank (indent ++ gap) = true).
    { now rewrite blank_app, Hgap, Hindent. }
    assert (Hhead : exists t',
               (join ("," ++ String LF (indent ++ gap))
                     (map (text_spaced gap (indent ++ gap)) (x :: l))
                ++ String LF indent ++ String "]" rest)%string
               = String c t').
    { destruct l; cbn [map join]; rewrite Ht; eexists; reflexivity. }
    destruct Hhead as [t' Ht'].
    change (skip_ws (String "[" ?x)) with (String "[" x). cbn beta iota.
    change (Ascii.eqb "[" "n") with false. change (Ascii.eqb "[" "t") with false.
    change (Ascii.eqb "[" "f") with false. change (Ascii.eqb "[" dquote) with false.
    change (Ascii.eqb "[" "[") with true. cbn beta iota.
    change (String LF ((indent ++ gap) ++ ?x))
      with (String LF (indent ++ gap) ++ x)%string.
    rewrite (skip_ws_blank (String LF (indent ++ gap)) _ (blank_line _ Hinner)).
    rewrite Ht' at 1. rewrite (skip_ws_start c _ W). cbn [after]. rewrite B.
    assert (Hel := reads_back_spaced_elements (x :: l) IH Hshaped Hnum
                     ltac:(discriminate) fuel gap (indent ++ gap)%string indent
                     rest Hgap Hinner Hindent ltac:(lia)).
    cbn [append] in Hel |- *. now rewrite Hel.
  - apply shaped_VObj in Hshaped as [Hord Hshaped].
    apply numbers_spaced_VObj in Hnum. rewrite need_VObj in Hfuel.
    destruct props as [|[k x] l]; [reflexivity|].
    rewrite (spaced_VObj _ _ _ _ Hshaped).
    rewrite !append_assoc. cbn [append parse_value].
    assert (Hinner : blank (indent ++ gap) = true).
    { now rewrite blank_app, Hgap, Hindent. }
    change (skip_ws (String "{" ?x)) with (String "{" x). cbn beta iota.
    change (Ascii.eqb "{" "n") with false. change (Ascii.eqb "{" "t") with false.
    change (Ascii.eqb "{" "f") with false. change (Ascii.eqb "{" dquote) with false.
    change (Ascii.eqb "{" "[") with false. change (Ascii.eqb "{" "{") with true.
    cbn beta iota.
    assert (Hhead : exists t',
               (join ("," ++ String LF (indent ++ gap))
                     (map (member_spaced gap (indent ++ gap)) ((k, x) :: l))
                ++ String LF indent ++ String "}" rest)%string
               = String dquote t').
    { destruct l; cbn [map join]; [|rewrite append_assoc];
        rewrite member_spaced_shape; eexists; reflexivity. }
    destruct Hhead as [t' Ht'].
    change (String LF ((indent ++ gap) ++ ?x))
      with (String LF (indent ++ gap) ++ x)%string.
    rewrite (skip_ws_blank (String LF (indent ++ gap)) _ (blank_line _ Hinner)).
    rewrite Ht' at 1. change (skip_ws (String dquote t')) with (String dquote t').
    change (after "}" (String dquote t')) with (@None string).
    assert (Hel := reads_back_spaced_members ((k, x) :: l) IH Hshaped Hnum
                     ltac:(discriminate) fuel gap (indent ++ gap)%string indent
                     rest [] Hgap Hinner Hindent ltac:(lia)).
    fold (rebuild ((k, x) :: l)) in Hel. rewrite (ordered_rebuild _ Hord) in Hel.
    cbn [append] in Hel |- *. now rewrite Hel.
Qed.

Lemma need_all_joined (sep : string) (texts : JsVal -> string)
    (elems : list JsVal) :
  sep <> "" ->
  Forall (fun x => need x <= String.length (texts x)) elems ->
  need_all elems <= String.length (join sep (map texts elems)) + 1.
Proof.
  intros Hsep. destruct sep as [|c sep]; [congruence|].
  induction 1 as [|x l Hx _ IH]; [cbn; lia|].
  cbn [need_all fold_right]. fold (need_all l).
  destruct l as [|y l].
  - cbn [map join need_all fold_right]. lia.
  - rewrite map_cons, join_cons by discriminate.
    rewrite !length_append. cbn [String.length]. lia.
Qed.

Lemma need_props_joined (sep : string) (texts : string * JsVal -> string)
    (props : list (string * JsVal)) :
  sep <> "" ->
  Forall (fun kv => need (snd kv) <= String.length (texts kv)) props ->
  need_props props <= String.length (join sep (map texts props)) + 1.
Proof.
  intros Hsep. destruct sep as [|c sep]; [congruence|].
  induction 1 as [|[k x] l Hx _ IH]; [cbn; lia|].
  cbn [need_props fold_right snd] in *. fold (need_props l).
  destruct l as [|y l].
  - cbn [map join need_props fold_right]. lia.
  - rewrite map_cons, join_cons by discriminate.
    rewrite !length_append. cbn [String.length]. lia.
Qed.

Lemma need_length_spaced `{Host} (v : JsVal) :
  shaped v -> numbers_spaced v ->
  forall gap indent, need v <= String.length (text_spaced gap indent v).
Proof.
  induction v as [| |b|f|s|elems IH|props IH|] using JsVal_nested_ind;
    intros Hshaped Hnum gap indent; try contradiction.
  1-4: destruct (text_spaced_start gap indent _ Hshaped Hnum) as (c & t & -> & _);
       cbn; lia.
  - apply shaped_VArr in Hshaped. apply numbers_spaced_VArr in Hnum.
    rewrite need_VArr. destruct elems as [|x l]; [cbn; lia|].
    rewrite spaced_VArr. rewrite !length_append. cbn [String.length].
    enough (need_all (x :: l)
            <= String.length
                 (join ("," ++ String LF (indent ++ gap))
                       (map (text_spaced gap (indent ++ gap)) (x :: l))) + 1) by lia.
    apply need_all_joined; [discriminate|].
    rewrite Forall_forall in *. auto.
  - apply shaped_VObj in Hshaped as [_ Hshaped].
    apply numbers_spaced_VObj in Hnum. rewrite need_VObj.
    destruct props as [|kv l]; [cbn; lia|].
    rewrite (spaced_VObj _ _ _ _ Hshaped). rewrite !length_append.
    cbn [String.length].
    enough (need_props (kv :: l)
            <= String.length
                 (join ("," ++ String LF (indent ++ gap))
                       (map (member_spaced gap (indent ++ gap)) (kv :: l))) + 1)
      by lia.
    apply need_props_joined; [discriminate|].
    rewrite Forall_forall in *. intros p Hp.
    unfold member_spaced. rewrite !length_append.
    specialize (IH p Hp (Hshaped p Hp) (Hnum p Hp) gap (indent ++ gap)%string).
    lia.
Qed.

Lemma parse_export_text (toString : float -> string) (st : JsVal) :
  shaped st -> @numbers_spaced (browser toString) st ->
  parse (@export_text (browser toString) st) = Some st.
Proof.
  intros Hshaped Hnum. unfold parse, export_text.
  rewrite (@spaced_defined (browser toString) _ _ st Hshaped).
  pose proof (@reads_back_spaced_all (browser toString) st Hshaped Hnum
                (2 * String.length (@text_spaced (browser toString) "  " "" st) + 2)
                "  " "" "" eq_refl eq_refl) as Hread.
  rewrite append_empty_r in Hread. rewrite Hread; [reflexivity| |exact I].
  pose proof (@need_length_spaced (browser toString) st Hshaped Hnum "  " "").
  lia.
Qed.

(** X19. The file the export button writes is read back by [JSON.parse]
    as the state it was written from, for every state built by the
    handlers or by [JSON.parse] whose numbers the host writes so that they
    read back: the indentation changes nothing. *)
Theorem export_reads_back (toString : float -> string) (st : JsVal) :
  shaped st -> @numbers_spaced (browser toString) st ->
  parse (@export_text (browser toString) st) = Some st.
Proof. apply parse_export_text. Qed.

Lemma roster_page_shaped : shaped (state roster_page).
Proof.
  apply (reachable_shaped (fun _ => "0")).
  eapply reachable_step; [apply reachable_first|apply step_import].
Qed.

Lemma export_reads_back_witness :
  parse (@export_text sample_host (state roster_page)) = Some (state roster_page).
Proof.
  apply (export_reads_back (fun _ => "0") (state roster_page)).
  - exact roster_page_shaped.
  - vm_compute. repeat split.
Defined.

(** * Importing an exported file *)






(** * The script at its start *)

(** X21. [loadState] looks at the stored document no further than its
    [entries] array.  When the array holds an entry that is [undefined] or
    [null], or an entry tagged with a weekday whose time in or time out is
    not a string, the script keeps the document as its state and then
    throws in the [render] that ends it. *)
Theorem boot_unchecked `{Host} (raw : string) (parsed : JsVal)
    (l : list JsVal) (e : JsVal) :
  raw <> "" ->
  JSON_parse raw = Some parsed ->
  Get parsed Kentries = Returns (VArr l) ->
  In e l ->
  nullish e = true \/ (on_weekday e = true /\ timed e = false) ->
  boot (Some raw) = (mkPage parsed (Some raw) [], Throws).
Proof.
  intros Hraw Hparse Hget Hin Hbad. unfold boot, loadState, loadState_try.
  apply String.eqb_neq in Hraw. rewrite Hraw, Hparse. cbn [bind].
  rewrite Hget. cbn [bind ToBoolean isArray negb orb try_catch].
  assert (HE : entries_of parsed = Returns l).
  { destruct parsed; cbn in Hget; try discriminate Hget.
    cbn. destruct (own "entries" props) as [x|];
      [injection Hget as ->; reflexivity|discriminate Hget]. }
  unfold render. rewrite hbind_getState. cbn [state]. rewrite HE, hbind_returns.
  pose proof (aggregate_rendered l) as Hout.
  rewrite (proj2 (rendered_some l)) in Hout.
  2:{ exists e. split; [exact Hin|]. destruct Hbad as [Hn|[Hw Ht]];
        [now left|right; split; [exact Hw|now left]]. }
  unfold hbind, lift. now rewrite Hout.
Qed.

Lemma boot_unchecked_witness :
  @boot sample_host (Some (json "{'entries':[null]}"))
  = (mkPage (VObj [("entries", VArr [VNull])])
            (Some (json "{'entries':[null]}")) [],
     Throws).
Proof.
  apply (@boot_unchecked sample_host (json "{'entries':[null]}")
           (VObj [("entries", VArr [VNull])]) [VNull] VNull).
  - discriminate.
  - reflexivity.
  - reflexivity.
  - now left.
  - now left.
Defined.
